(** * UniChess: the engine wrapper, the page logic and the board component

    A shallow embedding of [src/app/lib/stockfish.ts], of the page component
    (its [StockfishEngine] class, [simpleEval], [random960Position],
    [handleBotMove], [handleMove]) and of [src/app/components/ChessBoard.tsx].

    Conventions.
    - A JavaScript string is a [string] (a list of 8-bit characters); every
      character the code compares against is ASCII.
    - A JavaScript number is a [Z] where the code uses it as an integer
      (depth, skill level) and a [Q] where it carries a material score: the
      piece values are multiples of 1/4, so the sums of the source are exact.
      A number read from a message is rounded to a double ([JS.toDouble]).
    - Mutable objects (the worker, the engine, the React state) are records
      threaded through the functions; calls of closures the code receives
      from outside are recorded in an effect log.
    - chess.js is not part of the repository: the page and the board use it
      through the interface [ChessJS]; the rules engine [Rules] is modelled
      from the specification and is one implementation of that interface. *)

From Stdlib Require Import QArith Qround ZArith String Ascii List DecimalString Lia Lqa.
From stdpp Require Import base list option strings.
Import ListNotations.

(** ** JavaScript string primitives used by the sources *)

Module JS.

(** [s.split(sep)] for a one-character separator: never returns the empty
    array. *)
Fixpoint split (sep : ascii) (s : string) : list string :=
  match s with
  | EmptyString => [EmptyString]
  | String c s' =>
      if Ascii.eqb c sep then EmptyString :: split sep s'
      else match split sep s' with
           | w :: ws => String c w :: ws
           | [] => [String c EmptyString]
           end
  end.

(** [s.startsWith(p)]. *)
Definition startsWith (s p : string) : bool := String.prefix p s.

(** [xs.includes(x)] on an array of strings. *)
Definition includes (xs : list string) (x : string) : bool :=
  existsb (String.eqb x) xs.

(** [xs.join('')]. *)
Definition join (xs : list string) : string := String.concat "" xs.

(** Truthiness of a string: only the empty string is falsy. *)
Definition truthy (s : string) : bool := negb (String.eqb s "").

(** Truthiness of a string that may be [undefined] or [null]. *)
Definition truthy_opt (o : option string) : bool :=
  match o with Some s => truthy s | None => false end.

(** [c.toUpperCase()] on one ASCII character. *)
Definition upper_ascii (c : ascii) : ascii :=
  let n := nat_of_ascii c in
  if (97 <=? n)%nat && (n <=? 122)%nat then ascii_of_nat (n - 32) else c.

(** [s.toUpperCase()]. *)
Fixpoint toUpperCase (s : string) : string :=
  match s with
  | EmptyString => EmptyString
  | String c s' => String (upper_ascii c) (toUpperCase s')
  end.

Definition isDigit (c : ascii) : bool :=
  let n := nat_of_ascii c in (48 <=? n)%nat && (n <=? 57)%nat.

Definition digitValue (c : ascii) : Z := Z.of_nat (nat_of_ascii c - 48).

(** The value of a string of decimal digits. *)
Definition parseDigits (s : string) : Z :=
  fold_left (fun acc c => 10 * acc + digitValue c)%Z (list_ascii_of_string s) 0%Z.

(** The double nearest to the integer [n], ties to the even significand:
    a JavaScript number holds an integer of more than 53 bits only
    rounded. (From 2^1024 on the code has [Infinity], which is outside the
    integers of this model.) *)
Definition toDouble (n : Z) : Z :=
  let a := Z.abs n in
  let excess := (Z.log2 a - 52)%Z in
  if (excess <=? 0)%Z then n
  else
    let unit := (2 ^ excess)%Z in
    let q := (a / unit)%Z in
    let r := (a mod unit)%Z in
    let half := (unit / 2)%Z in
    let q' := if (half <? r)%Z || ((r =? half)%Z && Z.odd q) then (q + 1)%Z else q in
    (Z.sgn n * (q' * unit))%Z.

(** Template-literal rendering of an integer, [`${n}`]. *)
Definition show (n : Z) : string := NilEmpty.string_of_int (Z.to_int n).

End JS.

(** ** Material evaluation *)

Module Eval.

(** The table [values] of [StockfishEngine.fallbackEval]; [None] is
    [undefined]. *)
Definition values (ch : ascii) : option Q :=
  match ch with
  | "P" => Some 1 | "N" => Some 3 | "B" => Some 3.25
  | "R" => Some 5 | "Q" => Some 9 | "K" => Some 0
  | "p" => Some (-1) | "n" => Some (-3) | "b" => Some (-3.25)
  | "r" => Some (-5) | "q" => Some (-9) | "k" => Some 0
  | _ => None
  end%char%Q.

(** The table [pieces] of [simpleEval]. *)
Definition pieces (ch : ascii) : option Q :=
  match ch with
  | "P" => Some 1 | "N" => Some 3 | "B" => Some 3
  | "R" => Some 5 | "Q" => Some 9 | "K" => Some 0
  | "p" => Some (-1) | "n" => Some (-3) | "b" => Some (-3)
  | "r" => Some (-5) | "q" => Some (-9) | "k" => Some 0
  | _ => None
  end%char%Q.

(** The loop shared by both evaluators:
    [for (const ch of field) if (table[ch] !== undefined) score += table[ch]]. *)
Definition accumulate (table : ascii -> option Q) (score : Q) (field : string) : Q :=
  fold_left
    (fun score ch => match table ch with Some v => score + v | None => score end)%Q
    (list_ascii_of_string field) score.

(** [fen.split(' ')[0]]. *)
Definition placement (fen : string) : string :=
  match JS.split " " fen with
  | f :: _ => f
  | [] => EmptyString
  end.

Definition fallbackEval (fen : string) : Q := accumulate values 0 (placement fen).

Definition simpleEval (fen : string) : Q := accumulate pieces 0 (placement fen).

End Eval.

(** ** A state monad for the code that mutates objects *)

Module St.

Definition M (S A : Type) : Type := S -> A * S.

Definition ret {S A} (a : A) : M S A := fun s => (a, s).

Definition bind {S A B} (m : M S A) (k : A -> M S B) : M S B :=
  fun s => let (a, s') := m s in k a s'.

Definition gets {S A} (f : S -> A) : M S A := fun s => (f s, s).

Definition modify {S} (f : S -> S) : M S unit := fun s => (tt, f s).

Definition exec {S A} (m : M S A) (s : S) : S := snd (m s).

Definition eval {S A} (m : M S A) (s : S) : A := fst (m s).

End St.

Declare Scope st_scope.
Delimit Scope st_scope with st.
Notation "x <- m ;; k" := (St.bind m (fun x => k))
  (at level 100, m at next level, right associativity) : st_scope.
Notation "m ;; k" := (St.bind m (fun _ => k))
  (at level 100, right associativity) : st_scope.

(** ** The engine wrapper of [lib/stockfish.ts]

    The class [StockfishEngine] without [init]: the model starts from an
    engine whose worker is there ([Some]) or not ([None], as [init] leaves
    it when the script cannot be loaded or does not answer). *)

Module Engine.

Record AnalysisResult : Type := mkAnalysis {
  depth : Z;
  score : option Q;
  mate : option Z;
  bestMove : option string;
  pv : string
}.

(** The closure [findBestMove] installs in [onBestMove]: it restores the
    callback it replaced and resolves the promise [promise]. [NoCallback]
    is [null]. *)
Inductive BestMoveCb : Type :=
| NoCallback
| Resolver (promise : nat) (prevCallback : BestMoveCb).

(** The fields of a [StockfishEngine]. The worker is represented by the
    messages posted to it, oldest first; the analysis callback is a closure
    of the caller, identified by a number. *)
Record Engine : Type := mkEngine {
  worker : option (list string);
  onAnalysis : option nat;
  onBestMove : BestMoveCb;
  ready : bool;
  currentAnalysis : AnalysisResult
}.

(** A promise is pending ([Pending]) or settled with a move or [null]. *)
Inductive PromiseState : Type :=
| Pending
| Resolved (value : option string).

(** What a timer does when it fires: [() => resolve(null)]. *)
Inductive TimerAction : Type :=
| ResolveNull (promise : nat).

#[global] Instance PromiseState_eq_dec : EqDecision PromiseState.
Proof. solve_decision. Defined.
#[global] Instance TimerAction_eq_dec : EqDecision TimerAction.
Proof. solve_decision. Defined.

(** Calls of closures observable from outside the class. *)
Inductive Call : Type :=
| AnalysisCall (cb : nat) (result : AnalysisResult)
| BestMoveCall (move : string).

(** The engine object together with the part of the JavaScript host it
    touches: the promises it created, the timers it set ([delay], action)
    and the callbacks it has invoked so far. *)
Record Host : Type := mkHost {
  engine : Engine;
  promises : list PromiseState;
  timers : list (Z * TimerAction);
  calls : list Call
}.

Definition initialEngine : Engine :=
  {| worker := None; onAnalysis := None; onBestMove := NoCallback; ready := false;
     currentAnalysis := mkAnalysis 0 (Some 0%Q) None None "" |}.

Definition set_engine (f : Engine -> Engine) (h : Host) : Host :=
  {| engine := f (engine h); promises := promises h; timers := timers h; calls := calls h |}.

Definition set_worker (w : option (list string)) (e : Engine) : Engine :=
  {| worker := w; onAnalysis := onAnalysis e; onBestMove := onBestMove e;
     ready := ready e; currentAnalysis := currentAnalysis e |}.

Definition set_onAnalysis (cb : option nat) (e : Engine) : Engine :=
  {| worker := worker e; onAnalysis := cb; onBestMove := onBestMove e;
     ready := ready e; currentAnalysis := currentAnalysis e |}.

Definition set_onBestMove (cb : BestMoveCb) (e : Engine) : Engine :=
  {| worker := worker e; onAnalysis := onAnalysis e; onBestMove := cb;
     ready := ready e; currentAnalysis := currentAnalysis e |}.

Definition set_currentAnalysis (r : AnalysisResult) (e : Engine) : Engine :=
  {| worker := worker e; onAnalysis := onAnalysis e; onBestMove := onBestMove e;
     ready := ready e; currentAnalysis := r |}.

Definition log (c : Call) (h : Host) : Host :=
  {| engine := engine h; promises := promises h; timers := timers h;
     calls := calls h ++ [c] |}.

Local Open Scope st_scope.

Definition Eff (A : Type) : Type := St.M Host A.

(** [this.worker?.postMessage(cmd)]. *)
Definition send (cmd : string) : Eff unit :=
  St.modify (set_engine (fun e =>
    set_worker (match worker e with
                | Some posted => Some (posted ++ [cmd])
                | None => None
                end) e)).

(** [new Promise(...)]: allocates a pending promise. *)
Definition newPromise : Eff nat :=
  fun h => (length (promises h),
            {| engine := engine h; promises := promises h ++ [Pending];
               timers := timers h; calls := calls h |}).

(** [resolve(v)]: settles the promise unless it is settled already. *)
Definition resolve (p : nat) (v : option string) : Eff unit :=
  St.modify (fun h =>
    match promises h !! p with
    | Some Pending =>
        {| engine := engine h; promises := <[p := Resolved v]> (promises h);
           timers := timers h; calls := calls h |}
    | _ => h
    end).

(** [setTimeout(action, delay)]. *)
Definition setTimeout (action : TimerAction) (delay : Z) : Eff unit :=
  St.modify (fun h =>
    {| engine := engine h; promises := promises h;
       timers := timers h ++ [(delay, action)]; calls := calls h |}).

(** [this.onAnalysis?.(r)]. *)
Definition callOnAnalysis (r : AnalysisResult) : Eff unit :=
  cb <- St.gets (fun h => onAnalysis (engine h));;
  match cb with
  | Some id => St.modify (log (AnalysisCall id r))
  | None => St.ret tt
  end.

(** [this.onBestMove?.(move)]: the installed closure restores the previous
    callback, then resolves its promise with the move. *)
Definition callOnBestMove (move : string) : Eff unit :=
  cb <- St.gets (fun h => onBestMove (engine h));;
  match cb with
  | Resolver p prevCallback =>
      St.modify (log (BestMoveCall move));;
      St.modify (set_engine (set_onBestMove prevCallback));;
      resolve p (Some move)
  | NoCallback => St.ret tt
  end.

(** *** The regular expressions of [handleMessage] *)

Definition isLineTerminator (c : ascii) : bool :=
  let n := nat_of_ascii c in (n =? 10)%nat || (n =? 13)%nat.

Fixpoint takeWhile (f : ascii -> bool) (s : string) : string :=
  match s with
  | EmptyString => EmptyString
  | String c s' => if f c then String c (takeWhile f s') else EmptyString
  end.

(** The rest of [s] after the literal [lit], when [s] starts with it. *)
Fixpoint stripPrefix (lit s : string) : option string :=
  match lit, s with
  | EmptyString, _ => Some s
  | String a lit', String b s' =>
      if Ascii.eqb a b then stripPrefix lit' s' else None
  | String _ _, EmptyString => None
  end.

Definition nonEmpty (s : string) : option string :=
  if String.eqb s "" then None else Some s.

(** The group [(\d+)]. *)
Definition digits (s : string) : option string := nonEmpty (takeWhile JS.isDigit s).

(** The group [(-?\d+)]. *)
Definition signedDigits (s : string) : option string :=
  match s with
  | String "-" s' => option_map (String "-") (digits s')
  | _ => digits s
  end.

(** The group [(.+)]: [.] matches no line terminator (of the four line
    terminators of JavaScript, the two that are single bytes are modelled:
    line feed and carriage return). *)
Definition restOfLine (s : string) : option string :=
  nonEmpty (takeWhile (fun c => negb (isLineTerminator c)) s).

(** [s.match(/lit(group)/)]: the group of the leftmost match. *)
Fixpoint search (lit : string) (group : string -> option string) (s : string)
  : option string :=
  match stripPrefix lit s ≫= group with
  | Some g => Some g
  | None =>
      match s with
      | EmptyString => None
      | String _ s' => search lit group s'
      end
  end.

(** [s.includes(lit)] on strings. *)
Definition contains (s lit : string) : bool :=
  match search lit (fun _ => Some EmptyString) s with
  | Some _ => true
  | None => false
  end.

(** [parseInt] on a string matched by [-?\d+]: the number the digits
    write, as the double that holds it. *)
Definition parseInt (s : string) : Z :=
  JS.toDouble
    match s with
    | String "-" s' => (- JS.parseDigits s')%Z
    | _ => JS.parseDigits s
    end.

(** [xs[0]] of a [split] result. *)
Definition first (xs : list string) : string :=
  match xs with
  | x :: _ => x
  | [] => EmptyString
  end.

(** *** The methods *)

Definition handleMessage (msg : string) : Eff unit :=
  (if JS.startsWith msg "info" && contains msg "depth" then
     let depthMatch := search "depth " digits msg in
     let scoreMatch := search "score cp " signedDigits msg in
     let mateMatch := search "score mate " signedDigits msg in
     let pvMatch := search " pv " restOfLine msg in
     match depthMatch with
     | Some d =>
         let r := {| depth := parseInt d;
                     score := option_map (fun s => inject_Z (parseInt s) / 100)%Q scoreMatch;
                     mate := option_map parseInt mateMatch;
                     bestMove := option_map (fun p => first (JS.split " " p)) pvMatch;
                     pv := match pvMatch with Some p => p | None => EmptyString end |} in
         St.modify (set_engine (set_currentAnalysis r));;
         callOnAnalysis r
     | None => St.ret tt
     end
   else St.ret tt);;
  if JS.startsWith msg "bestmove" then
    match JS.split " " msg !! 1%nat with
    | Some move =>
        if JS.truthy move && negb (String.eqb move "(none)")
        then callOnBestMove move
        else St.ret tt
    | None => St.ret tt
    end
  else St.ret tt.

Definition setSkillLevel (level : Z) : Eff unit :=
  send ("setoption name Skill Level value " +:+ JS.show level).

(** A parameter with a default value: [None] is an omitted argument. *)
Definition orDefault (d : Z) (o : option Z) : Z :=
  match o with Some v => v | None => d end.

Definition analyze (fen : string) (depth : option Z) : Eff unit :=
  let depth := orDefault 20 depth in
  w <- St.gets (fun h => worker (engine h));;
  match w with
  | None =>
      callOnAnalysis {| depth := depth; score := Some (Eval.fallbackEval fen);
                        mate := None; bestMove := None; pv := EmptyString |}
  | Some _ =>
      send "stop";;
      send ("position fen " +:+ fen);;
      send ("go depth " +:+ JS.show depth)
  end.

(** Returns the promise it created. *)
Definition findBestMove (fen : string) (depth skillLevel : option Z) : Eff nat :=
  let depth := orDefault 12 depth in
  let skillLevel := orDefault 20 skillLevel in
  p <- newPromise;;
  w <- St.gets (fun h => worker (engine h));;
  match w with
  | None => resolve p None;; St.ret p
  | Some _ =>
      send "stop";;
      setSkillLevel skillLevel;;
      send ("position fen " +:+ fen);;
      prevCallback <- St.gets (fun h => onBestMove (engine h));;
      St.modify (set_engine (set_onBestMove (Resolver p prevCallback)));;
      send ("go depth " +:+ JS.show depth);;
      setTimeout (ResolveNull p) 10000;;
      St.ret p
  end.

Definition stop : Eff unit := send "stop".

Definition setOnAnalysis (cb : nat) : Eff unit :=
  St.modify (set_engine (set_onAnalysis (Some cb))).

Definition destroy : Eff unit :=
  send "quit";;
  St.modify (set_engine (set_worker None)).

(** *** The event loop

    What can happen to an engine: the worker posts a message
    ([worker.onmessage] hands it to [handleMessage]), a pending timer
    fires, or the application calls a method. *)

(** A call of one of the public methods. *)
Inductive Request : Type :=
| Analyze (fen : string) (depth : option Z)
| FindBestMove (fen : string) (depth skillLevel : option Z)
| Stop
| SetSkillLevel (level : Z)
| SetOnAnalysis (cb : nat)
| Destroy.

Definition perform (r : Request) : Eff unit :=
  match r with
  | Analyze fen depth => analyze fen depth
  | FindBestMove fen depth skillLevel =>
      _ <- findBestMove fen depth skillLevel;; St.ret tt
  | Stop => stop
  | SetSkillLevel level => setSkillLevel level
  | SetOnAnalysis cb => setOnAnalysis cb
  | Destroy => destroy
  end.

Inductive Event : Type :=
| WorkerMessage (msg : string)
| TimerFires (k : nat)
| Requested (r : Request).

Definition runTimer (a : TimerAction) : Eff unit :=
  match a with
  | ResolveNull p => resolve p None
  end.

Definition dispatch (ev : Event) : Eff unit :=
  match ev with
  | WorkerMessage msg => handleMessage msg
  | TimerFires k =>
      ts <- St.gets timers;;
      match ts !! k with
      | Some (_, a) =>
          St.modify (fun h =>
            {| engine := engine h; promises := promises h;
               timers := take k ts ++ drop (S k) ts; calls := calls h |});;
          runTimer a
      | None => St.ret tt
      end
  | Requested r => perform r
  end.

Fixpoint run (evs : list Event) (h : Host) : Host :=
  match evs with
  | [] => h
  | ev :: evs' => run evs' (St.exec (dispatch ev) h)
  end.

(** The messages a computation posts to the worker, given the host it
    starts from. *)
Definition postedBy {A} (m : Eff A) (h : Host) : list string :=
  match worker (engine h), worker (engine (St.exec m h)) with
  | Some before, Some after => drop (length before) after
  | _, _ => []
  end.

End Engine.

(** ** The [StockfishEngine] class of the page component *)

Module PageEngine.

(** The one-time closure [handler] that [start] installs in
    [messageHandler]; [NoHandler] is [null]. The callback [onMove] is a
    closure of the caller, identified by a number. *)
Inductive Handler : Type :=
| NoHandler
| BestMoveHandler (onMove : nat).

Record StockfishEngine : Type := mkEngine {
  worker : option (list string);
  ready : bool;
  messageHandler : Handler
}.

(** The engine together with the calls of [onMove] made so far. *)
Record Host : Type := mkHost {
  engine : StockfishEngine;
  onMoveCalls : list (nat * string)
}.

Definition Eff (A : Type) : Type := St.M Host A.

Local Open Scope st_scope.

Definition set_engine (f : StockfishEngine -> StockfishEngine) (h : Host) : Host :=
  {| engine := f (engine h); onMoveCalls := onMoveCalls h |}.

Definition set_messageHandler (m : Handler) (e : StockfishEngine) : StockfishEngine :=
  {| worker := worker e; ready := ready e; messageHandler := m |}.

Definition set_ready (r : bool) (e : StockfishEngine) : StockfishEngine :=
  {| worker := worker e; ready := r; messageHandler := messageHandler e |}.

(** [this.worker.postMessage(cmd)], reached only behind a check that the
    worker is there. *)
Definition postMessage (cmd : string) : Eff unit :=
  St.modify (set_engine (fun e =>
    {| worker := match worker e with
                 | Some posted => Some (posted ++ [cmd])
                 | None => None
                 end;
       ready := ready e; messageHandler := messageHandler e |})).

Definition callOnMove (onMove : nat) (move : string) : Eff unit :=
  St.modify (fun h =>
    {| engine := engine h; onMoveCalls := onMoveCalls h ++ [(onMove, move)] |}).

Definition start (fen : string) (depth skillLevel : Z) (onMove : nat) : Eff unit :=
  e <- St.gets engine;;
  match worker e with
  | Some _ =>
      if ready e then
        postMessage ("setoption name Skill Level value " +:+ JS.show skillLevel);;
        postMessage ("position fen " +:+ fen);;
        postMessage ("go depth " +:+ JS.show depth);;
        St.modify (set_engine (set_messageHandler (BestMoveHandler onMove)))
      else St.ret tt
  | None => St.ret tt
  end.

(** The body of the closure [handler]. *)
Definition handler (onMove : nat) (msg : string) : Eff unit :=
  if JS.startsWith msg "bestmove" then
    match JS.split " " msg !! 1%nat with
    | Some move =>
        if JS.truthy move && negb (String.eqb move "(none)")
        then callOnMove onMove move
        else St.ret tt
    | None => St.ret tt
    end;;
    St.modify (set_engine (set_messageHandler NoHandler))
  else St.ret tt.

(** [worker.onmessage] as [init] installs it (the promise of [init] is not
    part of the model). *)
Definition onmessage (msg : string) : Eff unit :=
  e <- St.gets engine;;
  (if Engine.contains msg "uciok" && negb (ready e)
   then St.modify (set_engine (set_ready true))
   else St.ret tt);;
  m <- St.gets (fun h => messageHandler (engine h));;
  match m with
  | BestMoveHandler onMove => handler onMove msg
  | NoHandler => St.ret tt
  end.

Definition isReady (e : StockfishEngine) : bool := ready e.

(** The messages a computation posts to the worker. *)
Definition postedBy {A} (m : Eff A) (h : Host) : list string :=
  match worker (engine h), worker (engine (St.exec m h)) with
  | Some before, Some after => drop (length before) after
  | _, _ => []
  end.

End PageEngine.

(** ** [random960Position] *)

Module Chess960.

(** [Math.floor(r * len)] for a draw [r] of [Math.random()]. *)
Definition randomIndex (r : Q) (len : nat) : Z :=
  Qfloor (r * inject_Z (Z.of_nat len)).

(** [xs[i]]: [None] is [undefined]. *)
Definition at_ {A} (xs : list A) (i : Z) : option A :=
  if (i <? 0)%Z then None else xs !! Z.to_nat i.

(** [xs[Math.floor(Math.random() * xs.length)]]. *)
Definition choose (xs : list Z) (r : Q) : option Z :=
  at_ xs (randomIndex r (length xs)).

(** [backRank[i] = v]. Every index the function writes at is an element of
    [darkSquares], [lightSquares] or of a list of indices of [backRank], so
    it is below the length of the array; writing at [undefined] leaves the
    elements of the array as they are. *)
Definition assign (backRank : list string) (i : option Z) (v : string) : list string :=
  match i with
  | Some i => if (0 <=? i)%Z then <[Z.to_nat i := v]> backRank else backRank
  | None => backRank
  end.

(** [backRank.map((p, i) => p === '' ? i : -1).filter(i => i >= 0)]. *)
Definition emptySquares (backRank : list string) : list Z :=
  List.filter (fun i => (0 <=? i)%Z)
    (imap (fun i p => if String.eqb p "" then Z.of_nat i else (-1)%Z) backRank).

Fixpoint insertSorted (x : Z) (xs : list Z) : list Z :=
  match xs with
  | [] => [x]
  | y :: ys => if (x <=? y)%Z then x :: xs else y :: insertSorted x ys
  end.

(** [xs.sort((a, b) => a - b)]. *)
Definition sortAscending (xs : list Z) : list Z := fold_right insertSorted [] xs.

(** [random k] is the value of the [k]-th call of [Math.random()]. *)
Definition random960Position (random : nat -> Q) : string :=
  let backRank := replicate 8 EmptyString in
  let darkSquares := [0; 2; 4; 6]%Z in
  let lightSquares := [1; 3; 5; 7]%Z in
  let darkBishop := choose darkSquares (random 0%nat) in
  let lightBishop := choose lightSquares (random 1%nat) in
  let backRank := assign backRank darkBishop "b" in
  let backRank := assign backRank lightBishop "b" in
  let empty := emptySquares backRank in
  let queenPos := choose empty (random 2%nat) in
  let backRank := assign backRank queenPos "q" in
  let remaining := emptySquares backRank in
  let knight1 := choose remaining (random 3%nat) in
  let backRank := assign backRank knight1 "n" in
  let remainingAfterN1 := emptySquares backRank in
  let knight2 := choose remainingAfterN1 (random 4%nat) in
  let backRank := assign backRank knight2 "n" in
  let last3 := sortAscending (emptySquares backRank) in
  let backRank :=
    match last3 with
    | [s0; s1; s2] =>
        assign (assign (assign backRank (Some s0) "r") (Some s1) "k") (Some s2) "r"
    | _ => backRank
    end in
  JS.join backRank +:+ "/pppppppp/8/8/8/8/PPPPPPPP/" +:+
  JS.toUpperCase (JS.join backRank) +:+ " w KQkq - 0 1".

(** *** Reading a back rank off a FEN string *)

(** The ranks of the placement field, rank 8 first. *)
Definition ranks (fen : string) : list string := JS.split "/" (Eval.placement fen).

Definition blackBackRank (fen : string) : string :=
  match ranks fen !! 0%nat with Some r => r | None => EmptyString end.

Definition whiteBackRank (fen : string) : string :=
  match ranks fen !! 7%nat with Some r => r | None => EmptyString end.

(** The files (0 for a, 7 for h) at which the character [c] stands in a
    rank written without digits. *)
Fixpoint filesOf_from (file : nat) (c : ascii) (rank : string) : list nat :=
  match rank with
  | EmptyString => []
  | String x rank' =>
      if Ascii.eqb x c then file :: filesOf_from (S file) c rank'
      else filesOf_from (S file) c rank'
  end.

Definition filesOf (c : ascii) (rank : string) : list nat := filesOf_from 0 c rank.

(** The rank holds one king and two rooks, and the king stands between
    them. *)
Definition kingBetweenRooks (king rook : ascii) (rank : string) : Prop :=
  exists r1 k r2 : nat,
    filesOf rook rank = [r1; r2] /\ filesOf king rank = [k] /\ (r1 < k < r2)%nat.

(** The rank holds two bishops, on squares of different colours: along a
    rank the colour of a square alternates with the file. *)
Definition bishopsOnOppositeColors (bishop : ascii) (rank : string) : Prop :=
  exists b1 b2 : nat,
    filesOf bishop rank = [b1; b2] /\ Nat.even b1 <> Nat.even b2.

(** *** The same layout with the choices made explicit

    [layoutWith pick ret] is the body of [random960Position] in which the
    [k]-th random choice from a list [xs] is made by [pick k xs] and the
    finished FEN string is handed to [ret]. *)
Definition layoutWith {R : Type} (pick : nat -> list Z -> (option Z -> R) -> R)
  (ret : string -> R) : R :=
  let backRank := replicate 8 EmptyString in
  let darkSquares := [0; 2; 4; 6]%Z in
  let lightSquares := [1; 3; 5; 7]%Z in
  pick 0%nat darkSquares (fun darkBishop =>
  pick 1%nat lightSquares (fun lightBishop =>
  let backRank := assign backRank darkBishop "b" in
  let backRank := assign backRank lightBishop "b" in
  let empty := emptySquares backRank in
  pick 2%nat empty (fun queenPos =>
  let backRank := assign backRank queenPos "q" in
  let remaining := emptySquares backRank in
  pick 3%nat remaining (fun knight1 =>
  let backRank := assign backRank knight1 "n" in
  let remainingAfterN1 := emptySquares backRank in
  pick 4%nat remainingAfterN1 (fun knight2 =>
  let backRank := assign backRank knight2 "n" in
  let last3 := sortAscending (emptySquares backRank) in
  let backRank :=
    match last3 with
    | [s0; s1; s2] =>
        assign (assign (assign backRank (Some s0) "r") (Some s1) "k") (Some s2) "r"
    | _ => backRank
    end in
  ret (JS.join backRank +:+ "/pppppppp/8/8/8/8/PPPPPPPP/" +:+
       JS.toUpperCase (JS.join backRank) +:+ " w KQkq - 0 1")))))).

(** The choice [Math.random] makes. *)
Definition pickRandom (random : nat -> Q) {R : Type} (k : nat) (xs : list Z)
  (cont : option Z -> R) : R :=
  cont (choose xs (random k)).

(** Every choice: the list is not empty and [cont] holds of each of its
    elements. *)
Definition pickEvery (k : nat) (xs : list Z) (cont : option Z -> bool) : bool :=
  match xs with
  | [] => false
  | _ :: _ => forallb (fun x => cont (Some x)) xs
  end.

Definition kingBetweenRooksb (king rook : ascii) (rank : string) : bool :=
  match filesOf rook rank, filesOf king rank with
  | [r1; r2], [k] => (r1 <? k)%nat && (k <? r2)%nat
  | _, _ => false
  end.

Definition bishopsOnOppositeColorsb (bishop : ascii) (rank : string) : bool :=
  match filesOf bishop rank with
  | [b1; b2] => negb (Bool.eqb (Nat.even b1) (Nat.even b2))
  | _ => false
  end.

(** The four properties of a Chess960 start position, as a test. *)
Definition wellPlaced (fen : string) : bool :=
  kingBetweenRooksb "k" "r" (blackBackRank fen)
  && bishopsOnOppositeColorsb "b" (blackBackRank fen)
  && kingBetweenRooksb "K" "R" (whiteBackRank fen)
  && bishopsOnOppositeColorsb "B" (whiteBackRank fen).

End Chess960.

(** ** The rules engine

    The page and the board delegate every question about the rules of chess
    to chess.js, which is not part of the repository. This module is the
    rules engine the specification describes in its place (data model,
    move generator, game state, notation). *)

Module Rules.

Local Open Scope Z_scope.

Inductive Color : Type := White | Black.

Inductive PieceKind : Type := Pawn | Knight | Bishop | Rook | Queen | King.

Record Piece : Type := mkPiece { kind : PieceKind; color : Color }.

(** File and rank, both 0 to 7 on the board. *)
Record Square : Type := mkSquare { file : Z; rank : Z }.

#[global] Instance Color_eq_dec : EqDecision Color.
Proof. solve_decision. Defined.
#[global] Instance PieceKind_eq_dec : EqDecision PieceKind.
Proof. solve_decision. Defined.
#[global] Instance Piece_eq_dec : EqDecision Piece.
Proof. solve_decision. Defined.
#[global] Instance Square_eq_dec : EqDecision Square.
Proof. solve_decision. Defined.

Inductive FenField : Type :=
| PiecePlacement | SideToMove | Castling | EnPassant | Clocks.

Inductive Error : Type :=
| ParseError (field : FenField)
| OutOfBounds
| IllegalMove
| EngineUnavailable.

Definition Result (A : Type) : Type := (Error + A)%type.

#[global] Instance Result_bind : MBind Result :=
  fun A B f r => match r with inr a => f a | inl e => inl e end.

Definition opposite (c : Color) : Color :=
  match c with White => Black | Black => White end.

(** *** Board *)

(** Modelled from the spec: the Board of chess.js, a mapping from squares to
    optional pieces with 64 entries, here the list of the entries by
    [8 * rank + file]. *)
Definition Board : Type := list (option Piece).

Definition emptyBoard : Board := replicate 64%nat None.

Definition inBounds (s : Square) : bool :=
  (0 <=? file s)%Z && (file s <=? 7)%Z && (0 <=? rank s)%Z && (rank s <=? 7)%Z.

Definition index (s : Square) : nat := Z.to_nat (8 * rank s + file s).

Definition get (b : Board) (s : Square) : Result (option Piece) :=
  if inBounds s then
    inr (match b !! index s with Some o => o | None => None end)
  else inl OutOfBounds.

Definition set (b : Board) (s : Square) (p : option Piece) : Result Board :=
  if inBounds s then inr (<[index s := p]> b) else inl OutOfBounds.

Definition isOccupiedBy (b : Board) (s : Square) (c : Color) : Result bool :=
  match get b s with
  | inr (Some p) => inr (bool_decide (color p = c))
  | inr None => inr false
  | inl e => inl e
  end.

(** The accessors as the generator uses them, on squares it has checked to
    be on the board. *)
Definition pieceAt (b : Board) (s : Square) : option Piece :=
  match get b s with inr o => o | inl _ => None end.

Definition place (b : Board) (s : Square) (p : option Piece) : Board :=
  match set b s p with inr b' => b' | inl _ => b end.

Definition holds (b : Board) (s : Square) (k : PieceKind) (c : Color) : bool :=
  bool_decide (pieceAt b s = Some (mkPiece k c)).

Definition allSquares : list Square :=
  r ← seqZ 0 8; f ← seqZ 0 8; [mkSquare f r].

(** *** Game state and moves *)

Record CastlingRights : Type := mkRights {
  whiteKingside : bool; whiteQueenside : bool;
  blackKingside : bool; blackQueenside : bool
}.

#[global] Instance CastlingRights_eq_dec : EqDecision CastlingRights.
Proof. solve_decision. Defined.

(** What identifies a position for the repetition rule: placement, side to
    move, castling rights and en-passant target. *)
Definition PositionKey : Type :=
  (Board * Color * CastlingRights * option Square)%type.

Record GameState : Type := mkState {
  board : Board;
  castling : CastlingRights;
  enPassant : option Square;
  sideToMove : Color;
  halfmove : Z;
  fullmove : Z;
  history : list PositionKey
}.

Record Move : Type := mkMove {
  from : Square;
  to : Square;
  promotion : option PieceKind;
  isCapture : bool;
  isCastle : bool;
  isEnPassant : bool
}.

#[global] Instance Move_eq_dec : EqDecision Move.
Proof. solve_decision. Defined.

Definition positionKey (s : GameState) : PositionKey :=
  (board s, sideToMove s, castling s, enPassant s).

(** *** Move generator *)

Definition offset (s : Square) (d : Z * Z) : Square :=
  mkSquare (file s + fst d) (rank s + snd d).

(** The square [i] steps from [s] in direction [d]. *)
Definition shift (s : Square) (d : Z * Z) (i : Z) : Square :=
  mkSquare (file s + i * fst d) (rank s + i * snd d).

Definition quiet (a b : Square) : Move := mkMove a b None false false false.

Definition capture (a b : Square) : Move := mkMove a b None true false false.

Definition orthogonals : list (Z * Z) := [(1, 0); (-1, 0); (0, 1); (0, -1)]%Z.

Definition diagonals : list (Z * Z) := [(1, 1); (1, -1); (-1, 1); (-1, -1)]%Z.

Definition knightJumps : list (Z * Z) :=
  [(1, 2); (2, 1); (2, -1); (1, -2); (-1, -2); (-2, -1); (-2, 1); (-1, 2)]%Z.

Definition kingSteps : list (Z * Z) := orthogonals ++ diagonals.

(** A sliding piece stops at the first occupied square, and captures there
    if the occupant is an enemy. *)
Fixpoint slide (b : Board) (c : Color) (a cur : Square) (d : Z * Z) (fuel : nat)
  : list Move :=
  match fuel with
  | O => []
  | S fuel' =>
      let nxt := offset cur d in
      if inBounds nxt then
        match pieceAt b nxt with
        | None => quiet a nxt :: slide b c a nxt d fuel'
        | Some p => if bool_decide (color p = c) then [] else [capture a nxt]
        end
      else []
  end.

Definition slides (b : Board) (c : Color) (a : Square) (ds : list (Z * Z)) : list Move :=
  d ← ds; slide b c a a d 7%nat.

Definition step (b : Board) (c : Color) (a : Square) (d : Z * Z) : list Move :=
  let t := offset a d in
  if inBounds t then
    match pieceAt b t with
    | None => [quiet a t]
    | Some p => if bool_decide (color p = c) then [] else [capture a t]
    end
  else [].

Definition steps (b : Board) (c : Color) (a : Square) (ds : list (Z * Z)) : list Move :=
  d ← ds; step b c a d.

Definition forward (c : Color) : Z := match c with White => 1 | Black => -1 end.

Definition pawnRank (c : Color) : Z := match c with White => 1 | Black => 6 end.

Definition lastRank (c : Color) : Z := match c with White => 7 | Black => 0 end.

Definition homeRank (c : Color) : Z := match c with White => 0 | Black => 7 end.

(** A pawn move to [t] is a promotion, to each of the four kinds, when [t]
    is on the last rank. *)
Definition pawnTo (c : Color) (a t : Square) (cap : bool) : list Move :=
  if (rank t =? lastRank c)%Z then
    (fun k => mkMove a t (Some k) cap false false) <$> [Queen; Rook; Bishop; Knight]
  else [mkMove a t None cap false false].

Definition pawnAdvances (b : Board) (c : Color) (a : Square) : list Move :=
  let one := offset a (0, forward c)%Z in
  let two := offset a (0, 2 * forward c)%Z in
  if inBounds one && bool_decide (pieceAt b one = None) then
    pawnTo c a one false ++
    (if (rank a =? pawnRank c)%Z && inBounds two && bool_decide (pieceAt b two = None)
     then [quiet a two] else [])
  else [].

Definition pawnCapture (b : Board) (ep : option Square) (c : Color) (a : Square)
  (df : Z) : list Move :=
  let t := offset a (df, forward c) in
  if inBounds t then
    match pieceAt b t with
    | Some p => if bool_decide (color p = c) then [] else pawnTo c a t true
    | None =>
        if bool_decide (ep = Some t) then [mkMove a t None true false true] else []
    end
  else [].

Definition pawnMoves (b : Board) (ep : option Square) (c : Color) (a : Square)
  : list Move :=
  pawnAdvances b c a ++ pawnCapture b ep c a (-1) ++ pawnCapture b ep c a 1.

(** The first piece met from [cur] in direction [d]. *)
Fixpoint firstPiece (b : Board) (cur : Square) (d : Z * Z) (fuel : nat) : option Piece :=
  match fuel with
  | O => None
  | S fuel' =>
      let nxt := offset cur d in
      if inBounds nxt then
        match pieceAt b nxt with
        | None => firstPiece b nxt d fuel'
        | Some p => Some p
        end
      else None
  end.

(** Modelled from the spec: the attack predicate of chess.js, which checks
    the reach of every piece kind of [byColor]: knight jumps, king
    adjacency, pawn diagonals (by colour) and the sliding pieces. *)
Definition isSquareAttacked (b : Board) (s : Square) (byColor : Color) : bool :=
  existsb (fun d => holds b (offset s d) Knight byColor) knightJumps
  || existsb (fun d => holds b (offset s d) King byColor) kingSteps
  || existsb (fun df => holds b (offset s (df, - forward byColor)%Z) Pawn byColor)
       [-1; 1]%Z
  || existsb (fun d =>
        match firstPiece b s d 7%nat with
        | Some p => bool_decide (color p = byColor)
                    && (bool_decide (kind p = Rook) || bool_decide (kind p = Queen))
        | None => false
        end) orthogonals
  || existsb (fun d =>
        match firstPiece b s d 7%nat with
        | Some p => bool_decide (color p = byColor)
                    && (bool_decide (kind p = Bishop) || bool_decide (kind p = Queen))
        | None => false
        end) diagonals.

Definition kingsideRight (r : CastlingRights) (c : Color) : bool :=
  match c with White => whiteKingside r | Black => blackKingside r end.

Definition queensideRight (r : CastlingRights) (c : Color) : bool :=
  match c with White => whiteQueenside r | Black => blackQueenside r end.

(** Castling: the right is still there, king and rook stand on their
    squares, the squares between them are empty, and the king neither
    passes through nor lands on an attacked square. *)
Definition castlingMoves (b : Board) (r : CastlingRights) (c : Color) (a : Square)
  : list Move :=
  let h := homeRank c in
  let sq f := mkSquare f h in
  let free f := bool_decide (pieceAt b (sq f) = None) in
  let safe f := negb (isSquareAttacked b (sq f) (opposite c)) in
  if bool_decide (a = sq 4) then
    (if kingsideRight r c && holds b (sq 7) Rook c
        && free 5 && free 6 && safe 5 && safe 6
     then [mkMove a (sq 6) None false true false] else []) ++
    (if queensideRight r c && holds b (sq 0) Rook c
        && free 1 && free 2 && free 3 && safe 3 && safe 2
     then [mkMove a (sq 2) None false true false] else [])
  else [].

(** Modelled from the spec: the pseudo-legal moves of chess.js, the moves
    of the piece [p] on [a] by its movement rules alone. *)
Definition pseudoLegalMoves (s : GameState) (a : Square) (p : Piece) : list Move :=
  let b := board s in
  let c := color p in
  match kind p with
  | Pawn => pawnMoves b (enPassant s) c a
  | Knight => steps b c a knightJumps
  | Bishop => slides b c a diagonals
  | Rook => slides b c a orthogonals
  | Queen => slides b c a (orthogonals ++ diagonals)
  | King => steps b c a kingSteps ++ castlingMoves b (castling s) c a
  end.

(** Modelled from the spec: how chess.js carries a move out on the board.
    The piece (or what it promotes to) goes to its target, a pawn taken en
    passant leaves the board, and castling takes the rook along. *)
Definition applyToBoard (b : Board) (m : Move) : Board :=
  match pieceAt b (from m) with
  | None => b
  | Some p =>
      let placed :=
        match promotion m with
        | Some k => mkPiece k (color p)
        | None => p
        end in
      let b1 := place (place b (from m) None) (to m) (Some placed) in
      let b2 :=
        if isEnPassant m
        then place b1 (mkSquare (file (to m)) (rank (from m))) None
        else b1 in
      if isCastle m then
        let h := rank (from m) in
        if (file (to m) =? 6)%Z
        then place (place b2 (mkSquare 7 h) None) (mkSquare 5 h)
               (Some (mkPiece Rook (color p)))
        else place (place b2 (mkSquare 0 h) None) (mkSquare 3 h)
               (Some (mkPiece Rook (color p)))
      else b2
  end.

Definition kingSquare (b : Board) (c : Color) : option Square :=
  List.find (fun s => holds b s King c) allSquares.

(** Modelled from the spec: the check test of chess.js. The king of [c]
    is located and its square is attacked by the other side. *)
Definition inCheck (b : Board) (c : Color) : bool :=
  match kingSquare b c with
  | Some k => isSquareAttacked b k (opposite c)
  | None => false
  end.

(** Modelled from the spec: [moves({square})] of chess.js. The pseudo-legal
    moves of the piece of the side to move on [a], each applied to a
    scratch copy of the board and discarded if it leaves the mover's king
    attacked. *)
Definition generateLegalMoves (s : GameState) (a : Square) : list Move :=
  match pieceAt (board s) a with
  | Some p =>
      if bool_decide (color p = sideToMove s) then
        List.filter
          (fun m => negb (inCheck (applyToBoard (board s) m) (sideToMove s)))
          (pseudoLegalMoves s a p)
      else []
  | None => []
  end.

(** Modelled from the spec: [moves()] of chess.js, the legal moves of the
    side to move from every square. *)
Definition generateAllLegalMoves (s : GameState) : list Move :=
  a ← allSquares; generateLegalMoves s a.

(** *** Applying a move *)

Definition clearKingside (r : CastlingRights) (c : Color) : CastlingRights :=
  match c with
  | White => mkRights false (whiteQueenside r) (blackKingside r) (blackQueenside r)
  | Black => mkRights (whiteKingside r) (whiteQueenside r) false (blackQueenside r)
  end.

Definition clearQueenside (r : CastlingRights) (c : Color) : CastlingRights :=
  match c with
  | White => mkRights (whiteKingside r) false (blackKingside r) (blackQueenside r)
  | Black => mkRights (whiteKingside r) (whiteQueenside r) (blackKingside r) false
  end.

(** A rook leaving [a], or a capture on [a], revokes the right of [c] on
    that side when [a] is a rook's original square. *)
Definition clearRookSquare (r : CastlingRights) (c : Color) (a : Square) : CastlingRights :=
  if bool_decide (a = mkSquare 7 (homeRank c)) then clearKingside r c
  else if bool_decide (a = mkSquare 0 (homeRank c)) then clearQueenside r c
  else r.

Definition rightsAfter (r : CastlingRights) (p : Piece) (m : Move) : CastlingRights :=
  let c := color p in
  let r1 :=
    match kind p with
    | King => clearQueenside (clearKingside r c) c
    | Rook => clearRookSquare r c (from m)
    | _ => r
    end in
  if isCapture m then clearRookSquare r1 (opposite c) (to m) else r1.

(** The square a pawn passed over in a two-square advance. *)
Definition enPassantAfter (p : Piece) (m : Move) : option Square :=
  if bool_decide (kind p = Pawn)
     && (Z.abs (rank (to m) - rank (from m)) =? 2)
  then Some (mkSquare (file (from m)) ((rank (from m) + rank (to m)) / 2))
  else None.

Definition stateAfter (s : GameState) (p : Piece) (m : Move) : GameState :=
  let s' :=
    {| board := applyToBoard (board s) m;
       castling := rightsAfter (castling s) p m;
       enPassant := enPassantAfter p m;
       sideToMove := opposite (sideToMove s);
       halfmove := if bool_decide (kind p = Pawn) || isCapture m then 0
                   else halfmove s + 1;
       fullmove := match sideToMove s with
                   | Black => fullmove s + 1
                   | White => fullmove s
                   end;
       history := history s |} in
  {| board := board s'; castling := castling s'; enPassant := enPassant s';
     sideToMove := sideToMove s'; halfmove := halfmove s'; fullmove := fullmove s';
     history := history s ++ [positionKey s'] |}.

(** Modelled from the spec: [move] of chess.js on a move of the generator.
    A move that is not among the legal moves of its [from] square is
    rejected with [IllegalMove]. *)
Definition applyMove (s : GameState) (m : Move) : Result GameState :=
  if bool_decide (m ∈ generateLegalMoves s (from m)) then
    match pieceAt (board s) (from m) with
    | Some p => inr (stateAfter s p m)
    | None => inl IllegalMove
    end
  else inl IllegalMove.

(** *** Terminal-state queries *)

Definition isCheck (s : GameState) : bool := inCheck (board s) (sideToMove s).

Definition noLegalMoves (s : GameState) : bool :=
  match generateAllLegalMoves s with [] => true | _ :: _ => false end.

Definition isCheckmate (s : GameState) : bool := isCheck s && noLegalMoves s.

Definition isStalemate (s : GameState) : bool := negb (isCheck s) && noLegalMoves s.

Definition isDrawByFiftyMove (s : GameState) : bool := (100 <=? halfmove s).

#[global] Instance PositionKey_eq_dec : EqDecision PositionKey.
Proof. solve_decision. Defined.

Definition isDrawByRepetition (s : GameState) : bool :=
  (3 <=? length (List.filter (fun k => bool_decide (k = positionKey s)) (history s)))%nat.

(** *** The standard initial position *)

Definition backRankKinds : list PieceKind :=
  [Rook; Knight; Bishop; Queen; King; Bishop; Knight; Rook].

Definition initialBoard : Board :=
  ((fun k => Some (mkPiece k White)) <$> backRankKinds)
  ++ replicate 8%nat (Some (mkPiece Pawn White))
  ++ replicate 32%nat None
  ++ replicate 8%nat (Some (mkPiece Pawn Black))
  ++ ((fun k => Some (mkPiece k Black)) <$> backRankKinds).

Definition created (b : Board) (r : CastlingRights) (ep : option Square)
  (c : Color) (h f : Z) : GameState :=
  {| board := b; castling := r; enPassant := ep; sideToMove := c;
     halfmove := h; fullmove := f; history := [(b, c, r, ep)] |}.

Definition initialState : GameState :=
  created initialBoard (mkRights true true true true) None White 0 1.

End Rules.

(** ** Notation: FEN, square labels, SAN *)

Module Notation.

Import Rules.

Local Open Scope Z_scope.

Definition letterOf (k : PieceKind) : ascii :=
  match k with
  | Pawn => "P" | Knight => "N" | Bishop => "B"
  | Rook => "R" | Queen => "Q" | King => "K"
  end%char.

Definition kindOfLetter (c : ascii) : option PieceKind :=
  match c with
  | "P" => Some Pawn | "N" => Some Knight | "B" => Some Bishop
  | "R" => Some Rook | "Q" => Some Queen | "K" => Some King
  | _ => None
  end%char.

Definition lower_ascii (c : ascii) : ascii :=
  let n := nat_of_ascii c in
  if (65 <=? n)%nat && (n <=? 90)%nat then ascii_of_nat (n + 32) else c.

(** Uppercase letters are White's pieces, lowercase letters Black's. *)
Definition pieceChar (p : Piece) : ascii :=
  match color p with
  | White => letterOf (kind p)
  | Black => lower_ascii (letterOf (kind p))
  end.

Definition pieceOfChar (c : ascii) : option Piece :=
  match kindOfLetter c with
  | Some k => Some (mkPiece k White)
  | None =>
      match kindOfLetter (JS.upper_ascii c) with
      | Some k => Some (mkPiece k Black)
      | None => None
      end
  end.

Definition fileChar (f : Z) : ascii := ascii_of_nat (97 + Z.to_nat f).

Definition rankChar (r : Z) : ascii := ascii_of_nat (49 + Z.to_nat r).

(** The algebraic label of a square, such as e4. *)
Definition label (s : Square) : string :=
  String (fileChar (file s)) (String (rankChar (rank s)) EmptyString).

Definition parseSquare (l : string) : option Square :=
  match l with
  | String f (String r EmptyString) =>
      let s := mkSquare (Z.of_nat (nat_of_ascii f) - 97) (Z.of_nat (nat_of_ascii r) - 49) in
      if inBounds s then Some s else None
  | _ => None
  end.

(** *** Reading a FEN string *)

(** One rank of the placement field: letters are pieces, a digit 1 to 8 is
    that many empty squares. *)
Fixpoint parseRank (r : string) : option (list (option Piece)) :=
  match r with
  | EmptyString => Some []
  | String c r' =>
      rest ← parseRank r';
      match pieceOfChar c with
      | Some p => Some (Some p :: rest)
      | None =>
          let n := nat_of_ascii c in
          if (49 <=? n)%nat && (n <=? 56)%nat
          then Some (replicate (n - 48) None ++ rest)
          else None
      end
  end.

Definition parseRank8 (r : string) : option (list (option Piece)) :=
  sqs ← parseRank r;
  if (length sqs =? 8)%nat then Some sqs else None.

Definition countPiece (b : Board) (p : Piece) : nat :=
  length (List.filter (fun o => bool_decide (o = Some p)) b).

(** Eight ranks, rank 8 first, and exactly one king of each colour. *)
Definition parsePlacement (f : string) : option Board :=
  rs ← mapM parseRank8 (JS.split "/" f);
  if (length rs =? 8)%nat then
    let b := concat (reverse rs) in
    if (countPiece b (mkPiece King White) =? 1)%nat
       && (countPiece b (mkPiece King Black) =? 1)%nat
    then Some b else None
  else None.

Definition parseSide (f : string) : option Color :=
  if String.eqb f "w" then Some White
  else if String.eqb f "b" then Some Black
  else None.

(** The castling letters present, in the order KQkq. *)
Definition showRights (r : CastlingRights) : string :=
  let s := (if whiteKingside r then "K" else "") +:+ (if whiteQueenside r then "Q" else "")
           +:+ (if blackKingside r then "k" else "") +:+ (if blackQueenside r then "q" else "") in
  if String.eqb s "" then "-" else s.

Definition hasChar (c : ascii) (s : string) : bool :=
  existsb (Ascii.eqb c) (list_ascii_of_string s).

(** A subset of KQkq in that order, or a dash. *)
Definition parseRights (f : string) : option CastlingRights :=
  let r := mkRights (hasChar "K" f) (hasChar "Q" f) (hasChar "k" f) (hasChar "q" f) in
  if String.eqb (showRights r) f then Some r else None.

Definition parseEnPassant (f : string) : option (option Square) :=
  if String.eqb f "-" then Some None
  else match parseSquare f with
       | Some s => Some (Some s)
       | None => None
       end.

Definition parseClock (f : string) : option Z :=
  if negb (String.eqb f "") && forallb JS.isDigit (list_ascii_of_string f)
  then Some (JS.parseDigits f) else None.

Definition field (e : FenField) {A} (o : option A) : Result A :=
  match o with Some a => inr a | None => inl (ParseError e) end.

(** Modelled from the spec: FEN loading of chess.js. Six fields separated
    by spaces; the error names the first field that is invalid (a missing
    field counts as invalid, a seventh field as an invalid clock). *)
Definition parseFEN (fen : string) : Result GameState :=
  let fs := JS.split " " fen in
  b ← field PiecePlacement (fs !! 0%nat ≫= parsePlacement);
  c ← field SideToMove (fs !! 1%nat ≫= parseSide);
  r ← field Castling (fs !! 2%nat ≫= parseRights);
  ep ← field EnPassant (fs !! 3%nat ≫= parseEnPassant);
  h ← field Clocks (fs !! 4%nat ≫= parseClock);
  f ← field Clocks (fs !! 5%nat ≫= parseClock);
  if (length fs =? 6)%nat then inr (created b r ep c h f)
  else inl (ParseError Clocks).

(** *** Writing a FEN string *)

(** A rank with [run] empty squares pending before the squares [sqs]. *)
Fixpoint showRank (run : nat) (sqs : list (option Piece)) : string :=
  let flush := match run with
               | O => EmptyString
               | S _ => JS.show (Z.of_nat run)
               end in
  match sqs with
  | [] => flush
  | None :: sqs' => showRank (S run) sqs'
  | Some p :: sqs' => flush +:+ String (pieceChar p) (showRank 0 sqs')
  end.

Definition rankSquares (b : Board) (r : nat) : list (option Piece) :=
  take 8 (drop (8 * r) b).

Definition showPlacement (b : Board) : string :=
  String.concat "/" ((fun r => showRank 0 (rankSquares b r)) <$> [7; 6; 5; 4; 3; 2; 1; 0]%nat).

Definition showSide (c : Color) : string :=
  match c with White => "w" | Black => "b" end.

Definition showEnPassant (ep : option Square) : string :=
  match ep with Some s => label s | None => "-" end.

(** Modelled from the spec: [fen()] of chess.js. *)
Definition toFEN (s : GameState) : string :=
  String.concat " "
    [showPlacement (board s); showSide (sideToMove s); showRights (castling s);
     showEnPassant (enPassant s); JS.show (halfmove s); JS.show (fullmove s)].

(** *** Standard algebraic notation *)

Definition char (c : ascii) : string := String c EmptyString.

(** The file, the rank or both of the origin, when another piece of the
    same kind can also reach the target. *)
Definition disambiguation (s : GameState) (p : Piece) (m : Move) : string :=
  let others :=
    List.filter
      (fun m' => bool_decide (to m' = to m) && negb (bool_decide (from m' = from m))
                 && bool_decide (pieceAt (board s) (from m') = Some p))
      (generateAllLegalMoves s) in
  match others with
  | [] => EmptyString
  | _ :: _ =>
      if negb (existsb (fun m' => (file (from m') =? file (from m))) others)
      then char (fileChar (file (from m)))
      else if negb (existsb (fun m' => (rank (from m') =? rank (from m))) others)
      then char (rankChar (rank (from m)))
      else label (from m)
  end.

(** A plus sign when the move gives check, a hash sign when it mates. *)
Definition checkSuffix (s : GameState) (m : Move) : string :=
  match applyMove s m with
  | inr s' => if isCheckmate s' then "#" else if isCheck s' then "+" else ""
  | inl _ => ""
  end.

(** Modelled from the spec: the [san] field of a chess.js move. *)
Definition moveToSAN (s : GameState) (m : Move) : string :=
  let body :=
    if isCastle m then (if (file (to m) =? 6) then "O-O" else "O-O-O")
    else
      match pieceAt (board s) (from m) with
      | None => label (from m) +:+ label (to m)
      | Some p =>
          match kind p with
          | Pawn =>
              (if isCapture m then char (fileChar (file (from m))) +:+ "x" else "")
              +:+ label (to m)
              +:+ match promotion m with
                  | Some k => "=" +:+ char (letterOf k)
                  | None => ""
                  end
          | k =>
              char (letterOf k) +:+ disambiguation s p m
              +:+ (if isCapture m then "x" else "") +:+ label (to m)
          end
      end in
  body +:+ checkSuffix s m.

End Notation.

(** ** The interface to chess.js *)

Module Lib.

(** [piece.color]. *)
Inductive PieceColor : Type := w | b.

(** What [get] returns for an occupied square. *)
Record PieceInfo : Type := mkPieceInfo { type : string; color : PieceColor }.

(** The fields of a chess.js move object that the sources read. *)
Record MoveInfo : Type := mkMoveInfo { from : string; to : string; san : string }.

(** The argument of [move]: an object [{ from, to, promotion }] or a
    string. *)
Inductive MoveArg : Type :=
| MoveObject (from to promotion : string)
| MoveString (move : string).

(** The operations of a [Chess] object that the page and the board call.
    [move] mutates the object: here it returns the object after the move.
    A move that is not made is [None]; [raises] tells how the library then
    ends the call: by throwing an error ([true], as chess.js does for an
    input that is no legal move) or by returning a falsy value ([false]).
    An error of the constructor shows in the same way at the call of
    [move] that follows it in the sources. *)
Class ChessJS : Type := {
  Chess : Type;
  newChess : string -> Chess;
  fen : Chess -> string;
  get : Chess -> string -> option PieceInfo;
  moves : Chess -> string -> list MoveInfo;
  move : Chess -> MoveArg -> option (Chess * MoveInfo);
  raises : Chess -> MoveArg -> bool
}.

End Lib.

(** ** The rules engine as an implementation of the interface *)

Module RulesLib.

Import Rules Notation.

(** A [Chess] object, or the error its constructor raised. *)
Definition Chess : Type := Result GameState.

Definition state (g : Chess) : option GameState :=
  match g with inr s => Some s | inl _ => None end.

Definition info (s : GameState) (m : Move) : Lib.MoveInfo :=
  {| Lib.from := label (from m); Lib.to := label (to m); Lib.san := moveToSAN s m |}.

Definition fen (g : Chess) : string :=
  match g with inr s => toFEN s | inl _ => EmptyString end.

Definition get (g : Chess) (square : string) : option Lib.PieceInfo :=
  s ← state g;
  a ← parseSquare square;
  p ← pieceAt (board s) a;
  Some {| Lib.type := char (lower_ascii (letterOf (kind p)));
          Lib.color := match color p with White => Lib.w | Black => Lib.b end |}.

Definition moves (g : Chess) (square : string) : list Lib.MoveInfo :=
  match state g, parseSquare square with
  | Some s, Some a => info s <$> generateLegalMoves s a
  | _, _ => []
  end.

(** The promotion letter of a move input, q for a queen. *)
Definition promotionKind (p : string) : option PieceKind :=
  match p with
  | String c EmptyString =>
      match kindOfLetter (JS.upper_ascii c) with
      | Some Pawn | Some King | None => None
      | Some k => Some k
      end
  | _ => None
  end.

(** The legal move named by origin, target and promotion letter: the letter
    is ignored by a move that does not promote. *)
Definition findMove (s : GameState) (f t p : string) : option Move :=
  a ← parseSquare f;
  b ← parseSquare t;
  List.find
    (fun m => bool_decide (to m = b)
              && (bool_decide (promotion m = None)
                  || bool_decide (promotion m = promotionKind p)))
    (generateLegalMoves s a).

(** Modelled from the spec: move input of chess.js, a SAN string or a
    coordinate pair with an optional promotion letter. *)
Definition resolve (s : GameState) (arg : Lib.MoveArg) : option Move :=
  match arg with
  | Lib.MoveObject f t p => findMove s f t p
  | Lib.MoveString str =>
      match List.find (fun m => String.eqb (moveToSAN s m) str) (generateAllLegalMoves s) with
      | Some m => Some m
      | None =>
          if (String.length str =? 4)%nat || (String.length str =? 5)%nat
          then findMove s (substring 0 2 str) (substring 2 2 str) (substring 4 1 str)
          else None
      end
  end.

Definition move (g : Chess) (arg : Lib.MoveArg) : option (Chess * Lib.MoveInfo) :=
  s ← state g;
  m ← resolve s arg;
  match applyMove s m with
  | inr s' => Some (inr s', info s m)
  | inl _ => None
  end.

(** Modelled from the spec: ambiguous or illegal input fails with
    [IllegalMove] or [ParseError], it is never answered with a value. *)
Definition raises (g : Chess) (arg : Lib.MoveArg) : bool :=
  match move g arg with
  | Some _ => false
  | None => true
  end.

#[global] Instance rulesLib : Lib.ChessJS :=
  {| Lib.Chess := Chess; Lib.newChess := parseFEN; Lib.fen := fen;
     Lib.get := get; Lib.moves := moves; Lib.move := move; Lib.raises := raises |}.

End RulesLib.

(** ** The page component *)

Module App.

Inductive GameStatus : Type :=
| playing | checkmate | draw | stalemate | timeout | resigned.

Inductive Orientation : Type := white | black.

#[global] Instance GameStatus_eq_dec : EqDecision GameStatus.
Proof. solve_decision. Defined.

Section Page.

Context {L : Lib.ChessJS}.

(** The React state of [ChessApp] that the move handlers read and write. *)
Record State : Type := mkState {
  game : Lib.Chess;
  orientation : Orientation;
  gameStatus : GameStatus;
  lastMove : option (string * string);
  moveList : list string;
  botThinking : bool;
  clockRunning : bool
}.

(** [promotion || 'q']: an omitted or empty promotion becomes ['q']. *)
Definition promotionOrQueen (promotion : option string) : string :=
  match promotion with
  | Some p => if JS.truthy p then p else "q"
  | None => "q"
  end.

(** How a call of [handleMove] ends: it returns a boolean, or an error
    thrown by the library leaves it, there being no [try] around the call
    of [move]. *)
Inductive Outcome : Type :=
| Returned (value : bool)
| Raised.

(** The boolean a call returned; a call that an error left returned
    none. *)
Definition returned (o : Outcome) : bool :=
  match o with
  | Returned value => value
  | Raised => false
  end.

(** Returns the state after the call and how the call ended. When the
    library throws, no setter has been called yet. *)
Definition handleMove (st : State) (from to : string) (promotion : option string)
  : State * Outcome :=
  if negb (bool_decide (gameStatus st = playing)) then (st, Returned false)
  else
    let newGame := Lib.newChess (Lib.fen (game st)) in
    let input := Lib.MoveObject from to (promotionOrQueen promotion) in
    match Lib.move newGame input with
    | None => (st, if Lib.raises newGame input then Raised else Returned false)
    | Some (newGame, move) =>
        ({| game := newGame;
            orientation := orientation st;
            gameStatus := gameStatus st;
            lastMove := Some (from, to);
            moveList := moveList st ++ [Lib.san move];
            botThinking := botThinking st;
            clockRunning := true |}, Returned true)
    end.

Definition set_botThinking (v : bool) (st : State) : State :=
  {| game := game st; orientation := orientation st; gameStatus := gameStatus st;
     lastMove := lastMove st; moveList := moveList st; botThinking := v;
     clockRunning := clockRunning st |}.

(** The [try] block ends without a change of state both when [move]
    returns a falsy value and when the library throws, which [catch]
    takes: both are [None]. *)
Definition handleBotMove (st : State) (move : string) : State :=
  if negb (JS.truthy move) then set_botThinking false st
  else
    let newGame := Lib.newChess (Lib.fen (game st)) in
    let st' :=
      match Lib.move newGame (Lib.MoveString move) with
      | Some (newGame, moveResult) =>
          {| game := newGame;
             orientation := orientation st;
             gameStatus := gameStatus st;
             lastMove := Some (substring 0 2 move, substring 2 2 move);
             moveList := moveList st ++ [Lib.san moveResult];
             botThinking := botThinking st;
             clockRunning := clockRunning st |}
      | None => st
      end in
    set_botThinking false st'.

End Page.

End App.

(** ** The board component *)

Module ChessBoard.

Section Component.

Context {L : Lib.ChessJS}.

(** The state of whoever owns the callback [onMove]. *)
Context {P : Type}.

Record Props : Type := mkProps {
  position : string;
  orientation : App.Orientation;
  onMove : string -> string -> option string -> St.M P bool
}.

(** The state of the component, the state of the parent, and the calls of
    [onMove] made so far (from, to, promotion). *)
Record World : Type := mkWorld {
  selectedSquare : option string;
  possibleMoves : list string;
  parent : P;
  submitted : list (string * string * option string)
}.

Local Open Scope st_scope.

(** [const game = new Chess(position)]. *)
Definition game (props : Props) : Lib.Chess := Lib.newChess (position props).

Definition getPiece (props : Props) (square : string) : option Lib.PieceInfo :=
  Lib.get (game props) square.

Definition getLegalMoves (props : Props) (square : string) : list string :=
  Lib.to <$> Lib.moves (game props) square.

Definition setSelection (sel : option string) (targets : list string) : St.M World unit :=
  St.modify (fun wd =>
    {| selectedSquare := sel; possibleMoves := targets;
       parent := parent wd; submitted := submitted wd |}).

(** [onMove(from, to, promotion)]: runs the callback on the parent. *)
Definition callOnMove (props : Props) (from to : string) (promotion : option string)
  : St.M World bool :=
  fun wd =>
    let (success, parent') := onMove props from to promotion (parent wd) in
    (success,
     {| selectedSquare := selectedSquare wd; possibleMoves := possibleMoves wd;
        parent := parent';
        submitted := submitted wd ++ [(from, to, promotion)] |}).

Definition isMyPiece (o : App.Orientation) (piece : Lib.PieceInfo) : bool :=
  match o, Lib.color piece with
  | App.white, Lib.w => true
  | App.black, Lib.b => true
  | _, _ => false
  end.

(** The part of [handleSquareClick] after the attempt to move. *)
Definition selectOrDeselect (props : Props) (square : string) : St.M World unit :=
  match getPiece props square with
  | Some piece =>
      if isMyPiece (orientation props) piece
      then setSelection (Some square) (getLegalMoves props square)
      else setSelection None []
  | None => setSelection None []
  end.

Definition handleSquareClick (props : Props) (square : string) : St.M World unit :=
  sel <- St.gets selectedSquare;;
  match sel with
  | Some selected =>
      if JS.truthy selected && JS.includes (getLegalMoves props selected) square then
        success <- callOnMove props selected square (Some "q"%string);;
        if success then setSelection None []
        else selectOrDeselect props square
      else selectOrDeselect props square
  | None => selectOrDeselect props square
  end.

(** The calls of [onMove] a computation makes. *)
Definition submittedBy {A} (m : St.M World A) (wd : World)
  : list (string * string * option string) :=
  drop (length (submitted wd)) (submitted (St.exec m wd)).

End Component.

End ChessBoard.

(** ** The static evaluation in the words of the specification *)

Module Spec.

Import Rules.

(** Pawn 1, Knight 3, Bishop 3.25, Rook 5, Queen 9, King 0. *)
Definition pieceValue (k : PieceKind) : Q :=
  match k with
  | Pawn => 1 | Knight => 3 | Bishop => 3.25
  | Rook => 5 | Queen => 9 | King => 0
  end%Q.

(** Positive favours White. *)
Definition colorWeight (c : Color) : Q :=
  match c with White => 1 | Black => -1 end%Q.

(** The pieces a placement field names, in the order of the field. *)
Definition piecesOf (placement : string) : list Piece :=
  omap Notation.pieceOfChar (list_ascii_of_string placement).

(** The signed sum of the piece values. *)
Definition staticEvaluation (ps : list Piece) : Q :=
  fold_right (fun p sum => colorWeight (color p) * pieceValue (kind p) + sum)%Q 0%Q ps.

(** The piece placement field of a FEN string: the text before its first
    space, all of it when it has none. *)
Fixpoint placementField (fen : string) : string :=
  match fen with
  | EmptyString => EmptyString
  | String c rest =>
      if Ascii.eqb c " " then EmptyString else String c (placementField rest)
  end.

(** How often the character [c] occurs in [s]. *)
Definition occurrences (c : ascii) (s : string) : Z :=
  Z.of_nat (length (List.filter (Ascii.eqb c) (list_ascii_of_string s))).

(** Every [position fen] command in [cmds] comes after a [stop] command. *)
Definition stopBeforePosition (cmds : list string) : Prop :=
  forall (pre : list string) (c : string) (post : list string),
    cmds = pre ++ c :: post ->
    JS.startsWith c "position fen " = true ->
    "stop"%string ∈ pre.

(** What neither a message of the worker nor a method call undoes: the
    timers set stay set, the promises created stay, and a promise that is
    settled stays settled. *)
Definition extends (h h' : Engine.Host) : Prop :=
  (forall t, t ∈ Engine.timers h -> t ∈ Engine.timers h')
  /\ (length (Engine.promises h) <= length (Engine.promises h'))%nat
  /\ forall q : nat,
       (q < length (Engine.promises h))%nat ->
       Engine.promises h' !! q = Some Engine.Pending ->
       Engine.promises h !! q = Some Engine.Pending.

(** The promise [p] exists, and while it is pending the timer that
    resolves it with [null] after 10 seconds is set. *)
Definition timeoutArmed (p : nat) (h : Engine.Host) : Prop :=
  (p < length (Engine.promises h))%nat
  /\ (Engine.promises h !! p = Some Engine.Pending ->
      (10000%Z, Engine.ResolveNull p) ∈ Engine.timers h).

(** A best-move callback was called with a move: not the empty string and
    not [(none)]. *)
Definition carriesMove (c : Engine.Call) : Prop :=
  match c with
  | Engine.BestMoveCall move => move <> EmptyString /\ move <> "(none)"%string
  | Engine.AnalysisCall _ _ => True
  end.

(** From [h] to [h'] the callbacks invoked all satisfy [P]. *)
Definition logsOnly (P : Engine.Call -> Prop) (h h' : Engine.Host) : Prop :=
  exists new : list Engine.Call,
    Engine.calls h' = Engine.calls h ++ new /\ Forall P new.

(** The callbacks a computation invokes, given the host it starts from. *)
Definition callsBy {A} (m : Engine.Eff A) (h : Engine.Host) : list Engine.Call :=
  drop (length (Engine.calls h)) (Engine.calls (St.exec m h)).

(** The calls of [onMove] a computation of the page's engine makes. *)
Definition onMoveCallsBy {A} (m : PageEngine.Eff A) (h : PageEngine.Host)
  : list (nat * string) :=
  drop (length (PageEngine.onMoveCalls h)) (PageEngine.onMoveCalls (St.exec m h)).

End Spec.

(** ** Sample inputs *)

Module Samples.

Definition startFEN : string :=
  "rnbqkbnr/pppppppp/8/8/8/8/PPPPPPPP/RNBQKBNR w KQkq - 0 1".

(** An engine whose worker could not be created, with an analysis callback
    registered. *)
Definition unavailableEngine : Engine.Host :=
  {| Engine.engine := Engine.set_onAnalysis (Some 0%nat) Engine.initialEngine;
     Engine.promises := []; Engine.timers := []; Engine.calls := [] |}.

(** An engine whose worker is there and has been sent nothing yet. *)
Definition loadedEngine : Engine.Host :=
  {| Engine.engine :=
       Engine.set_worker (Some []) (Engine.set_onAnalysis (Some 0%nat) Engine.initialEngine);
     Engine.promises := []; Engine.timers := []; Engine.calls := [] |}.

Definition loadedPageEngine : PageEngine.Host :=
  {| PageEngine.engine :=
       {| PageEngine.worker := Some []; PageEngine.ready := true;
          PageEngine.messageHandler := PageEngine.NoHandler |};
     PageEngine.onMoveCalls := [] |}.

(** Five values of [Math.random()]. *)
Definition draws (k : nat) : Q :=
  match k with
  | 0%nat => 0.3 | 1%nat => 0.6 | 2%nat => 0.5 | 3%nat => 0.1 | _ => 0.9
  end%Q.

(** 1. e4, as the generator produces it. *)
Definition e2e4 : Rules.Move :=
  Rules.quiet (Rules.mkSquare 4 1) (Rules.mkSquare 4 3).

(** The page at the start of a game against the rules engine. *)
Definition newGame : @App.State RulesLib.rulesLib :=
  {| App.game := inr Rules.initialState; App.orientation := App.white;
     App.gameStatus := App.playing; App.lastMove := None; App.moveList := [];
     App.botThinking := false; App.clockRunning := false |}.

(** The board as the page renders it for [newGame]. The board submits
    targets of the list of legal moves only, for which [handleMove] returns
    a boolean. *)
Definition boardProps : @ChessBoard.Props (@App.State RulesLib.rulesLib) :=
  {| ChessBoard.position := Lib.fen (App.game newGame);
     ChessBoard.orientation := App.orientation newGame;
     ChessBoard.onMove := fun from to promotion st =>
       let r := App.handleMove st from to promotion in (App.returned r.2, r.1) |}.

Definition nothingSelected : @ChessBoard.World (@App.State RulesLib.rulesLib) :=
  {| ChessBoard.selectedSquare := None; ChessBoard.possibleMoves := [];
     ChessBoard.parent := newGame; ChessBoard.submitted := [] |}.

End Samples.


(** * More of the code

    What follows models the parts of the three files that the definitions
    above do not reach, and the notions their properties are stated with. *)

From Stdlib Require DecimalZ.

(** ** Notions for the properties of the two engine classes *)

Module Obs.

(** [rest] does not go on with a digit. *)
Definition endsNumber (rest : string) : Prop :=
  match rest with
  | EmptyString => True
  | String c _ => JS.isDigit c = false
  end.

(** A promise that is settled keeps its value. *)
Definition keepsSettled (h h' : Engine.Host) : Prop :=
  forall (p : nat) (v : option string),
    Engine.promises h !! p = Some (Engine.Resolved v) ->
    Engine.promises h' !! p = Some (Engine.Resolved v).

(** The worker reference is [null]. *)
Definition destroyed (h : Engine.Host) : Prop :=
  Engine.worker (Engine.engine h) = None.

(** What a message of the worker cannot touch: the messages posted, the
    timers, the registered analysis callback, the [ready] flag and the
    number of promises. *)
Definition sameOutside (h h' : Engine.Host) : Prop :=
  Engine.worker (Engine.engine h') = Engine.worker (Engine.engine h)
  /\ Engine.timers h' = Engine.timers h
  /\ Engine.onAnalysis (Engine.engine h') = Engine.onAnalysis (Engine.engine h)
  /\ Engine.ready (Engine.engine h') = Engine.ready (Engine.engine h)
  /\ length (Engine.promises h') = length (Engine.promises h).

(** The analysis result [handleMessage] builds from an info line whose
    depth group is [d]. *)
Definition reported (msg d : string) : Engine.AnalysisResult :=
  {| Engine.depth := Engine.parseInt d;
     Engine.score :=
       option_map (fun s => inject_Z (Engine.parseInt s) / 100)%Q
         (Engine.search "score cp " Engine.signedDigits msg);
     Engine.mate :=
       option_map Engine.parseInt
         (Engine.search "score mate " Engine.signedDigits msg);
     Engine.bestMove :=
       option_map (fun p => Engine.first (JS.split " " p))
         (Engine.search " pv " Engine.restOfLine msg);
     Engine.pv :=
       match Engine.search " pv " Engine.restOfLine msg with
       | Some p => p
       | None => EmptyString
       end |}.

End Obs.

(** ** The page's engine over time *)

Module PageLoop.

(** What happens to the page's engine: the worker posts a message, or the
    page calls [start]. *)
Inductive Event : Type :=
| Received (msg : string)
| Started (fen : string) (depth skillLevel : Z) (onMove : nat).

Definition dispatch (ev : Event) : PageEngine.Eff unit :=
  match ev with
  | Received msg => PageEngine.onmessage msg
  | Started fen depth skillLevel onMove => PageEngine.start fen depth skillLevel onMove
  end.

Fixpoint run (evs : list Event) (h : PageEngine.Host) : PageEngine.Host :=
  match evs with
  | [] => h
  | ev :: evs' => run evs' (St.exec (dispatch ev) h)
  end.

(** The calls of [onMove] made between [h] and [h']. *)
Definition callsSince (h h' : PageEngine.Host) : list (nat * string) :=
  drop (length (PageEngine.onMoveCalls h)) (PageEngine.onMoveCalls h').

(** The engine can take a request: the worker is there and has answered
    [uciok]. *)
Definition usable (h : PageEngine.Host) : Prop :=
  is_Some (PageEngine.worker (PageEngine.engine h))
  /\ PageEngine.ready (PageEngine.engine h) = true.

End PageLoop.

(** ** More of the page component *)

Module Page.

(** A bot of the table [BOTS]. *)
Record Bot : Type := mkBot {
  id : string; name : string; rating : Z; avatar : string; desc : string; skill : Z
}.

(** The table [BOTS]; avatars and the two descriptions that are not ASCII
    are left empty, no function reads them. *)
Definition BOTS : list Bot :=
  [ mkBot "beginner" "Rookie" 800 "" "Just learning" 0;
    mkBot "intermediate" "Club Player" 1400 "" "Solid player" 5;
    mkBot "advanced" "Master" 2000 "" "Tournament ready" 10;
    mkBot "expert" "Grandmaster" 2600 "" "" 15;
    mkBot "stockfish" "Stockfish" 3200 "" "" 20 ]%Z.

(** [Math.max(a, b)]. *)
Definition mathMax (a b : Q) : Q := if Qle_bool a b then b else a.

(** [Math.floor(Math.max(10, 20 - bot.skill * 0.3))], the depth the bot
    effect passes to [start]. *)
Definition botDepth (skill : Z) : Z :=
  Qfloor (mathMax 10 (20 - inject_Z skill * 0.3)).

(** [moves[Math.floor(Math.random() * moves.length)]] for the value [r] of
    [Math.random()]; [None] is [undefined]. *)
Definition pickMove (moves : list string) (r : Q) : option string :=
  Chess960.at_ moves (Chess960.randomIndex r (length moves)).

(** [findFallbackMove], given the list [game.moves()] of the legal moves in
    SAN and the value [r] of its one call of [Math.random()]. *)
Definition findFallbackMove (moves : list string) (r : Q) : option string :=
  match moves with
  | [] => Some EmptyString
  | _ :: _ =>
      let captures := List.filter (fun m => Engine.contains m "x") moves in
      match captures with
      | _ :: _ => pickMove captures r
      | [] => pickMove moves r
      end
  end.

(** [s.padStart(2, '0')]. *)
Definition padStart2 (s : string) : string :=
  match String.length s with
  | 0%nat => "00" +:+ s
  | 1%nat => "0" +:+ s
  | _ => s
  end.

(** [fmt]: minutes and seconds of a clock. [Math.floor(s / 60)] is the
    floor of the quotient and [s % 60] has the sign of [s]. *)
Definition fmt (s : Z) : string :=
  JS.show (s / 60) +:+ ":" +:+ padStart2 (JS.show (Z.rem s 60)).

(** The FEN chess.js loads when its constructor gets no argument. *)
Definition DEFAULT_POSITION : string :=
  "rnbqkbnr/pppppppp/8/8/8/8/PPPPPPPP/RNBQKBNR w KQkq - 0 1".

Section View.

Context {L : Lib.ChessJS}.

(** The React state of [ChessApp] (without [user]): the part the move
    handlers use, [app], and the rest. *)
Record View : Type := mkView {
  app : App.State;
  vsBot : bool;
  bot : Bot;
  timeControl : Z;
  whiteTime : Z;
  blackTime : Z;
  analysisScore : option Q;
  showBots : bool;
  showSettings : bool;
  variant : string;
  showResignMenu : bool
}.

Definition set_app (f : App.State -> App.State) (v : View) : View :=
  {| app := f (app v); vsBot := vsBot v; bot := bot v; timeControl := timeControl v;
     whiteTime := whiteTime v; blackTime := blackTime v;
     analysisScore := analysisScore v; showBots := showBots v;
     showSettings := showSettings v; variant := variant v;
     showResignMenu := showResignMenu v |}.

Definition set_status (s : App.GameStatus) (running : bool) (a : App.State) : App.State :=
  {| App.game := App.game a; App.orientation := App.orientation a;
     App.gameStatus := s; App.lastMove := App.lastMove a;
     App.moveList := App.moveList a; App.botThinking := App.botThinking a;
     App.clockRunning := running |}.

Definition set_whiteTime (t : Z) (v : View) : View :=
  {| app := app v; vsBot := vsBot v; bot := bot v; timeControl := timeControl v;
     whiteTime := t; blackTime := blackTime v;
     analysisScore := analysisScore v; showBots := showBots v;
     showSettings := showSettings v; variant := variant v;
     showResignMenu := showResignMenu v |}.

Definition set_blackTime (t : Z) (v : View) : View :=
  {| app := app v; vsBot := vsBot v; bot := bot v; timeControl := timeControl v;
     whiteTime := whiteTime v; blackTime := t;
     analysisScore := analysisScore v; showBots := showBots v;
     showSettings := showSettings v; variant := variant v;
     showResignMenu := showResignMenu v |}.

(** The clock is ticking: the clock effect has an interval running. *)
Definition ticking (v : View) : bool :=
  App.clockRunning (app v) && bool_decide (App.gameStatus (app v) = App.playing).

(** One run of the interval callback of the clock effect, [turn] being
    [game.turn()]. The effect sets the interval up only while the clock
    runs and the status is [playing]. *)
Definition tick (turn : Lib.PieceColor) (v : View) : View :=
  if ticking v then
    match turn with
    | Lib.w =>
        if (whiteTime v <=? 0)%Z
        then set_whiteTime 0 (set_app (set_status App.timeout false) v)
        else set_whiteTime (whiteTime v - 1) v
    | Lib.b =>
        if (blackTime v <=? 0)%Z
        then set_blackTime 0 (set_app (set_status App.timeout false) v)
        else set_blackTime (blackTime v - 1) v
    end
  else v.

(** [handleMove] as a transition of the whole state. *)
Definition move (from to : string) (promotion : option string) (v : View) : View :=
  set_app (fun a => (App.handleMove a from to promotion).1) v.

(** [handleBotMove] as the closure that the bot effect hands to the engine
    or calls itself: [game] is the value [captured] when the effect ran,
    the other updates are made on the state of the moment. *)
Definition handleBotMoveFrom (captured : Lib.Chess) (m : string) (a : App.State)
  : App.State :=
  if negb (JS.truthy m) then App.set_botThinking false a
  else
    let newGame := Lib.newChess (Lib.fen captured) in
    let a' :=
      match Lib.move newGame (Lib.MoveString m) with
      | Some (newGame, moveResult) =>
          {| App.game := newGame;
             App.orientation := App.orientation a;
             App.gameStatus := App.gameStatus a;
             App.lastMove := Some (substring 0 2 m, substring 2 2 m);
             App.moveList := App.moveList a ++ [Lib.san moveResult];
             App.botThinking := App.botThinking a;
             App.clockRunning := App.clockRunning a |}
      | None => a
      end in
    App.set_botThinking false a'.

Definition botMove (captured : Lib.Chess) (m : string) (v : View) : View :=
  set_app (handleBotMoveFrom captured m) v.

(** The pause button: [setClockRunning(!clockRunning)]. *)
Definition togglePause (v : View) : View :=
  set_app (fun a => set_status (App.gameStatus a) (negb (App.clockRunning a)) a) v.

(** The button Flip Board. *)
Definition flipBoard (v : View) : View :=
  set_app (fun a =>
    {| App.game := App.game a;
       App.orientation :=
         match App.orientation a with App.white => App.black | App.black => App.white end;
       App.gameStatus := App.gameStatus a; App.lastMove := App.lastMove a;
       App.moveList := App.moveList a; App.botThinking := App.botThinking a;
       App.clockRunning := App.clockRunning a |}) v.

Definition resign (v : View) : View :=
  {| app := set_status App.resigned false (app v);
     vsBot := vsBot v; bot := bot v; timeControl := timeControl v;
     whiteTime := whiteTime v; blackTime := blackTime v;
     analysisScore := analysisScore v; showBots := showBots v;
     showSettings := showSettings v; variant := variant v;
     showResignMenu := false |}.

Definition offerDraw (v : View) : View :=
  set_app (set_status App.draw false) v.

(** [newGame(botSelected, newOrientation)]; [random] gives the values of
    [Math.random()] for the Chess960 variant. *)
Definition newGame (random : nat -> Q) (botSelected : option Bot)
  (newOrientation : option App.Orientation) (v : View) : View :=
  let g :=
    if String.eqb (variant v) "960"
    then Lib.newChess (Chess960.random960Position random)
    else Lib.newChess DEFAULT_POSITION in
  let orientation1 :=
    match newOrientation with
    | Some o => o
    | None => App.orientation (app v)
    end in
  {| app :=
       {| App.game := g;
          App.orientation :=
            match botSelected with
            | Some _ => App.white
            | None => orientation1
            end;
          App.gameStatus := App.playing;
          App.lastMove := None;
          App.moveList := [];
          App.botThinking := App.botThinking (app v);
          App.clockRunning := false |};
     vsBot := match botSelected with Some _ => true | None => false end;
     bot := match botSelected with Some b => b | None => bot v end;
     timeControl := timeControl v;
     whiteTime := timeControl v;
     blackTime := timeControl v;
     analysisScore := None;
     showBots := false;
     showSettings := false;
     variant := variant v;
     showResignMenu := false |}.

(** The effect that checks for the end of the game, given what
    [isCheckmate()], [isDraw()] and [isStalemate()] return. *)
Definition checkGameOver (isCheckmate isDraw isStalemate : bool) (v : View) : View :=
  if isCheckmate then set_app (set_status App.checkmate false) v
  else if isDraw then set_app (set_status App.draw false) v
  else if isStalemate then set_app (set_status App.stalemate false) v
  else v.

Definition set_botThinking (b : bool) (v : View) : View :=
  set_app (App.set_botThinking b) v.

(** The colour the bot plays: the one opposite to the orientation. *)
Definition botColor (v : View) : Lib.PieceColor :=
  match App.orientation (app v) with
  | App.white => Lib.b
  | App.black => Lib.w
  end.

Definition color_eqb (a b : Lib.PieceColor) : bool :=
  match a, b with
  | Lib.w, Lib.w | Lib.b, Lib.b => true
  | _, _ => false
  end.

(** The guard of the bot effect: it goes on only against a bot, while the
    game is played, while the bot is not thinking, and on the bot's
    turn. *)
Definition botIsDue (turn : Lib.PieceColor) (v : View) : bool :=
  vsBot v && bool_decide (App.gameStatus (app v) = App.playing)
  && negb (App.botThinking (app v)) && color_eqb turn (botColor v).

(** What the timer of the bot effect does after 200 ms. *)
Inductive BotRequest : Type :=
| AskEngine (fen : string) (depth skillLevel : Z)
| PlayFallback.

(** The bot effect: the state after it, and the request its timer makes
    ([None] when the effect returns at its guard). [engineReady] is
    [stockfishRef.current?.isReady()] when the timer fires. *)
Definition botEffect (turn : Lib.PieceColor) (engineReady : bool) (v : View)
  : View * option BotRequest :=
  if botIsDue turn v then
    (set_botThinking true v,
     Some (if engineReady
           then AskEngine (Lib.fen (App.game (app v))) (botDepth (skill (bot v)))
                  (skill (bot v))
           else PlayFallback))
  else (v, None).

(** [getWinnerText]; [None] is [null]. *)
Definition getWinnerText (turn : Lib.PieceColor) (v : View) : option string :=
  let winner := match turn with Lib.w => "Black" | Lib.b => "White" end in
  match App.gameStatus (app v) with
  | App.checkmate => Some (winner +:+ " wins by checkmate!")
  | App.resigned => Some (winner +:+ " wins - opponent resigned!")
  | App.timeout => Some (winner +:+ " wins on time!")
  | App.draw => Some "Draw!"
  | App.stalemate => Some "Stalemate!"
  | App.playing => None
  end.

(** Choosing a variant: [setVariant(v.id); newGame()]. Both calls are made
    by one click handler, so that [newGame] is the closure of the last
    render and reads the variant of before the click. *)
Definition chooseVariant (random : nat -> Q) (id : string) (v : View) : View :=
  let v' := newGame random None None v in
  {| app := app v'; vsBot := vsBot v'; bot := bot v'; timeControl := timeControl v';
     whiteTime := whiteTime v'; blackTime := blackTime v';
     analysisScore := analysisScore v'; showBots := showBots v';
     showSettings := showSettings v'; variant := id;
     showResignMenu := showResignMenu v' |}.

(** The analysis effect. *)
Definition analysisEffect (v : View) : View :=
  if bool_decide (App.gameStatus (app v) = App.playing) then
    {| app := app v; vsBot := vsBot v; bot := bot v; timeControl := timeControl v;
       whiteTime := whiteTime v; blackTime := blackTime v;
       analysisScore := Some (Eval.simpleEval (Lib.fen (App.game (app v))));
       showBots := showBots v; showSettings := showSettings v; variant := variant v;
       showResignMenu := showResignMenu v |}
  else v.

(** What the user, the clock, the engine and the effects do to the page.
    The pause button is disabled and the draw button is not rendered
    unless the status is [playing]. *)
Inductive Event : Type :=
| Moved (from to : string) (promotion : option string)
| Ticked (turn : Lib.PieceColor)
| BotDue (turn : Lib.PieceColor) (engineReady : bool)
| BotMoved (captured : Lib.Chess) (m : string)
| Paused
| Flipped
| Resigned
| DrawAgreed
| Restarted (random : nat -> Q) (botSelected : option Bot)
    (newOrientation : option App.Orientation)
| VariantChosen (random : nat -> Q) (id : string)
| GameChecked (isCheckmate isDraw isStalemate : bool)
| Analysed.

Definition step (ev : Event) (v : View) : View :=
  match ev with
  | Moved from to promotion => move from to promotion v
  | Ticked turn => tick turn v
  | BotDue turn engineReady => (botEffect turn engineReady v).1
  | BotMoved captured m => botMove captured m v
  | Paused =>
      if bool_decide (App.gameStatus (app v) = App.playing) then togglePause v else v
  | Flipped => flipBoard v
  | Resigned => resign v
  | DrawAgreed =>
      if bool_decide (App.gameStatus (app v) = App.playing) then offerDraw v else v
  | Restarted random botSelected newOrientation =>
      newGame random botSelected newOrientation v
  | VariantChosen random id => chooseVariant random id v
  | GameChecked isCheckmate isDraw isStalemate =>
      checkGameOver isCheckmate isDraw isStalemate v
  | Analysed => analysisEffect v
  end.

Definition run (evs : list Event) (v : View) : View :=
  fold_left (fun v ev => step ev v) evs v.

(** The events a finished game does not react to. *)
Definition ofPlay (ev : Event) : bool :=
  match ev with
  | Moved _ _ _ | Ticked _ | BotDue _ _ | Paused | DrawAgreed | Analysed => true
  | _ => false
  end.

Definition isBotMoved (ev : Event) : bool :=
  match ev with BotMoved _ _ => true | _ => false end.

(** The clock of the side [turn]. *)
Definition timeOf (turn : Lib.PieceColor) (v : View) : Z :=
  match turn with Lib.w => whiteTime v | Lib.b => blackTime v end.

Definition other (turn : Lib.PieceColor) : Lib.PieceColor :=
  match turn with Lib.w => Lib.b | Lib.b => Lib.w end.

(** The answers of the library in which [isDraw()] holds in every
    stalemate, as it does in chess.js. *)
Definition drawCoversStalemate (ev : Event) : bool :=
  match ev with
  | GameChecked _ isDraw isStalemate => implb isStalemate isDraw
  | _ => true
  end.

End View.

End Page.

Module PageSamples.

Definition rookie : Page.Bot := Page.mkBot "beginner" "Rookie" 800 "" "Just learning" 0.

(** The page with the state [a] of the game, against the first bot, with
    ten minutes on each clock. *)
Definition pageOf (a : @App.State RulesLib.rulesLib) : @Page.View RulesLib.rulesLib :=
  {| Page.app := a; Page.vsBot := true; Page.bot := rookie; Page.timeControl := 600;
     Page.whiteTime := 600; Page.blackTime := 600; Page.analysisScore := None;
     Page.showBots := false; Page.showSettings := false; Page.variant := "chess";
     Page.showResignMenu := false |}.

(** The start of a game in which the user has the black pieces, so that
    the bot is to move, with the clock stopped or running. *)
Definition botToMove (running : bool) : @Page.View RulesLib.rulesLib :=
  pageOf {| App.game := inr Rules.initialState; App.orientation := App.black;
            App.gameStatus := App.playing; App.lastMove := None; App.moveList := [];
            App.botThinking := false; App.clockRunning := running |}.

End PageSamples.

(** ** Notions for the properties of the shuffle and of the evaluators *)

Module Shuffle.

(** Every choice, collected: the results of [cont] for each element of
    the list, in order. *)
Definition pickAll (k : nat) (xs : list Z) (cont : option Z -> list string)
  : list string :=
  flat_map (fun x => cont (Some x)) xs.

(** The FEN strings of [random960Position] for every sequence of choices,
    one entry for each sequence. *)
Definition everyLayout : list string :=
  Chess960.layoutWith pickAll (fun fen => [fen]).

(** How often [fen] occurs in a list. *)
Definition timesIn (fen : string) (fens : list string) : nat :=
  length (List.filter (String.eqb fen) fens).

(** Both evaluators find the material level. *)
Definition balanced (fen : string) : bool :=
  Qeq_bool (Eval.simpleEval fen) 0 && Qeq_bool (Eval.fallbackEval fen) 0.

(** A sequence of draws of [Math.random()] that starts with the five
    given ones. *)
Definition drawsOf (r0 r1 r2 r3 r4 : Q) (k : nat) : Q :=
  match k with
  | 0%nat => r0 | 1%nat => r1 | 2%nat => r2 | 3%nat => r3 | _ => r4
  end.

(** The letter of the piece of the other colour. *)
Definition swapColor (c : ascii) : ascii :=
  let n := nat_of_ascii c in
  if (97 <=? n)%nat && (n <=? 122)%nat then ascii_of_nat (n - 32)
  else if (65 <=? n)%nat && (n <=? 90)%nat then ascii_of_nat (n + 32)
  else c.

(** The placement in which every piece has changed its colour. *)
Fixpoint swapColors (field : string) : string :=
  match field with
  | EmptyString => EmptyString
  | String c rest => String (swapColor c) (swapColors rest)
  end.

End Shuffle.

(** ** The squares the board component renders *)

Module BoardView.

Definition ROWS : list string := ["8"; "7"; "6"; "5"; "4"; "3"; "2"; "1"].
Definition COLS : list string := ["a"; "b"; "c"; "d"; "e"; "f"; "g"; "h"].

(** An element of the array [board]. *)
Record Cell : Type := mkCell { row : string; col : string; ri : nat; ci : nat }.

(** [rows.flatMap((row, ri) => cols.map((col, ci) => ({ row, col, ri, ci })))]. *)
Definition cells (rows cols : list string) : list Cell :=
  mjoin (imap (fun ri row => imap (fun ci col => mkCell row col ri ci) cols) rows).

Definition board (orientation : App.Orientation) : list Cell :=
  match orientation with
  | App.white => cells ROWS COLS
  | App.black => cells (reverse ROWS) (reverse COLS)
  end.

(** [col + row]. *)
Definition square (c : Cell) : string := col c +:+ row c.

(** [(ri + ci) % 2 === 1]. *)
Definition isDark (c : Cell) : bool := ((ri c + ci c) mod 2 =? 1)%nat.

(** The background of a square; [lastMove] is [None] for [null] and
    [undefined]. *)
Definition bgClass (c : Cell) (selectedSquare : option string)
  (possibleMoves : list string) (lastMove : option (string * string)) : string :=
  let isSelected :=
    match selectedSquare with Some s => String.eqb s (square c) | None => false end in
  let isPossibleMove := JS.includes possibleMoves (square c) in
  let isLastMove :=
    match lastMove with
    | Some (from, to) => String.eqb from (square c) || String.eqb to (square c)
    | None => false
    end in
  if isSelected then "bg-amber-400"
  else if isPossibleMove then (if isDark c then "bg-[#5a5a3d]" else "bg-[#d5d5b0]")
  else if isLastMove then (if isDark c then "bg-amber-700/50" else "bg-amber-300/50")
  else if isDark c then "bg-[#3d3a2d]" else "bg-[#ebe5ce]".

(** The colour of a square of the chess board by its name: a1 is dark, and
    the colour changes with every step along a file or a rank. *)
Definition darkByName (name : string) : bool :=
  match name with
  | String file (String rank EmptyString) =>
      Nat.odd ((nat_of_ascii file - 97) + (nat_of_ascii rank - 48))
  | _ => false
  end.

End BoardView.

(** ** [init] of the engine wrapper of [lib/stockfish.ts] *)

Module Init.

(** The function in [worker.onmessage]: the one that hands the message to
    [handleMessage], or the one that waits for [uciok]. *)
Inductive OnMessage : Type :=
| Forwarding
| AwaitingUciok.

(** What [init] meets: no [window], a [Worker] that cannot be created (the
    [try] block throws), or a worker. *)
Inductive Environment : Type :=
| NoWindow
| WorkerFails
| WorkerStarts.

(** The engine with its host, the [Worker] object created by [init] if
    there is one (it is known by its [onmessage]), the promise [init]
    returned ([None] while it is pending) and whether its timer is still
    to fire. *)
Record State : Type := mkState {
  host : Engine.Host;
  onmessage : option OnMessage;
  answer : option bool;
  timerSet : bool
}.

Definition set_ready (r : bool) (e : Engine.Engine) : Engine.Engine :=
  {| Engine.worker := Engine.worker e; Engine.onAnalysis := Engine.onAnalysis e;
     Engine.onBestMove := Engine.onBestMove e; Engine.ready := r;
     Engine.currentAnalysis := Engine.currentAnalysis e |}.

Definition on_host (f : Engine.Host -> Engine.Host) (st : State) : State :=
  {| host := f (host st); onmessage := onmessage st; answer := answer st;
     timerSet := timerSet st |}.

(** [resolve(b)]: settles the promise unless it is settled already. *)
Definition resolve (b : bool) (st : State) : State :=
  {| host := host st; onmessage := onmessage st;
     answer := match answer st with None => Some b | Some a => Some a end;
     timerSet := timerSet st |}.

(** [init()], called on an engine with the host [h]. *)
Definition init (env : Environment) (h : Engine.Host) : State :=
  match env with
  | NoWindow =>
      {| host := h; onmessage := None; answer := Some false; timerSet := false |}
  | WorkerFails =>
      {| host := Engine.set_engine (Engine.set_worker None) h;
         onmessage := None; answer := Some false; timerSet := false |}
  | WorkerStarts =>
      let h := Engine.set_engine (Engine.set_worker (Some [])) h in
      {| host := St.exec (Engine.send "uci") h;
         onmessage := Some AwaitingUciok; answer := None; timerSet := true |}
  end.

(** The handler that waits for [uciok]. Setting [onmessage] on a worker
    that is [null] by then throws, which ends the handler. *)
Definition awaitUciok (msg : string) (st : State) : State :=
  if String.eqb msg "uciok" then
    let st := on_host (Engine.set_engine (set_ready true)) st in
    match Engine.worker (Engine.engine (host st)) with
    | None => st
    | Some _ =>
        let h :=
          St.exec (St.bind (Engine.send "setoption name Threads value 1") (fun _ =>
                   St.bind (Engine.send "setoption name Hash value 32") (fun _ =>
                   Engine.send "isready"))) (host st) in
        resolve true
          {| host := h; onmessage := Some Forwarding; answer := answer st;
             timerSet := timerSet st |}
    end
  else st.

Inductive Event : Type :=
| Message (msg : string)
| WorkerError
| TimeoutFires
| Requested (r : Engine.Request)
| EngineTimer (k : nat).

Definition step (ev : Event) (st : State) : State :=
  match ev with
  | Message msg =>
      match onmessage st with
      | Some AwaitingUciok => awaitUciok msg st
      | Some Forwarding => on_host (St.exec (Engine.handleMessage msg)) st
      | None => st
      end
  | WorkerError =>
      match onmessage st with
      | Some _ => resolve false (on_host (Engine.set_engine (Engine.set_worker None)) st)
      | None => st
      end
  | TimeoutFires =>
      if timerSet st then
        let st :=
          {| host := host st; onmessage := onmessage st; answer := answer st;
             timerSet := false |} in
        if negb (Engine.ready (Engine.engine (host st)))
        then resolve false (on_host (Engine.set_engine (Engine.set_worker None)) st)
        else st
      else st
  | Requested r => on_host (St.exec (Engine.perform r)) st
  | EngineTimer k => on_host (St.exec (Engine.dispatch (Engine.TimerFires k))) st
  end.

Definition run (evs : list Event) (st : State) : State :=
  fold_left (fun st ev => step ev st) evs st.

(** What the worker object and the timer of [init] do, as opposed to the
    calls of the application. *)
Definition fromOutside (ev : Event) : bool :=
  match ev with
  | Message _ | WorkerError | TimeoutFires => true
  | _ => false
  end.

Definition isUciok (ev : Event) : bool :=
  match ev with
  | Message msg => String.eqb msg "uciok"
  | _ => false
  end.

Definition isMessage (ev : Event) : bool :=
  match ev with Message _ => true | _ => false end.

End Init.
(** * Properties *)

(** ** Material evaluation *)

Lemma values_pieceOfChar (c : ascii) :
  match Eval.values c, Notation.pieceOfChar c with
  | Some v, Some p =>
      (v == Spec.colorWeight (Rules.color p) * Spec.pieceValue (Rules.kind p))%Q
  | None, None => True
  | _, _ => False
  end.
Proof.
  destruct c as [[] [] [] [] [] [] [] []]; vm_compute; try exact I; reflexivity.
Qed.

Lemma piecesOf_cons (c : ascii) (s : string) :
  Spec.piecesOf (String c s)
  = match Notation.pieceOfChar c with
    | Some p => p :: Spec.piecesOf s
    | None => Spec.piecesOf s
    end.
Proof. reflexivity. Qed.

Lemma accumulate_cons (table : ascii -> option Q) (acc : Q) (c : ascii) (s : string) :
  Eval.accumulate table acc (String c s)
  = Eval.accumulate table
      (match table c with Some v => acc + v | None => acc end)%Q s.
Proof. reflexivity. Qed.

Lemma accumulate_values (s : string) (acc : Q) :
  (Eval.accumulate Eval.values acc s
   == acc + Spec.staticEvaluation (Spec.piecesOf s))%Q.
Proof.
  revert acc. induction s as [|c s IH]; intros acc.
  - unfold Eval.accumulate, Spec.piecesOf; simpl. ring.
  - rewrite accumulate_cons, piecesOf_cons, IH.
    pose proof (values_pieceOfChar c) as Hc.
    destruct (Eval.values c) as [v|], (Notation.pieceOfChar c) as [p|];
      try contradiction.
    + rewrite Hc. simpl. ring.
    + reflexivity.
Qed.

(** [fen.split(' ')[0]] is the text before the first space. *)
Lemma placement_is_first_field (fen : string) :
  Eval.placement fen = Spec.placementField fen.
Proof.
  unfold Eval.placement. induction fen as [| c fen IH]; [reflexivity |].
  simpl. destruct (Ascii.eqb c " "); [reflexivity |].
  destruct (JS.split " " fen) as [| w ws]; [by rewrite <- IH | by rewrite IH].
Qed.

Lemma placementField_append (field rest : string) :
  ~ In " "%char (list_ascii_of_string field) ->
  Spec.placementField (field +:+ String " " rest) = field.
Proof.
  induction field as [| c field IH]; intros Hno; [reflexivity |].
  simpl in *. destruct (Ascii.eqb_spec c " ") as [-> | _]; [tauto |].
  f_equal. apply IH. tauto.
Qed.

(** C5. For every FEN string, [fallbackEval] is the signed sum, over the
    pieces named in the placement field (the text before the first space),
    of the values Pawn 1, Knight 3, Bishop 3.25, Rook 5, Queen 9, King 0,
    counted positive for White and negative for Black; what follows the
    placement field does not count. *)
Theorem fallbackEval_is_signed_material (fen : string) :
  (Eval.fallbackEval fen
   == Spec.staticEvaluation (Spec.piecesOf (Spec.placementField fen)))%Q
  /\ forall field rest : string,
       ~ In " "%char (list_ascii_of_string field) ->
       (Eval.fallbackEval (field +:+ String " " rest)
        == Spec.staticEvaluation (Spec.piecesOf field))%Q.
Proof.
  assert (E : forall fen,
            (Eval.fallbackEval fen
             == Spec.staticEvaluation (Spec.piecesOf (Spec.placementField fen)))%Q).
  { intros f. unfold Eval.fallbackEval.
    rewrite accumulate_values, placement_is_first_field. ring. }
  split; [apply E |].
  intros field rest Hno. rewrite E, placementField_append by exact Hno. reflexivity.
Qed.

Example fallbackEval_skips_the_side_to_move :
  (Eval.fallbackEval "8/8/8/8/8/8/8/8 b - - 0 1" == 0)%Q
  /\ (Eval.fallbackEval "4k3/8/8/8/8/8/8/2B1K3 b KQkq - 0 1" == 3.25)%Q.
Proof. split; vm_compute; reflexivity. Qed.

Lemma values_pieces (c : ascii) :
  match Eval.values c, Eval.pieces c with
  | Some v, Some v' =>
      (v == v' + (1 # 4) * (inject_Z (Spec.occurrences "B" (String c EmptyString))
                            - inject_Z (Spec.occurrences "b" (String c EmptyString))))%Q
  | None, None =>
      Spec.occurrences "B" (String c EmptyString) = 0%Z
      /\ Spec.occurrences "b" (String c EmptyString) = 0%Z
  | _, _ => False
  end.
Proof.
  destruct c as [[] [] [] [] [] [] [] []]; vm_compute; try (split; reflexivity); reflexivity.
Qed.

Lemma occurrences_cons (x c : ascii) (s : string) :
  Spec.occurrences x (String c s)
  = (Spec.occurrences x (String c EmptyString) + Spec.occurrences x s)%Z.
Proof.
  unfold Spec.occurrences. simpl. destruct (Ascii.eqb x c); simpl; lia.
Qed.

Lemma accumulate_difference (s : string) (acc acc' : Q) :
  (Eval.accumulate Eval.values acc s - Eval.accumulate Eval.pieces acc' s
   == acc - acc'
      + (1 # 4) * (inject_Z (Spec.occurrences "B" s)
                   - inject_Z (Spec.occurrences "b" s)))%Q.
Proof.
  revert acc acc'. induction s as [|c s IH]; intros acc acc'.
  - unfold Eval.accumulate; simpl.
    change (inject_Z (Spec.occurrences "B" "")) with 0%Q.
    change (inject_Z (Spec.occurrences "b" "")) with 0%Q. ring.
  - rewrite (occurrences_cons "B"), (occurrences_cons "b").
    rewrite !accumulate_cons, IH.
    pose proof (values_pieces c) as Hc.
    destruct (Eval.values c) as [v|], (Eval.pieces c) as [v'|]; try contradiction.
    + rewrite Hc, !inject_Z_plus. ring.
    + destruct Hc as [-> ->]. rewrite !Z.add_0_l. ring.
Qed.

Lemma inject_Z_eq (a b : Z) : (inject_Z a == inject_Z b)%Q <-> a = b.
Proof. unfold Qeq, inject_Z; simpl. lia. Qed.

(** C6, as amended. The two evaluators differ by a quarter of a pawn for
    every bishop White has more than Black in the placement field; they
    return equal scores exactly for the FEN strings with as many [B] as
    [b]. *)
Theorem evaluators_differ_by_bishop_surplus (fen : string) :
  let whiteBishops := Spec.occurrences "B" (Eval.placement fen) in
  let blackBishops := Spec.occurrences "b" (Eval.placement fen) in
  (Eval.fallbackEval fen
   == Eval.simpleEval fen
      + (1 # 4) * (inject_Z whiteBishops - inject_Z blackBishops))%Q
  /\ ((Eval.fallbackEval fen == Eval.simpleEval fen)%Q
      <-> whiteBishops = blackBishops).
Proof.
  intros nB nb.
  pose proof (accumulate_difference (Eval.placement fen) 0 0) as D.
  fold (Eval.fallbackEval fen) (Eval.simpleEval fen) nB nb in D.
  assert (E : (Eval.fallbackEval fen
               == Eval.simpleEval fen + (1 # 4) * (inject_Z nB - inject_Z nb))%Q).
  { lra. }
  split; [exact E|].
  rewrite <- inject_Z_eq. split; intros H.
  - rewrite H in E. lra.
  - rewrite E, H. ring.
Qed.

(** C6, counterexample. With a lone white bishop on the board the two
    evaluators return 3.25 and 3. *)
Lemma evaluators_disagree_on_lone_bishop :
  ~ (Eval.fallbackEval "4k3/8/8/8/8/8/8/2B1K3 w - - 0 1"
     == Eval.simpleEval "4k3/8/8/8/8/8/8/2B1K3 w - - 0 1")%Q.
Proof. vm_compute. intros H. discriminate H. Qed.

(** ** Order of the commands posted to the engine *)

Lemma exec_send (h : Engine.Host) (cmd : string) :
  St.exec (Engine.send cmd) h
  = Engine.set_engine
      (fun e => Engine.set_worker
                  (match Engine.worker e with
                   | Some posted => Some (posted ++ [cmd])
                   | None => None
                   end) e) h.
Proof. reflexivity. Qed.

Lemma posted_analyze (h : Engine.Host) (fen : string) (depth : option Z) :
  is_Some (Engine.worker (Engine.engine h)) ->
  Engine.postedBy (Engine.analyze fen depth) h
  = ["stop"; "position fen " +:+ fen;
     "go depth " +:+ JS.show (Engine.orDefault 20 depth)]%string.
Proof.
  intros [posted Hw]. destruct h as [[wk oa ob rd ca] ps ts cs]; simpl in Hw; subst wk.
  unfold Engine.postedBy, Engine.analyze, St.exec, St.bind, St.gets, Engine.send,
    St.modify; simpl.
  rewrite <- !app_assoc. apply drop_app_length.
Qed.

Lemma posted_findBestMove (h : Engine.Host) (fen : string) (depth skillLevel : option Z) :
  is_Some (Engine.worker (Engine.engine h)) ->
  Engine.postedBy (Engine.findBestMove fen depth skillLevel) h
  = ["stop";
     "setoption name Skill Level value " +:+ JS.show (Engine.orDefault 20 skillLevel);
     "position fen " +:+ fen;
     "go depth " +:+ JS.show (Engine.orDefault 12 depth)]%string.
Proof.
  intros [posted Hw]. destruct h as [[wk oa ob rd ca] ps ts cs]; simpl in Hw; subst wk.
  unfold Engine.postedBy, Engine.findBestMove, Engine.setSkillLevel, Engine.newPromise,
    Engine.setTimeout, St.exec, St.bind, St.gets, St.ret, Engine.send, St.modify; simpl.
  rewrite <- !app_assoc. apply drop_app_length.
Qed.

Lemma posted_start (h : PageEngine.Host) (fen : string) (depth skillLevel : Z) (onMove : nat) :
  is_Some (PageEngine.worker (PageEngine.engine h)) ->
  PageEngine.ready (PageEngine.engine h) = true ->
  PageEngine.postedBy (PageEngine.start fen depth skillLevel onMove) h
  = ["setoption name Skill Level value " +:+ JS.show skillLevel;
     "position fen " +:+ fen;
     "go depth " +:+ JS.show depth]%string.
Proof.
  intros [posted Hw] Hr. destruct h as [[wk rd mh] cs]; simpl in Hw, Hr; subst wk rd.
  unfold PageEngine.postedBy, PageEngine.start, St.exec, St.bind, St.gets,
    PageEngine.postMessage, St.modify; simpl.
  rewrite <- !app_assoc. apply drop_app_length.
Qed.

Lemma stopBeforePosition_nil : Spec.stopBeforePosition [].
Proof. intros [|? ?] c post E; discriminate E. Qed.

Lemma stopBeforePosition_stop_first (cmds : list string) :
  Spec.stopBeforePosition ("stop"%string :: cmds).
Proof.
  intros [|x pre] c post E Hc.
  - injection E as <- _. discriminate Hc.
  - injection E as <- _. left.
Qed.

(** C3, as amended. [analyze] and [findBestMove] post [stop] before the
    [position fen] command of the request; [start] of the page's engine
    posts its three commands without any [stop]. *)
Theorem stop_precedes_position_in_lib_engine_only
  (h : Engine.Host) (hp : PageEngine.Host) (fen : string)
  (depth skillLevel : option Z) (d s : Z) (onMove : nat) :
  is_Some (Engine.worker (Engine.engine h)) ->
  is_Some (PageEngine.worker (PageEngine.engine hp)) ->
  PageEngine.ready (PageEngine.engine hp) = true ->
  (Engine.postedBy (Engine.analyze fen depth) h
   = ["stop"; "position fen " +:+ fen;
      "go depth " +:+ JS.show (Engine.orDefault 20 depth)]%string
   /\ Spec.stopBeforePosition (Engine.postedBy (Engine.analyze fen depth) h))
  /\ (Engine.postedBy (Engine.findBestMove fen depth skillLevel) h
      = ["stop";
         "setoption name Skill Level value " +:+ JS.show (Engine.orDefault 20 skillLevel);
         "position fen " +:+ fen;
         "go depth " +:+ JS.show (Engine.orDefault 12 depth)]%string
      /\ Spec.stopBeforePosition (Engine.postedBy (Engine.findBestMove fen depth skillLevel) h))
  /\ (PageEngine.postedBy (PageEngine.start fen d s onMove) hp
      = ["setoption name Skill Level value " +:+ JS.show s;
         "position fen " +:+ fen;
         "go depth " +:+ JS.show d]%string
      /\ "stop"%string ∉ PageEngine.postedBy (PageEngine.start fen d s onMove) hp).
Proof.
  intros Hw Hwp Hr.
  rewrite (posted_analyze h fen depth Hw), (posted_findBestMove h fen depth skillLevel Hw),
    (posted_start hp fen d s onMove Hwp Hr).
  repeat split; try apply stopBeforePosition_stop_first.
  intros Hin. repeat (apply elem_of_cons in Hin as [Hin|Hin]; [discriminate Hin|]).
  inversion Hin.
Qed.

(** C3, counterexample. On a ready engine [start] posts the [position fen]
    command of its request with no [stop] before it. *)
Lemma start_posts_position_without_stop :
  ~ Spec.stopBeforePosition
      (PageEngine.postedBy (PageEngine.start Samples.startFEN 10 20 0)
         Samples.loadedPageEngine).
Proof.
  intros H.
  specialize (H ["setoption name Skill Level value 20"%string]
                ("position fen " +:+ Samples.startFEN)%string
                ["go depth 10"%string] eq_refl eq_refl).
  apply elem_of_cons in H as [H|H]; [discriminate H|inversion H].
Qed.

Lemma stop_precedes_position_witness :
  Engine.postedBy (Engine.analyze Samples.startFEN None) Samples.loadedEngine
  = ["stop";
     "position fen rnbqkbnr/pppppppp/8/8/8/8/PPPPPPPP/RNBQKBNR w KQkq - 0 1";
     "go depth 20"]%string.
Proof.
  refine (proj1 (proj1 (stop_precedes_position_in_lib_engine_only
            Samples.loadedEngine Samples.loadedPageEngine Samples.startFEN
            None None 10 20 0 _ _ _))).
  - exists []. reflexivity.
  - exists []. reflexivity.
  - reflexivity.
Defined.

(** ** A small program logic for the engine's effects *)

Section Preservation.

Context {S : Type} (R : S -> S -> Prop) `{!PreOrder R}.

Lemma exec_bind {A B} (m : St.M S A) (k : A -> St.M S B) (s : S) :
  St.exec (St.bind m k) s = St.exec (k (St.eval m s)) (St.exec m s).
Proof. unfold St.exec, St.eval, St.bind. destruct (m s); reflexivity. Qed.

Lemma preserved_ret {A} (a : A) (s : S) : R s (St.exec (St.ret a) s).
Proof. reflexivity. Qed.

Lemma preserved_gets {A} (f : S -> A) (s : S) : R s (St.exec (St.gets f) s).
Proof. reflexivity. Qed.

Lemma preserved_bind {A B} (m : St.M S A) (k : A -> St.M S B) :
  (forall s, R s (St.exec m s)) ->
  (forall a s, R s (St.exec (k a) s)) ->
  forall s, R s (St.exec (St.bind m k) s).
Proof.
  intros Hm Hk s. rewrite exec_bind. etransitivity; [apply Hm|apply Hk].
Qed.

End Preservation.

#[local] Instance extends_preorder : PreOrder Spec.extends.
Proof.
  split.
  - intros h. repeat split; auto.
  - intros h1 h2 h3 (T12 & L12 & P12) (T23 & L23 & P23).
    split; [auto|]. split; [lia|]. intros q Hq Hp.
    apply P12; [done|]. apply P23; [lia|done].
Qed.

#[local] Instance logsOnly_preorder (P : Engine.Call -> Prop) : PreOrder (Spec.logsOnly P).
Proof.
  split.
  - intros h. exists []. split; [by rewrite app_nil_r|constructor].
  - intros h1 h2 h3 (n12 & E12 & F12) (n23 & E23 & F23). exists (n12 ++ n23).
    split; [by rewrite E23, E12, app_assoc|by apply Forall_app].
Qed.

Lemma resolve_lookup (p : nat) (v : option string) (h : Engine.Host) (q : nat) :
  Engine.promises (St.exec (Engine.resolve p v) h) !! q
  = if bool_decide (q = p /\ Engine.promises h !! p = Some Engine.Pending)
    then Some (Engine.Resolved v)
    else Engine.promises h !! q.
Proof.
  unfold Engine.resolve, St.exec, St.modify; simpl.
  destruct (Engine.promises h !! p) as [[|w]|] eqn:E; simpl.
  - case_bool_decide as D.
    + destruct D as [-> _]. apply list_lookup_insert_eq. by eapply lookup_lt_Some.
    + apply list_lookup_insert_ne. intros <-. by apply D.
  - rewrite bool_decide_eq_false_2; [done|]. by intros [_ ?].
  - rewrite bool_decide_eq_false_2; [done|]. by intros [_ ?].
Qed.

Lemma resolve_frame (p : nat) (v : option string) (h : Engine.Host) :
  Engine.engine (St.exec (Engine.resolve p v) h) = Engine.engine h
  /\ Engine.timers (St.exec (Engine.resolve p v) h) = Engine.timers h
  /\ Engine.calls (St.exec (Engine.resolve p v) h) = Engine.calls h.
Proof.
  unfold Engine.resolve, St.exec, St.modify; simpl.
  destruct (Engine.promises h !! p) as [[|w]|]; done.
Qed.

Lemma resolve_length (p : nat) (v : option string) (h : Engine.Host) :
  length (Engine.promises (St.exec (Engine.resolve p v) h)) = length (Engine.promises h).
Proof.
  unfold Engine.resolve, St.exec, St.modify; simpl.
  destruct (Engine.promises h !! p) as [[|w]|]; simpl; [apply length_insert|done..].
Qed.

Lemma extends_resolve (p : nat) (v : option string) (h : Engine.Host) :
  Spec.extends h (St.exec (Engine.resolve p v) h).
Proof.
  destruct (resolve_frame p v h) as (_ & T & _).
  split; [by rewrite T|]. split; [by rewrite resolve_length|].
  intros q _. rewrite resolve_lookup. case_bool_decide; [discriminate|done].
Qed.

Lemma extends_same (f : Engine.Host -> Engine.Host) (h : Engine.Host) :
  Engine.timers (f h) = Engine.timers h ->
  Engine.promises (f h) = Engine.promises h ->
  Spec.extends h (St.exec (St.modify f) h).
Proof.
  intros T P. unfold Spec.extends, St.exec, St.modify. cbn [snd].
  rewrite T, P. auto.
Qed.

Lemma extends_send (cmd : string) (h : Engine.Host) :
  Spec.extends h (St.exec (Engine.send cmd) h).
Proof. by apply extends_same. Qed.

Lemma extends_newPromise (h : Engine.Host) :
  Spec.extends h (St.exec Engine.newPromise h).
Proof.
  unfold Spec.extends, Engine.newPromise, St.exec; simpl.
  split; [auto|]. split; [rewrite length_app; lia|].
  intros q Hq. by rewrite lookup_app_l.
Qed.

Lemma extends_setTimeout (a : Engine.TimerAction) (delay : Z) (h : Engine.Host) :
  Spec.extends h (St.exec (Engine.setTimeout a delay) h).
Proof.
  unfold Spec.extends, Engine.setTimeout, St.exec, St.modify; simpl.
  split; [|auto]. intros t Ht. apply elem_of_app. by left.
Qed.

Lemma extends_callOnAnalysis (r : Engine.AnalysisResult) (h : Engine.Host) :
  Spec.extends h (St.exec (Engine.callOnAnalysis r) h).
Proof.
  unfold Engine.callOnAnalysis. apply (preserved_bind _); [apply (preserved_gets _)|].
  intros [cb|] s; [by apply extends_same|reflexivity].
Qed.

Lemma extends_callOnBestMove (move : string) (h : Engine.Host) :
  Spec.extends h (St.exec (Engine.callOnBestMove move) h).
Proof.
  unfold Engine.callOnBestMove. apply (preserved_bind _); [apply (preserved_gets _)|].
  intros [|p prev] s; [reflexivity|].
  apply (preserved_bind _); [intros; by apply extends_same|intros _].
  apply (preserved_bind _); [intros; by apply extends_same|intros _].
  apply extends_resolve.
Qed.

Lemma extends_handleMessage (msg : string) (h : Engine.Host) :
  Spec.extends h (St.exec (Engine.handleMessage msg) h).
Proof.
  unfold Engine.handleMessage. apply (preserved_bind _).
  - intros s. destruct (_ && _); [|reflexivity].
    destruct (Engine.search "depth " _ _); [|reflexivity].
    apply (preserved_bind _); [intros; by apply extends_same|intros _].
    apply extends_callOnAnalysis.
  - intros _ s. destruct (JS.startsWith _ _); [|reflexivity].
    destruct (_ !! _); [|reflexivity].
    destruct (_ && _); [apply extends_callOnBestMove|reflexivity].
Qed.

Lemma extends_analyze (fen : string) (depth : option Z) (h : Engine.Host) :
  Spec.extends h (St.exec (Engine.analyze fen depth) h).
Proof.
  unfold Engine.analyze. apply (preserved_bind _); [apply (preserved_gets _)|].
  intros [posted|] s; [|apply extends_callOnAnalysis].
  repeat (apply (preserved_bind _); [intros; apply extends_send|intros _]).
  apply extends_send.
Qed.

Lemma extends_findBestMove (fen : string) (depth skillLevel : option Z) (h : Engine.Host) :
  Spec.extends h (St.exec (Engine.findBestMove fen depth skillLevel) h).
Proof.
  unfold Engine.findBestMove. apply (preserved_bind _); [apply extends_newPromise|].
  intros p. apply (preserved_bind _); [apply (preserved_gets _)|].
  intros [posted|].
  - apply (preserved_bind _); [intros; apply extends_send|intros _].
    apply (preserved_bind _); [intros; apply extends_send|intros _].
    apply (preserved_bind _); [intros; apply extends_send|intros _].
    apply (preserved_bind _); [apply (preserved_gets _)|intros prev].
    apply (preserved_bind _); [intros; by apply extends_same|intros _].
    apply (preserved_bind _); [intros; apply extends_send|intros _].
    apply (preserved_bind _); [intros; apply extends_setTimeout|intros _].
    apply (preserved_ret _).
  - apply (preserved_bind _); [intros; apply extends_resolve|intros _].
    apply (preserved_ret _).
Qed.

Lemma extends_perform (r : Engine.Request) (h : Engine.Host) :
  Spec.extends h (St.exec (Engine.perform r) h).
Proof.
  destruct r; simpl.
  - apply extends_analyze.
  - revert h. apply (preserved_bind _); [apply extends_findBestMove|].
    intros _. apply (preserved_ret _).
  - apply extends_send.
  - apply extends_send.
  - by apply extends_same.
  - revert h. apply (preserved_bind _); [apply extends_send|].
    intros _ s. by apply extends_same.
Qed.

Lemma timeoutArmed_extends (p : nat) (h h' : Engine.Host) :
  Spec.extends h h' -> Spec.timeoutArmed p h -> Spec.timeoutArmed p h'.
Proof.
  intros (T & Hlen & Hpend) [Hp Armed]. split; [lia|].
  intros Hp'. apply T, Armed, Hpend; done.
Qed.

(** ** Fallback when the engine is unavailable or silent *)

Lemma elem_of_remove_other {A} (l : list A) (k : nat) (x y : A) :
  x ∈ l -> l !! k = Some y -> x <> y -> x ∈ take k l ++ drop (Datatypes.S k) l.
Proof.
  intros Hx Hk Hne. rewrite <- (take_drop_middle l k y Hk) in Hx.
  apply elem_of_app in Hx as [Hx|Hx]; apply elem_of_app; [by left|].
  apply elem_of_cons in Hx as [Hx|Hx]; [done|by right].
Qed.

Lemma exec_fire (k : nat) (h : Engine.Host) (d : Z) (p : nat) :
  Engine.timers h !! k = Some (d, Engine.ResolveNull p) ->
  St.exec (Engine.dispatch (Engine.TimerFires k)) h
  = St.exec (Engine.resolve p None)
      {| Engine.engine := Engine.engine h; Engine.promises := Engine.promises h;
         Engine.timers := take k (Engine.timers h) ++ drop (Datatypes.S k) (Engine.timers h);
         Engine.calls := Engine.calls h |}.
Proof.
  intros Hk. unfold Engine.dispatch, St.exec, St.bind, St.gets, St.modify; simpl.
  rewrite Hk. reflexivity.
Qed.

Lemma exec_fire_none (k : nat) (h : Engine.Host) :
  Engine.timers h !! k = None ->
  St.exec (Engine.dispatch (Engine.TimerFires k)) h = h.
Proof.
  intros Hk. unfold Engine.dispatch, St.exec, St.bind, St.gets; simpl.
  rewrite Hk. reflexivity.
Qed.

Lemma timeoutArmed_dispatch (p : nat) (ev : Engine.Event) (h : Engine.Host) :
  Spec.timeoutArmed p h -> Spec.timeoutArmed p (St.exec (Engine.dispatch ev) h).
Proof.
  intros Armed. destruct ev as [msg|k|r].
  - apply (timeoutArmed_extends p h); [apply extends_handleMessage|done].
  - destruct (Engine.timers h !! k) as [[d [p']]|] eqn:Hk;
      [|by rewrite exec_fire_none].
    rewrite (exec_fire k h d p' Hk). destruct Armed as [Hlen Armed].
    split; [by rewrite resolve_length|].
    intros Hp. rewrite resolve_lookup in Hp. case_bool_decide as D; [discriminate|].
    simpl in Hp, D. destruct (resolve_frame p' None
      {| Engine.engine := Engine.engine h; Engine.promises := Engine.promises h;
         Engine.timers := take k (Engine.timers h) ++ drop (Datatypes.S k) (Engine.timers h);
         Engine.calls := Engine.calls h |}) as (_ & -> & _). simpl.
    apply (elem_of_remove_other _ k _ (d, Engine.ResolveNull p')); [by apply Armed|done|].
    intros [= _ <-]. by apply D.
  - apply (timeoutArmed_extends p h); [apply extends_perform|done].
Qed.

Lemma timeoutArmed_run (p : nat) (evs : list Engine.Event) (h : Engine.Host) :
  Spec.timeoutArmed p h -> Spec.timeoutArmed p (Engine.run evs h).
Proof.
  revert h. induction evs as [|ev evs IH]; intros h Armed; simpl; [done|].
  by apply IH, timeoutArmed_dispatch.
Qed.

Lemma findBestMove_available (h : Engine.Host) (fen : string) (depth skillLevel : option Z) :
  is_Some (Engine.worker (Engine.engine h)) ->
  let r := Engine.findBestMove fen depth skillLevel h in
  r.1 = length (Engine.promises h)
  /\ Engine.promises r.2 = Engine.promises h ++ [Engine.Pending]
  /\ Engine.timers r.2
     = Engine.timers h ++ [(10000%Z, Engine.ResolveNull (length (Engine.promises h)))].
Proof.
  intros [posted Hw]. destruct h as [[wk oa ob rd ca] ps ts cs]; simpl in Hw; subst wk.
  repeat split.
Qed.

Lemma findBestMove_unavailable (h : Engine.Host) (fen : string) (depth skillLevel : option Z) :
  Engine.worker (Engine.engine h) = None ->
  let r := Engine.findBestMove fen depth skillLevel h in
  r.1 = length (Engine.promises h)
  /\ Engine.promises r.2 = Engine.promises h ++ [Engine.Resolved None].
Proof.
  intros Hw. destruct h as [[wk oa ob rd ca] ps ts cs]; simpl in Hw; subst wk.
  unfold Engine.findBestMove, Engine.newPromise, Engine.resolve, St.bind, St.gets,
    St.modify, St.ret; simpl.
  rewrite lookup_app_r, Nat.sub_diag by done; simpl.
  split; [done|].
  rewrite insert_app_r_alt, Nat.sub_diag by done. done.
Qed.

(** C7. With no worker, [analyze] hands the analysis callback the result
    whose score is [fallbackEval] of the FEN (mate [null], no best move)
    and [findBestMove] resolves to [null] at once. With a worker,
    [findBestMove] sets a 10-second timer, and whenever the promise is
    still pending after the events that follow (messages of the worker,
    timers firing, further method calls), that timer is still set and
    resolves the promise to [null] when it fires. *)
Theorem unavailable_or_silent_engine_yields_null
  (h h' : Engine.Host) (fen : string) (depth skillLevel : option Z)
  (evs : list Engine.Event) :
  Engine.worker (Engine.engine h) = None ->
  is_Some (Engine.worker (Engine.engine h')) ->
  St.exec (Engine.analyze fen depth) h
  = match Engine.onAnalysis (Engine.engine h) with
    | Some cb =>
        Engine.log
          (Engine.AnalysisCall cb
             {| Engine.depth := Engine.orDefault 20 depth;
                Engine.score := Some (Eval.fallbackEval fen);
                Engine.mate := None; Engine.bestMove := None;
                Engine.pv := EmptyString |}) h
    | None => h
    end
  /\ (let (p, h1) := Engine.findBestMove fen depth skillLevel h in
      Engine.promises h1 !! p = Some (Engine.Resolved None))
  /\ (let (p, h1) := Engine.findBestMove fen depth skillLevel h' in
      Engine.promises h1 !! p = Some Engine.Pending
      /\ (Engine.promises (Engine.run evs h1) !! p = Some Engine.Pending ->
          exists k : nat,
            Engine.timers (Engine.run evs h1) !! k = Some (10000%Z, Engine.ResolveNull p)
            /\ Engine.promises
                 (St.exec (Engine.dispatch (Engine.TimerFires k)) (Engine.run evs h1)) !! p
               = Some (Engine.Resolved None))).
Proof.
  intros Hw Hw'. split; [|split].
  - destruct h as [[wk oa ob rd ca] ps ts cs]; simpl in Hw; subst wk.
    destruct oa; reflexivity.
  - pose proof (findBestMove_unavailable h fen depth skillLevel Hw) as [E1 E2].
    destruct (Engine.findBestMove fen depth skillLevel h) as [p h1]; simpl in E1, E2.
    subst p. rewrite E2. by rewrite lookup_app_r, Nat.sub_diag.
  - pose proof (findBestMove_available h' fen depth skillLevel Hw') as (E1 & E2 & E3).
    destruct (Engine.findBestMove fen depth skillLevel h') as [p h1]; simpl in E1, E2, E3.
    assert (Hp : Engine.promises h1 !! p = Some Engine.Pending).
    { subst p. rewrite E2. by rewrite lookup_app_r, Nat.sub_diag. }
    split; [exact Hp|]. intros Hp2.
    assert (Armed : Spec.timeoutArmed p h1).
    { split; [by eapply lookup_lt_Some|].
      intros _. rewrite E3, E1. apply elem_of_app. right. left. }
    apply (timeoutArmed_run p evs) in Armed as [_ Armed].
    destruct (proj1 (list_elem_of_lookup _ _) (Armed Hp2)) as [k Hk].
    exists k. split; [exact Hk|].
    rewrite (exec_fire k _ _ _ Hk), resolve_lookup. simpl.
    by rewrite bool_decide_eq_true_2.
Qed.

Lemma unavailable_engine_witness :
  Engine.worker (Engine.engine Samples.unavailableEngine) = None
  /\ is_Some (Engine.worker (Engine.engine Samples.loadedEngine))
  /\ Engine.calls (St.exec (Engine.analyze Samples.startFEN None) Samples.unavailableEngine)
     = [Engine.AnalysisCall 0
          {| Engine.depth := 20;
             Engine.score := Some (Eval.fallbackEval Samples.startFEN);
             Engine.mate := None; Engine.bestMove := None;
             Engine.pv := EmptyString |}].
Proof.
  assert (Hw : Engine.worker (Engine.engine Samples.unavailableEngine) = None)
    by reflexivity.
  assert (Hw' : is_Some (Engine.worker (Engine.engine Samples.loadedEngine)))
    by (exists []; reflexivity).
  split; [exact Hw|]. split; [exact Hw'|].
  destruct (unavailable_or_silent_engine_yields_null
              Samples.unavailableEngine Samples.loadedEngine Samples.startFEN
              None None [Engine.WorkerMessage "bestmove (none)"] Hw Hw') as [E _].
  rewrite E. reflexivity.
Defined.

(** ** What reaches the best-move callbacks *)

Lemma truthy_nonempty (s : string) : JS.truthy s = true -> s <> EmptyString.
Proof.
  unfold JS.truthy. intros H E. subst s. discriminate H.
Qed.

Lemma guarded_move (move : string) :
  JS.truthy move && negb (String.eqb move "(none)") = true ->
  move <> EmptyString /\ move <> "(none)"%string.
Proof.
  intros H. apply andb_prop in H as [T N]. split; [by apply truthy_nonempty|].
  intros ->. discriminate N.
Qed.

Lemma logsOnly_same (P : Engine.Call -> Prop) (f : Engine.Host -> Engine.Host)
  (h : Engine.Host) :
  Engine.calls (f h) = Engine.calls h ->
  Spec.logsOnly P h (St.exec (St.modify f) h).
Proof.
  intros E. exists []. unfold St.exec, St.modify. cbn [snd].
  split; [by rewrite E, app_nil_r|constructor].
Qed.

Lemma logsOnly_log (P : Engine.Call -> Prop) (c : Engine.Call) (h : Engine.Host) :
  P c -> Spec.logsOnly P h (St.exec (St.modify (Engine.log c)) h).
Proof. intros Hc. exists [c]. split; [reflexivity|by constructor]. Qed.

Lemma logsOnly_resolve (P : Engine.Call -> Prop) (p : nat) (v : option string)
  (h : Engine.Host) :
  Spec.logsOnly P h (St.exec (Engine.resolve p v) h).
Proof.
  exists []. destruct (resolve_frame p v h) as (_ & _ & ->).
  split; [by rewrite app_nil_r|constructor].
Qed.

Lemma logsOnly_callOnAnalysis (r : Engine.AnalysisResult) (h : Engine.Host) :
  Spec.logsOnly Spec.carriesMove h (St.exec (Engine.callOnAnalysis r) h).
Proof.
  unfold Engine.callOnAnalysis. apply (preserved_bind _); [apply (preserved_gets _)|].
  intros [cb|] s; [by apply logsOnly_log|reflexivity].
Qed.

Lemma logsOnly_callOnBestMove (move : string) (h : Engine.Host) :
  move <> EmptyString /\ move <> "(none)"%string ->
  Spec.logsOnly Spec.carriesMove h (St.exec (Engine.callOnBestMove move) h).
Proof.
  intros Hm. revert h.
  unfold Engine.callOnBestMove. apply (preserved_bind _); [apply (preserved_gets _)|].
  intros [|p prev] s; [reflexivity|].
  apply (preserved_bind _); [intros; by apply logsOnly_log|intros _].
  apply (preserved_bind _); [intros; by apply logsOnly_same|intros _].
  apply logsOnly_resolve.
Qed.

Lemma logsOnly_handleMessage (msg : string) (h : Engine.Host) :
  Spec.logsOnly Spec.carriesMove h (St.exec (Engine.handleMessage msg) h).
Proof.
  unfold Engine.handleMessage. apply (preserved_bind _).
  - intros s. destruct (_ && _); [|reflexivity].
    destruct (Engine.search "depth " _ _); [|reflexivity].
    apply (preserved_bind _); [intros; by apply logsOnly_same|intros _].
    apply logsOnly_callOnAnalysis.
  - intros _ s. destruct (JS.startsWith _ _); [|reflexivity].
    destruct (_ !! _) as [move|]; [|reflexivity].
    destruct (_ && _) eqn:G; [|reflexivity].
    by apply logsOnly_callOnBestMove, guarded_move.
Qed.

Lemma page_onmessage_calls (msg : string) (hp : PageEngine.Host) :
  Forall (fun c : nat * string => c.2 <> EmptyString /\ c.2 <> "(none)"%string)
    (Spec.onMoveCallsBy (PageEngine.onmessage msg) hp).
Proof.
  destruct hp as [[wk rd mh] cs].
  unfold Spec.onMoveCallsBy, PageEngine.onmessage, PageEngine.handler, St.exec,
    St.bind, St.gets, St.modify, St.ret, PageEngine.callOnMove.
  cbn [PageEngine.engine PageEngine.ready PageEngine.onMoveCalls
       PageEngine.messageHandler PageEngine.set_engine PageEngine.set_ready
       PageEngine.set_messageHandler fst snd].
  destruct (Engine.contains msg "uciok" && negb rd);
    cbn [PageEngine.engine PageEngine.ready PageEngine.onMoveCalls
         PageEngine.messageHandler PageEngine.set_engine PageEngine.set_ready
         PageEngine.set_messageHandler fst snd];
    (destruct mh as [|onMove]; [by rewrite drop_all|]);
    (destruct (JS.startsWith msg "bestmove"); [|by rewrite drop_all]);
    (destruct (JS.split " " msg !! 1%nat) as [move|];
       [|cbn; by rewrite drop_all]);
    (destruct (JS.truthy move && negb (String.eqb move "(none)")) eqn:G;
       [|cbn; by rewrite drop_all]);
    cbn; rewrite drop_app_length; repeat constructor;
    by apply guarded_move.
Qed.

(** C8. Whatever message the engine sends, the best-move callback of the
    wrapper and the [onMove] callback of the page's engine are only called
    with a move that is neither empty nor [(none)]; the message
    [bestmove (none)] leads to no call at all; and [handleBotMove] given the
    empty move only clears the thinking flag. *)
Theorem best_move_callbacks_receive_real_moves
  {L : Lib.ChessJS} (msg : string) (h : Engine.Host) (hp : PageEngine.Host)
  (st : App.State) :
  Forall Spec.carriesMove (Spec.callsBy (Engine.handleMessage msg) h)
  /\ Forall (fun c : nat * string => c.2 <> EmptyString /\ c.2 <> "(none)"%string)
       (Spec.onMoveCallsBy (PageEngine.onmessage msg) hp)
  /\ St.exec (Engine.handleMessage "bestmove (none)") h = h
  /\ Spec.onMoveCallsBy (PageEngine.onmessage "bestmove (none)") hp = []
  /\ App.handleBotMove st "" = App.set_botThinking false st.
Proof.
  split; [|split; [|split; [|split]]].
  - destruct (logsOnly_handleMessage msg h) as (new & E & F).
    unfold Spec.callsBy. rewrite E. by rewrite drop_app_length.
  - apply page_onmessage_calls.
  - reflexivity.
  - destruct hp as [[wk rd [|onMove]] cs];
      unfold Spec.onMoveCallsBy; cbn; by rewrite drop_all.
  - reflexivity.
Qed.

(** ** The shuffled back rank *)

Lemma randomIndex_range (r : Q) (len : nat) :
  (0 <= r)%Q -> (r < 1)%Q -> (0 < len)%nat ->
  (0 <= Chess960.randomIndex r len < Z.of_nat len)%Z.
Proof.
  intros H0 H1 Hlen. unfold Chess960.randomIndex.
  assert (Hpos : (0 < inject_Z (Z.of_nat len))%Q).
  { change 0%Q with (inject_Z 0). rewrite <- Zlt_Qlt. lia. }
  split.
  - change 0%Z with (Qfloor 0). apply Qfloor_resp_le. nra.
  - rewrite Zlt_Qlt. eapply Qle_lt_trans; [apply Qfloor_le|]. nra.
Qed.

Lemma choose_elem (xs : list Z) (r : Q) :
  (0 <= r)%Q -> (r < 1)%Q -> xs <> [] ->
  exists x : Z, Chess960.choose xs r = Some x /\ x ∈ xs.
Proof.
  intros H0 H1 Hxs.
  assert (Hlen : (0 < length xs)%nat) by (destruct xs; [done|simpl; lia]).
  pose proof (randomIndex_range r (length xs) H0 H1 Hlen) as [Hlo Hhi].
  unfold Chess960.choose, Chess960.at_.
  destruct (Z.ltb_spec (Chess960.randomIndex r (length xs)) 0) as [?|_]; [lia|].
  destruct (lookup_lt_is_Some_2 xs (Z.to_nat (Chess960.randomIndex r (length xs))))
    as [x Hx]; [lia|].
  exists x. split; [exact Hx|]. by eapply list_elem_of_lookup_2.
Qed.

Lemma random960Position_layout (random : nat -> Q) :
  Chess960.random960Position random
  = Chess960.layoutWith (@Chess960.pickRandom random string) (fun fen => fen).
Proof. reflexivity. Qed.

Lemma pickEvery_elim (k : nat) (xs : list Z) (cont : option Z -> bool) :
  Chess960.pickEvery k xs cont = true ->
  xs <> [] /\ forall x, x ∈ xs -> cont (Some x) = true.
Proof.
  unfold Chess960.pickEvery. destruct xs as [|x0 xs]; [discriminate|].
  intros H. split; [done|]. intros x Hx.
  rewrite forallb_forall in H. apply H. by apply list_elem_of_In.
Qed.

(** Whatever holds of the layout for every choice holds of the layout the
    random draws produce. *)
Lemma layout_every_choice (random : nat -> Q) (test : string -> bool) :
  (forall k, 0 <= random k /\ random k < 1)%Q ->
  Chess960.layoutWith Chess960.pickEvery test = true ->
  test (Chess960.random960Position random) = true.
Proof.
  intros Hr. rewrite random960Position_layout.
  unfold Chess960.layoutWith, Chess960.pickRandom. cbv zeta.
  intros H.
  repeat
    match goal with
    | H : Chess960.pickEvery ?k ?xs _ = true |- _ =>
        let Hne := fresh "Hne" in
        let Hall := fresh "Hall" in
        let x := fresh "x" in
        let Hx := fresh "Hx" in
        let Hin := fresh "Hin" in
        apply pickEvery_elim in H as [Hne Hall];
        destruct (choose_elem xs (random k) (proj1 (Hr k)) (proj2 (Hr k)) Hne)
          as (x & Hx & Hin);
        rewrite Hx; specialize (Hall x Hin); cbv beta in Hall
    end.
  assumption.
Qed.

Lemma every_layout_wellPlaced :
  Chess960.layoutWith Chess960.pickEvery Chess960.wellPlaced = true.
Proof. vm_compute. reflexivity. Qed.

Lemma kingBetweenRooksb_sound (king rook : ascii) (rank : string) :
  Chess960.kingBetweenRooksb king rook rank = true ->
  Chess960.kingBetweenRooks king rook rank.
Proof.
  unfold Chess960.kingBetweenRooksb, Chess960.kingBetweenRooks.
  destruct (Chess960.filesOf rook rank) as [|r1 [|r2 [|]]]; try discriminate.
  destruct (Chess960.filesOf king rank) as [|k [|]]; try discriminate.
  intros H. apply andb_prop in H as [H1 H2].
  apply Nat.ltb_lt in H1, H2. exists r1, k, r2. done.
Qed.

Lemma bishopsOnOppositeColorsb_sound (bishop : ascii) (rank : string) :
  Chess960.bishopsOnOppositeColorsb bishop rank = true ->
  Chess960.bishopsOnOppositeColors bishop rank.
Proof.
  unfold Chess960.bishopsOnOppositeColorsb, Chess960.bishopsOnOppositeColors.
  destruct (Chess960.filesOf bishop rank) as [|b1 [|b2 [|]]]; try discriminate.
  intros H. exists b1, b2. split; [done|].
  destruct (Nat.even b1), (Nat.even b2); done.
Qed.

(** C4. Whatever values [Math.random] returns (each in the interval from 0
    inclusive to 1 exclusive), the FEN string of [random960Position] has,
    on the back rank of each colour, the king between the two rooks and
    the two bishops on squares of opposite colours. *)
Theorem random960Position_is_chess960 (random : nat -> Q) :
  (forall k, 0 <= random k /\ random k < 1)%Q ->
  let fen := Chess960.random960Position random in
  Chess960.kingBetweenRooks "k" "r" (Chess960.blackBackRank fen)
  /\ Chess960.bishopsOnOppositeColors "b" (Chess960.blackBackRank fen)
  /\ Chess960.kingBetweenRooks "K" "R" (Chess960.whiteBackRank fen)
  /\ Chess960.bishopsOnOppositeColors "B" (Chess960.whiteBackRank fen).
Proof.
  intros Hr fen.
  pose proof (layout_every_choice random Chess960.wellPlaced Hr every_layout_wellPlaced)
    as H.
  fold fen in H. unfold Chess960.wellPlaced in H.
  repeat (apply andb_prop in H as [H ?]).
  auto using kingBetweenRooksb_sound, bishopsOnOppositeColorsb_sound.
Qed.

Lemma random960Position_witness :
  (forall k, 0 <= Samples.draws k /\ Samples.draws k < 1)%Q
  /\ Chess960.kingBetweenRooks "K" "R"
       (Chess960.whiteBackRank (Chess960.random960Position Samples.draws)).
Proof.
  assert (Hr : (forall k, 0 <= Samples.draws k /\ Samples.draws k < 1)%Q).
  { intros [|[|[|[|k]]]]; simpl; split; lra. }
  split; [exact Hr|].
  exact (proj1 (proj2 (proj2 (random960Position_is_chess960 Samples.draws Hr)))).
Defined.

(** ** Legal moves never leave the mover's king attacked *)

Section Generator.

Import Rules.

Lemma slide_from (b : Board) (c : Color) (a cur : Square) (d : Z * Z) (fuel : nat)
  (m : Move) :
  m ∈ slide b c a cur d fuel -> from m = a.
Proof.
  revert cur. induction fuel as [|fuel IH]; intros cur; simpl.
  - intros H. inversion H.
  - destruct (inBounds (offset cur d)); [|intros H; inversion H].
    destruct (pieceAt b (offset cur d)) as [p|].
    + destruct (bool_decide (color p = c)); intros H.
      * inversion H.
      * apply elem_of_cons in H as [->|H]; [done|inversion H].
    + intros H. apply elem_of_cons in H as [->|H]; [done|by eapply IH].
Qed.

Lemma slides_from (b : Board) (c : Color) (a : Square) (ds : list (Z * Z)) (m : Move) :
  m ∈ slides b c a ds -> from m = a.
Proof.
  unfold slides. intros H. apply list_elem_of_bind in H as (d & H & _).
  by eapply slide_from.
Qed.

Lemma steps_from (b : Board) (c : Color) (a : Square) (ds : list (Z * Z)) (m : Move) :
  m ∈ steps b c a ds -> from m = a.
Proof.
  unfold steps, step. intros H. apply list_elem_of_bind in H as (d & H & _).
  destruct (inBounds (offset a d)); [|inversion H].
  destruct (pieceAt b (offset a d)) as [p|].
  - destruct (bool_decide (color p = c)); [inversion H|].
    apply elem_of_cons in H as [->|H]; [done|inversion H].
  - apply elem_of_cons in H as [->|H]; [done|inversion H].
Qed.

Lemma pawnTo_from (c : Color) (a t : Square) (cap : bool) (m : Move) :
  m ∈ pawnTo c a t cap -> from m = a.
Proof.
  unfold pawnTo. destruct (rank t =? lastRank c)%Z; intros H.
  - apply list_elem_of_fmap in H as (k & -> & _). done.
  - apply elem_of_cons in H as [->|H]; [done|inversion H].
Qed.

Lemma pawnMoves_from (b : Board) (ep : option Square) (c : Color) (a : Square)
  (m : Move) :
  m ∈ pawnMoves b ep c a -> from m = a.
Proof.
  assert (Hcap : forall df, m ∈ pawnCapture b ep c a df -> from m = a).
  { intros df. unfold pawnCapture.
    destruct (inBounds _); [|intros H; inversion H].
    destruct (pieceAt b _) as [p|].
    - destruct (bool_decide (color p = c)); [intros H; inversion H|].
      apply pawnTo_from.
    - destruct (bool_decide _); intros H; [|inversion H].
      apply elem_of_cons in H as [->|H]; [done|inversion H]. }
  unfold pawnMoves. intros H.
  apply elem_of_app in H as [H|H]; [|apply elem_of_app in H as [H|H]; eauto].
  unfold pawnAdvances in H. destruct (_ && _); [|inversion H].
  apply elem_of_app in H as [H|H]; [by eapply pawnTo_from|].
  destruct (_ && _); [|inversion H].
  apply elem_of_cons in H as [->|H]; [done|inversion H].
Qed.

Lemma castlingMoves_from (b : Board) (r : CastlingRights) (c : Color) (a : Square)
  (m : Move) :
  m ∈ castlingMoves b r c a -> from m = a.
Proof.
  unfold castlingMoves. cbv zeta. destruct (bool_decide _); [|intros H; inversion H].
  intros H. apply elem_of_app in H as [H|H];
    (match type of H with _ ∈ (if ?g then _ else _) => destruct g end;
     [|inversion H]);
    (apply elem_of_cons in H as [->|H]; [done|inversion H]).
Qed.

Lemma pseudoLegalMoves_from (s : GameState) (a : Square) (p : Piece) (m : Move) :
  m ∈ pseudoLegalMoves s a p -> from m = a.
Proof.
  unfold pseudoLegalMoves. destruct (kind p);
    eauto using pawnMoves_from, steps_from, slides_from.
  intros H. apply elem_of_app in H as [H|H];
    eauto using steps_from, castlingMoves_from.
Qed.

(** What it means for a move to come out of the generator for the square
    [a]. *)
Lemma generateLegalMoves_elem (s : GameState) (a : Square) (m : Move) :
  m ∈ generateLegalMoves s a ->
  exists p : Piece,
    pieceAt (board s) a = Some p
    /\ color p = sideToMove s
    /\ from m = a
    /\ inCheck (applyToBoard (board s) m) (sideToMove s) = false.
Proof.
  unfold generateLegalMoves. destruct (pieceAt (board s) a) as [p|]; [|intros H; inversion H].
  case_bool_decide as Hc; [|intros H; inversion H].
  intros H. apply list_elem_of_In, filter_In in H as [H Hsafe].
  apply list_elem_of_In in H. exists p. repeat split; try done.
  - by eapply pseudoLegalMoves_from.
  - by apply negb_true_iff.
Qed.

(** *** The attack predicate sees every capture the generator produces *)

Local Open Scope Z_scope.

Lemma pieceAt_inBounds (b : Board) (a : Square) (p : Piece) :
  pieceAt b a = Some p -> inBounds a = true.
Proof.
  unfold pieceAt, get. destruct (inBounds a); [done|discriminate].
Qed.

Lemma holds_intro (b : Board) (a : Square) (p : Piece) (k : PieceKind) :
  pieceAt b a = Some p -> kind p = k -> holds b a k (color p) = true.
Proof.
  intros Hp <-. unfold holds. apply bool_decide_eq_true_2.
  rewrite Hp. by destruct p.
Qed.

Lemma offset_back (a : Square) (d : Z * Z) :
  offset (offset a d) (- fst d, - snd d) = a.
Proof. destruct a as [f r]. unfold offset; simpl. f_equal; lia. Qed.

Lemma step_to (b : Board) (c : Color) (a : Square) (d : Z * Z) (m : Move) :
  m ∈ step b c a d -> to m = offset a d.
Proof.
  unfold step. destruct (inBounds _); [|intros H; inversion H].
  destruct (pieceAt b _) as [p|].
  - destruct (bool_decide _); intros H; [inversion H|].
    apply elem_of_cons in H as [->|H]; [done|inversion H].
  - intros H. apply elem_of_cons in H as [->|H]; [done|inversion H].
Qed.

(** A move of [slide] ends [n] steps away, past empty squares only. *)
Lemma slide_to (b : Board) (c : Color) (a cur : Square) (d : Z * Z) (fuel : nat)
  (m : Move) :
  m ∈ slide b c a cur d fuel ->
  exists n : Z,
    1 <= n <= Z.of_nat fuel
    /\ to m = shift cur d n
    /\ forall i, 1 <= i < n ->
         inBounds (shift cur d i) = true /\ pieceAt b (shift cur d i) = None.
Proof.
  revert cur. induction fuel as [|fuel IH]; intros cur; simpl slide.
  - intros H. inversion H.
  - assert (E1 : offset cur d = shift cur d 1).
    { unfold offset, shift. f_equal; lia. }
    destruct (inBounds (offset cur d)) eqn:Hb; [|intros H; inversion H].
    assert (Here : forall t, t = offset cur d ->
              exists n : Z, 1 <= n <= Z.of_nat (Datatypes.S fuel)
                /\ t = shift cur d n
                /\ forall i, 1 <= i < n ->
                     inBounds (shift cur d i) = true /\ pieceAt b (shift cur d i) = None).
    { intros t ->. exists 1. split; [lia|]. split; [exact E1|]. intros i Hi. lia. }
    destruct (pieceAt b (offset cur d)) as [p|] eqn:Hp.
    + destruct (bool_decide (color p = c)); intros H; [inversion H|].
      apply elem_of_cons in H as [->|H]; [by apply Here|inversion H].
    + intros H. apply elem_of_cons in H as [->|H]; [by apply Here|].
      destruct (IH _ H) as (n & Hn & Hto & Hempty).
      assert (E2 : forall i, shift (offset cur d) d i = shift cur d (i + 1)).
      { intros i. unfold offset, shift; simpl. f_equal; lia. }
      exists (n + 1). split; [lia|]. split; [by rewrite Hto, E2|].
      intros i Hi. destruct (decide (i = 1)) as [->|Hne].
      * rewrite <- E1. done.
      * replace i with ((i - 1) + 1) by lia. rewrite <- E2. apply Hempty. lia.
Qed.

(** Walking back from the target finds the piece that slid there. *)
Lemma firstPiece_reaches (b : Board) (k : Square) (d : Z * Z) (fuel : nat) (n : Z)
  (p : Piece) :
  1 <= n <= Z.of_nat fuel ->
  (forall i, 1 <= i < n ->
     inBounds (shift k d i) = true /\ pieceAt b (shift k d i) = None) ->
  pieceAt b (shift k d n) = Some p ->
  firstPiece b k d fuel = Some p.
Proof.
  revert k n. induction fuel as [|fuel IH]; intros k n Hn Hempty Hp; [lia|].
  simpl firstPiece.
  assert (E1 : offset k d = shift k d 1) by (unfold offset, shift; f_equal; lia).
  assert (E2 : forall i, shift (offset k d) d i = shift k d (i + 1)).
  { intros i. unfold offset, shift; simpl. f_equal; lia. }
  destruct (decide (n = 1)) as [->|Hne].
  - rewrite E1, (pieceAt_inBounds _ _ _ Hp), Hp. done.
  - destruct (Hempty 1 ltac:(lia)) as [Hb He]. rewrite E1, Hb, He, <- E1.
    apply (IH _ (n - 1)); [lia| |].
    + intros i Hi. rewrite E2. apply Hempty. lia.
    + rewrite E2. by replace (n - 1 + 1) with n by lia.
Qed.

Lemma shift_back (a : Square) (d : Z * Z) (n i : Z) :
  shift (shift a d n) (- fst d, - snd d) i = shift a d (n - i).
Proof. unfold shift; simpl. f_equal; lia. Qed.

Lemma shift_zero (a : Square) (d : Z * Z) : shift a d 0 = a.
Proof. destruct a. unfold shift; simpl. f_equal; lia. Qed.

(** A sliding piece on [a] that can move to [k] is the first piece met
    from [k] in the opposite direction. *)
Lemma slides_seen (b : Board) (a : Square) (p : Piece) (ds : list (Z * Z)) (m : Move) :
  pieceAt b a = Some p ->
  m ∈ slides b (color p) a ds ->
  exists d : Z * Z,
    d ∈ ds /\ firstPiece b (to m) (- fst d, - snd d) 7 = Some p.
Proof.
  intros Hp H. unfold slides in H. apply list_elem_of_bind in H as (d & H & Hd).
  exists d. split; [exact Hd|].
  destruct (slide_to _ _ _ _ _ _ _ H) as (n & Hn & -> & Hempty).
  apply (firstPiece_reaches _ _ _ _ n); [exact Hn| |].
  - intros i Hi. rewrite shift_back. apply Hempty. lia.
  - by rewrite shift_back, Z.sub_diag, shift_zero.
Qed.

Lemma existsb_intro {A} (f : A -> bool) (l : list A) (x : A) :
  x ∈ l -> f x = true -> existsb f l = true.
Proof. intros Hin Hf. apply existsb_exists. exists x. by rewrite <- list_elem_of_In. Qed.

Lemma negated_in (ds : list (Z * Z)) (d : Z * Z) :
  ds = orthogonals \/ ds = diagonals \/ ds = knightJumps \/ ds = kingSteps ->
  d ∈ ds -> (- fst d, - snd d) ∈ ds.
Proof.
  intros [-> | [-> | [-> | ->]]] H;
    repeat (apply elem_of_cons in H as [->|H]; [apply list_elem_of_In; simpl; tauto|]);
    inversion H.
Qed.

Lemma steps_seen (b : Board) (a : Square) (p : Piece) (ds : list (Z * Z)) (m : Move) :
  ds = knightJumps \/ ds = kingSteps ->
  m ∈ steps b (color p) a ds ->
  exists d : Z * Z, d ∈ ds /\ offset (to m) d = a.
Proof.
  intros Hds H. unfold steps in H. apply list_elem_of_bind in H as (d & H & Hd).
  exists (- fst d, - snd d). split; [apply negated_in; tauto|].
  rewrite (step_to _ _ _ _ _ H). apply offset_back.
Qed.

Lemma pawnTo_to (c : Color) (a t : Square) (cap : bool) (m : Move) :
  m ∈ pawnTo c a t cap -> to m = t.
Proof.
  unfold pawnTo. destruct (rank t =? lastRank c); intros H.
  - apply list_elem_of_fmap in H as (k & -> & _). done.
  - apply elem_of_cons in H as [->|H]; [done|inversion H].
Qed.

(** A pawn move onto an occupied square is a diagonal capture. *)
Lemma pawnMoves_seen (b : Board) (ep : option Square) (c : Color) (a : Square)
  (m : Move) :
  m ∈ pawnMoves b ep c a ->
  pieceAt b (to m) <> None ->
  exists df : Z, df ∈ [-1; 1] /\ offset (to m) (df, - forward c) = a.
Proof.
  assert (Hcap : forall df, df ∈ [-1; 1] ->
            m ∈ pawnCapture b ep c a df ->
            pieceAt b (to m) <> None ->
            exists df' : Z, df' ∈ [-1; 1] /\ offset (to m) (df', - forward c) = a).
  { intros df Hdf. unfold pawnCapture.
    destruct (inBounds _); [|intros H; inversion H].
    destruct (pieceAt b (offset a (df, forward c))) as [q|] eqn:Hq.
    - destruct (bool_decide (color q = c)); [intros H; inversion H|].
      intros H _. apply pawnTo_to in H. exists (- df). split.
      + repeat (apply elem_of_cons in Hdf as [->|Hdf];
                  [apply list_elem_of_In; simpl; tauto|]); inversion Hdf.
      + rewrite H. apply (offset_back a (df, forward c)).
    - destruct (bool_decide _); intros H; [|inversion H].
      apply elem_of_cons in H as [->|H]; [|inversion H]. simpl. by rewrite Hq. }
  unfold pawnMoves. intros H Hocc.
  apply elem_of_app in H as [H|H];
    [|apply elem_of_app in H as [H|H];
      [apply (Hcap (-1))|apply (Hcap 1)]; try done;
      apply list_elem_of_In; simpl; tauto].
  exfalso. unfold pawnAdvances in H.
  destruct (inBounds _ && bool_decide _) eqn:G1; [|inversion H].
  apply andb_prop in G1 as [_ G1]. apply bool_decide_eq_true_1 in G1.
  apply elem_of_app in H as [H|H].
  - apply pawnTo_to in H. by rewrite H in Hocc.
  - destruct (_ && bool_decide _) eqn:G2; [|inversion H].
    apply andb_prop in G2 as [_ G2]. apply bool_decide_eq_true_1 in G2.
    apply elem_of_cons in H as [->|H]; [done|inversion H].
Qed.

(** Castling lands on an empty square. *)
Lemma castlingMoves_empty_target (b : Board) (r : CastlingRights) (c : Color)
  (a : Square) (m : Move) :
  m ∈ castlingMoves b r c a -> pieceAt b (to m) = None.
Proof.
  unfold castlingMoves. cbv zeta. destruct (bool_decide _); [|intros H; inversion H].
  intros H. apply elem_of_app in H as [H|H];
    (match type of H with _ ∈ (if ?g then _ else _) => destruct g eqn:G end;
     [|inversion H]);
    (apply elem_of_cons in H as [->|H]; [|inversion H]);
    repeat (apply andb_prop in G as [G ?]); simpl;
    match goal with
    | F : bool_decide (pieceAt b ?s = None) = true |- pieceAt b ?s = None =>
        by apply bool_decide_eq_true_1 in F
    end.
Qed.

(** Every pseudo-legal move onto an occupied square is an attack on that
    square in the sense of [isSquareAttacked]. *)
Lemma captures_are_attacks (s : GameState) (a : Square) (p : Piece) (m : Move) :
  pieceAt (board s) a = Some p ->
  m ∈ pseudoLegalMoves s a p ->
  pieceAt (board s) (to m) <> None ->
  isSquareAttacked (board s) (to m) (color p) = true.
Proof.
  intros Hp H Hocc. unfold pseudoLegalMoves in H. unfold isSquareAttacked.
  assert (Hslide : forall ds, m ∈ slides (board s) (color p) a ds ->
            exists d, d ∈ ds
              /\ firstPiece (board s) (to m) (- fst d, - snd d) 7 = Some p).
  { intros ds. by apply slides_seen. }
  destruct (kind p) eqn:K.
  - destruct (pawnMoves_seen _ _ _ _ _ H Hocc) as (df & Hdf & E).
    rewrite (existsb_intro _ [-1; 1] df Hdf), ?orb_true_r; [done|].
    rewrite E. by apply holds_intro.
  - destruct (steps_seen _ _ _ knightJumps _ (or_introl eq_refl) H) as (d & Hd & E).
    rewrite (existsb_intro _ knightJumps d Hd); [done|].
    rewrite E. by apply holds_intro.
  - destruct (Hslide _ H) as (d & Hd & F).
    rewrite (existsb_intro _ diagonals (- fst d, - snd d)), ?orb_true_r; [done| |].
    + apply negated_in; tauto.
    + rewrite F, K. by rewrite bool_decide_eq_true_2.
  - destruct (Hslide _ H) as (d & Hd & F).
    rewrite (existsb_intro _ orthogonals (- fst d, - snd d)), ?orb_true_r; [done| |].
    + apply negated_in; tauto.
    + rewrite F, K. by rewrite bool_decide_eq_true_2.
  - destruct (Hslide _ H) as (d & Hd & F).
    apply elem_of_app in Hd as [Hd|Hd].
    + rewrite (existsb_intro _ orthogonals (- fst d, - snd d)), ?orb_true_r; [done| |].
      * apply negated_in; tauto.
      * rewrite F, K. by rewrite bool_decide_eq_true_2.
    + rewrite (existsb_intro _ diagonals (- fst d, - snd d)), ?orb_true_r; [done| |].
      * apply negated_in; tauto.
      * rewrite F, K. by rewrite bool_decide_eq_true_2.
  - apply elem_of_app in H as [H|H].
    + destruct (steps_seen _ _ _ kingSteps _ (or_intror eq_refl) H) as (d & Hd & E).
      rewrite (existsb_intro _ kingSteps d Hd), ?orb_true_r; [done|].
      rewrite E. by apply holds_intro.
    + by apply castlingMoves_empty_target in H.
Qed.

Lemma kingSquare_holds (b : Board) (c : Color) (k : Square) :
  kingSquare b c = Some k -> pieceAt b k = Some (mkPiece King c).
Proof.
  unfold kingSquare. intros H. apply find_some in H as [_ H].
  by apply bool_decide_eq_true_1 in H.
Qed.

(** When the king of [c] is not in check, no pseudo-legal move of the
    other side lands on its square. *)
Lemma not_inCheck_no_capture (s : GameState) (c : Color) (k a : Square) (p : Piece)
  (m : Move) :
  inCheck (board s) c = false ->
  kingSquare (board s) c = Some k ->
  pieceAt (board s) a = Some p ->
  color p = opposite c ->
  m ∈ pseudoLegalMoves s a p ->
  to m <> k.
Proof.
  intros Hsafe Hk Hp Hc H E. unfold inCheck in Hsafe. rewrite Hk in Hsafe.
  pose proof (captures_are_attacks s a p m Hp H) as A.
  rewrite E, Hc, Hsafe in A. apply kingSquare_holds in Hk.
  rewrite Hk in A. by discriminate A.
Qed.

Lemma board_stateAfter (s : GameState) (p : Piece) (m : Move) :
  board (stateAfter s p m) = applyToBoard (board s) m.
Proof. reflexivity. Qed.

End Generator.

(** C1. Every move in the list of legal moves of a game state can be
    applied to it, and in the resulting position the king of the side that
    moved is not attacked: no move the other side's pieces could make by
    their movement rules lands on the king's square. *)
Theorem legal_moves_keep_own_king_safe (s : Rules.GameState) (m : Rules.Move) :
  m ∈ Rules.generateAllLegalMoves s ->
  exists s' : Rules.GameState,
    Rules.applyMove s m = inr s'
    /\ Rules.inCheck (Rules.board s') (Rules.sideToMove s) = false
    /\ forall (k a : Rules.Square) (p : Rules.Piece) (m' : Rules.Move),
         Rules.kingSquare (Rules.board s') (Rules.sideToMove s) = Some k ->
         Rules.pieceAt (Rules.board s') a = Some p ->
         Rules.color p = Rules.sideToMove s' ->
         m' ∈ Rules.pseudoLegalMoves s' a p ->
         Rules.to m' <> k.
Proof.
  unfold Rules.generateAllLegalMoves. intros H.
  apply list_elem_of_bind in H as (a & H & _).
  destruct (generateLegalMoves_elem s a m H) as (p & Hp & _ & Hfrom & Hsafe).
  subst a. exists (Rules.stateAfter s p m). split; [|split; [exact Hsafe|]].
  - unfold Rules.applyMove. rewrite bool_decide_eq_true_2 by exact H.
    by rewrite Hp.
  - intros k a q m' Hk Hq Hc Hm'.
    exact (not_inCheck_no_capture (Rules.stateAfter s p m) (Rules.sideToMove s)
             k a q m' Hsafe Hk Hq Hc Hm').
Qed.

Lemma legal_moves_witness :
  Samples.e2e4 ∈ Rules.generateAllLegalMoves Rules.initialState
  /\ exists s' : Rules.GameState,
       Rules.applyMove Rules.initialState Samples.e2e4 = inr s'
       /\ Rules.inCheck (Rules.board s') Rules.White = false.
Proof.
  assert (H : Samples.e2e4 ∈ Rules.generateAllLegalMoves Rules.initialState).
  { apply list_elem_of_In. vm_compute. tauto. }
  split; [exact H|].
  destruct (legal_moves_keep_own_king_safe Rules.initialState Samples.e2e4 H)
    as (s' & Happly & Hsafe & _).
  exists s'. split; [exact Happly|exact Hsafe].
Defined.

(** ** The move handlers of the page *)

(** How a call of [handleMove] ends, for every library: it returns
    [false] when the status is not [playing] or the library returns a falsy
    value, an error of the library leaves it, and in both cases the state
    is as before; otherwise it stores the new game, the last move and the
    SAN of the move, and returns [true]. *)
Lemma handleMove_outcomes
  {L : Lib.ChessJS} (st : App.State) (from to : string) (promotion : option string) :
  let newGame := Lib.newChess (Lib.fen (App.game st)) in
  let input := Lib.MoveObject from to (App.promotionOrQueen promotion) in
  (App.gameStatus st <> App.playing ->
   App.handleMove st from to promotion = (st, App.Returned false))
  /\ (App.gameStatus st = App.playing -> Lib.move newGame input = None ->
      App.handleMove st from to promotion
      = (st, if Lib.raises newGame input then App.Raised else App.Returned false))
  /\ (App.gameStatus st = App.playing ->
      forall (newGame' : Lib.Chess) (move : Lib.MoveInfo),
        Lib.move newGame input = Some (newGame', move) ->
        App.handleMove st from to promotion
        = ({| App.game := newGame';
              App.orientation := App.orientation st;
              App.gameStatus := App.gameStatus st;
              App.lastMove := Some (from, to);
              App.moveList := App.moveList st ++ [Lib.san move];
              App.botThinking := App.botThinking st;
              App.clockRunning := true |}, App.Returned true)).
Proof.
  intros newGame input. unfold App.handleMove. fold newGame input.
  split; [| split].
  - intros Hs. by rewrite bool_decide_eq_false_2.
  - intros Hs Hm. rewrite bool_decide_eq_true_2 by exact Hs. simpl. by rewrite Hm.
  - intros Hs g' m Hm. rewrite bool_decide_eq_true_2 by exact Hs. simpl. by rewrite Hm.
Qed.

(** For the rules engine, the library makes a move for an input exactly
    when the generator has a legal move from the origin to the target whose
    promotion, if it promotes, is the one asked for. *)
Lemma rules_move_made_iff_legal (s : Rules.GameState) (from to promotion : string) :
  is_Some (RulesLib.move (inr s) (Lib.MoveObject from to promotion))
  <-> exists (a b : Rules.Square) (m : Rules.Move),
        Notation.parseSquare from = Some a
        /\ Notation.parseSquare to = Some b
        /\ m ∈ Rules.generateLegalMoves s a
        /\ Rules.to m = b
        /\ (Rules.promotion m = None
            \/ Rules.promotion m = RulesLib.promotionKind promotion).
Proof.
  unfold RulesLib.move, RulesLib.resolve, RulesLib.findMove; simpl.
  split.
  - intros [r Hr].
    destruct (Notation.parseSquare from) as [a|]; [|discriminate Hr].
    destruct (Notation.parseSquare to) as [b|]; [|discriminate Hr].
    simpl in Hr. destruct (find _ _) as [m|] eqn:F; [|discriminate Hr].
    apply find_some in F as [Hin Hm]. apply andb_prop in Hm as [Hto Hpr].
    exists a, b, m. repeat split; try done.
    + by apply list_elem_of_In.
    + by apply bool_decide_eq_true_1 in Hto.
    + apply orb_prop in Hpr as [Hpr|Hpr]; apply bool_decide_eq_true_1 in Hpr; auto.
  - intros (a & b & m & -> & -> & Hin & Hto & Hpr). simpl.
    destruct (find _ _) as [m'|] eqn:F.
    + apply find_some in F as [Hin' _]. apply list_elem_of_In in Hin'.
      destruct (generateLegalMoves_elem s a m' Hin') as (p & Hp & _ & Hfrom & _).
      simpl. unfold Rules.applyMove. rewrite Hfrom.
      rewrite bool_decide_eq_true_2 by done. rewrite Hp. by eexists.
    + exfalso. apply list_elem_of_In in Hin.
      pose proof (find_none _ _ F m Hin) as N. simpl in N.
      rewrite (bool_decide_eq_true_2 _ Hto) in N. simpl in N.
      apply orb_false_elim in N as [N1 N2].
      destruct Hpr as [Hpr|Hpr];
        [by rewrite (bool_decide_eq_true_2 _ Hpr) in N1
        |by rewrite (bool_decide_eq_true_2 _ Hpr) in N2].
Qed.

(** With the rules engine as the library, and the game in play: [handleMove]
    returns [true] exactly for an input that names a legal move of the
    position it reloads from [game.fen()], and an error leaves it for every
    other input; it never returns [false] then. *)
Lemma rules_handleMove_by_legality
  (st : @App.State RulesLib.rulesLib) (from to : string) (promotion : option string)
  (s : Rules.GameState) :
  Lib.newChess (Lib.fen (App.game st)) = inr s ->
  App.gameStatus st = App.playing ->
  let legal :=
    exists (a b : Rules.Square) (m : Rules.Move),
      Notation.parseSquare from = Some a
      /\ Notation.parseSquare to = Some b
      /\ m ∈ Rules.generateLegalMoves s a
      /\ Rules.to m = b
      /\ (Rules.promotion m = None
          \/ Rules.promotion m
             = RulesLib.promotionKind (App.promotionOrQueen promotion)) in
  ((App.handleMove st from to promotion).2 = App.Returned true <-> legal)
  /\ ((App.handleMove st from to promotion).2 = App.Raised <-> ~ legal)
  /\ (App.handleMove st from to promotion).2 <> App.Returned false.
Proof.
  intros Hs Hplay legal.
  pose proof (rules_move_made_iff_legal s from to (App.promotionOrQueen promotion)) as R.
  fold legal in R.
  unfold App.handleMove. rewrite bool_decide_eq_true_2 by exact Hplay.
  cbn [negb]. rewrite Hs.
  change (@Lib.move RulesLib.rulesLib) with RulesLib.move.
  change (@Lib.raises RulesLib.rulesLib) with RulesLib.raises.
  unfold RulesLib.raises.
  destruct (RulesLib.move (inr s)
              (Lib.MoveObject from to (App.promotionOrQueen promotion)))
    as [[g m] |] eqn:E; cbn [snd].
  - assert (Hl : legal) by (apply R; by eexists).
    split; [split; [intros _; exact Hl | reflexivity] |].
    split; [split; [discriminate | intros Hn; destruct (Hn Hl)] | discriminate].
  - assert (Hl : ~ legal) by (intros Hl; apply R in Hl as [? Hl]; discriminate Hl).
    split; [split; [discriminate | intros H; destruct (Hl H)] |].
    split; [split; [intros _; exact Hl | reflexivity] | discriminate].
Qed.


Lemma includes_elem (xs : list string) (x : string) :
  JS.includes xs x = true -> x ∈ xs.
Proof.
  unfold JS.includes. intros H. apply existsb_exists in H as (y & Hin & E).
  apply String.eqb_eq in E. subst y. by apply list_elem_of_In.
Qed.

Section BoardFacts.

Context {L : Lib.ChessJS} {P : Type}.

Lemma handleSquareClick_unfold (props : @ChessBoard.Props P) (square : string)
  (wd : @ChessBoard.World P) :
  ChessBoard.handleSquareClick props square wd
  = match ChessBoard.selectedSquare wd with
    | Some selected =>
        if JS.truthy selected && JS.includes (ChessBoard.getLegalMoves props selected) square
        then
          let (success, parent') :=
            ChessBoard.onMove props selected square (Some "q"%string) (ChessBoard.parent wd) in
          let wd' :=
            {| ChessBoard.selectedSquare := Some selected;
               ChessBoard.possibleMoves := ChessBoard.possibleMoves wd;
               ChessBoard.parent := parent';
               ChessBoard.submitted :=
                 ChessBoard.submitted wd ++ [(selected, square, Some "q"%string)] |} in
          if success then ChessBoard.setSelection None [] wd'
          else ChessBoard.selectOrDeselect props square wd'
        else ChessBoard.selectOrDeselect props square wd
    | None => ChessBoard.selectOrDeselect props square wd
    end.
Proof.
  unfold ChessBoard.handleSquareClick, St.bind, St.gets, ChessBoard.callOnMove.
  destruct (ChessBoard.selectedSquare wd) as [selected|] eqn:E; [|reflexivity].
  destruct (_ && _); [|reflexivity].
  destruct (ChessBoard.onMove props selected square _ _) as [[] parent'];
    rewrite ?E; reflexivity.
Qed.

Lemma submitted_selectOrDeselect (props : @ChessBoard.Props P) (square : string)
  (wd : @ChessBoard.World P) :
  ChessBoard.submitted (ChessBoard.selectOrDeselect props square wd).2
  = ChessBoard.submitted wd.
Proof.
  unfold ChessBoard.selectOrDeselect.
  destruct (ChessBoard.getPiece props square) as [piece|];
    [destruct (ChessBoard.isMyPiece _ piece)|]; reflexivity.
Qed.

(** What a click submits: nothing, or one move from the selected square to
    the clicked square with promotion ['q'], the clicked square being one
    of the legal targets of the selected square. *)
Lemma handleSquareClick_submits (props : @ChessBoard.Props P) (square : string)
  (wd : @ChessBoard.World P) :
  ChessBoard.submittedBy (ChessBoard.handleSquareClick props square) wd = []
  \/ exists selected : string,
       ChessBoard.selectedSquare wd = Some selected
       /\ selected <> EmptyString
       /\ square ∈ ChessBoard.getLegalMoves props selected
       /\ ChessBoard.submittedBy (ChessBoard.handleSquareClick props square) wd
          = [(selected, square, Some "q"%string)].
Proof.
  unfold ChessBoard.submittedBy, St.exec. rewrite handleSquareClick_unfold.
  destruct (ChessBoard.selectedSquare wd) as [selected|] eqn:Hsel;
    [|left; rewrite submitted_selectOrDeselect; apply drop_all].
  destruct (JS.truthy selected && JS.includes _ square) eqn:G;
    [|left; rewrite submitted_selectOrDeselect; apply drop_all].
  apply andb_prop in G as [Ht Hi]. right. exists selected.
  repeat split; [by apply truthy_nonempty|by apply includes_elem|].
  destruct (ChessBoard.onMove props selected square (Some "q"%string) (ChessBoard.parent wd))
    as [[] parent']; cbv zeta.
  - simpl. apply drop_app_length.
  - rewrite submitted_selectOrDeselect. simpl. apply drop_app_length.
Qed.

Lemma selectOrDeselect_selects (props : @ChessBoard.Props P) (square : string)
  (wd : @ChessBoard.World P) :
  match ChessBoard.selectedSquare (ChessBoard.selectOrDeselect props square wd).2 with
  | Some s =>
      s = square
      /\ exists piece : Lib.PieceInfo,
           ChessBoard.getPiece props square = Some piece
           /\ ChessBoard.isMyPiece (ChessBoard.orientation props) piece = true
  | None => True
  end.
Proof.
  unfold ChessBoard.selectOrDeselect.
  destruct (ChessBoard.getPiece props square) as [piece|]; [|exact I].
  destruct (ChessBoard.isMyPiece _ piece) eqn:Hmine; [|exact I].
  simpl. split; [done|]. by exists piece.
Qed.

(** After a click the selection is empty or it is the clicked square, which
    then holds a piece of the colour of the orientation. *)
Lemma handleSquareClick_selects (props : @ChessBoard.Props P) (square : string)
  (wd : @ChessBoard.World P) :
  match ChessBoard.selectedSquare (St.exec (ChessBoard.handleSquareClick props square) wd) with
  | Some s =>
      s = square
      /\ exists piece : Lib.PieceInfo,
           ChessBoard.getPiece props square = Some piece
           /\ ChessBoard.isMyPiece (ChessBoard.orientation props) piece = true
  | None => True
  end.
Proof.
  unfold St.exec. rewrite handleSquareClick_unfold.
  destruct (ChessBoard.selectedSquare wd) as [selected|];
    [|apply selectOrDeselect_selects].
  destruct (JS.truthy selected && JS.includes _ square);
    [|apply selectOrDeselect_selects].
  destruct (ChessBoard.onMove props selected square (Some "q"%string) (ChessBoard.parent wd))
    as [[] parent']; cbv zeta; [exact I|apply selectOrDeselect_selects].
Qed.

End BoardFacts.

(** C9. With the promotion omitted, [handleMove] hands the library the
    move from [from] to [to] with the promotion ['q'], and what it does is
    what the library makes of that input; so it behaves as with the
    promotion ['q'] given (and so does an empty promotion). Every move the
    board component submits carries the promotion ['q']. *)
Theorem omitted_promotion_is_queen
  {L : Lib.ChessJS} {P : Type} (st : App.State) (from to : string)
  (props : @ChessBoard.Props P) (square : string) (wd : @ChessBoard.World P) :
  let newGame := Lib.newChess (Lib.fen (App.game st)) in
  let queen := Lib.MoveObject from to "q" in
  (App.gameStatus st = App.playing ->
   App.handleMove st from to None
   = match Lib.move newGame queen with
     | Some (newGame', move) =>
         ({| App.game := newGame';
             App.orientation := App.orientation st;
             App.gameStatus := App.gameStatus st;
             App.lastMove := Some (from, to);
             App.moveList := App.moveList st ++ [Lib.san move];
             App.botThinking := App.botThinking st;
             App.clockRunning := true |}, App.Returned true)
     | None => (st, if Lib.raises newGame queen then App.Raised else App.Returned false)
     end)
  /\ App.handleMove st from to None = App.handleMove st from to (Some "q"%string)
  /\ App.handleMove st from to (Some ""%string)
     = App.handleMove st from to (Some "q"%string)
  /\ Forall (fun c : string * string * option string => c.2 = Some "q"%string)
       (ChessBoard.submittedBy (ChessBoard.handleSquareClick props square) wd).
Proof.
  intros newGame queen. split; [| split; [reflexivity | split; [reflexivity |]]].
  - intros Hplay. unfold App.handleMove.
    rewrite bool_decide_eq_true_2 by exact Hplay. reflexivity.
  - destruct (handleSquareClick_submits props square wd)
      as [-> | (sel & _ & _ & _ & ->)]; repeat constructor.
Qed.

(** C10. The board calls [onMove] only for a move from the square that is
    selected to the clicked square, and only when the clicked square is
    among the legal targets of the selected square in the position shown;
    and after a click a square is selected only if it is the clicked square
    and holds a piece of the colour of the orientation. *)
Theorem board_submits_only_legal_targets
  {L : Lib.ChessJS} {P : Type}
  (props : @ChessBoard.Props P) (square : string) (wd : @ChessBoard.World P) :
  Forall (fun c : string * string * option string =>
            ChessBoard.selectedSquare wd = Some c.1.1
            /\ c.1.2 = square
            /\ c.1.2 ∈ ChessBoard.getLegalMoves props c.1.1)
    (ChessBoard.submittedBy (ChessBoard.handleSquareClick props square) wd)
  /\ match ChessBoard.selectedSquare
             (St.exec (ChessBoard.handleSquareClick props square) wd) with
     | Some s =>
         s = square
         /\ exists piece : Lib.PieceInfo,
              ChessBoard.getPiece props square = Some piece
              /\ ChessBoard.isMyPiece (ChessBoard.orientation props) piece = true
     | None => True
     end.
Proof.
  split; [|apply handleSquareClick_selects].
  destruct (handleSquareClick_submits props square wd)
    as [->|(sel & Hsel & _ & Hin & ->)]; repeat constructor; done.
Qed.

(** ** The models at work on concrete inputs *)

Example start_position_has_twenty_moves :
  length (Rules.generateAllLegalMoves Rules.initialState) = 20%nat.
Proof. vm_compute. reflexivity. Qed.

Example start_position_round_trips :
  Notation.toFEN Rules.initialState = Samples.startFEN
  /\ Notation.parseFEN Samples.startFEN = inr Rules.initialState.
Proof. split; vm_compute; reflexivity. Qed.

Example handleMove_accepts_e2e4 :
  let r := App.handleMove Samples.newGame "e2" "e4" None in
  r.2 = App.Returned true
  /\ Lib.fen (App.game r.1)
     = "rnbqkbnr/pppppppp/8/8/4P3/8/PPPP1PPP/RNBQKBNR b KQkq e3 0 1"%string
  /\ App.lastMove r.1 = Some ("e2", "e4")%string
  /\ App.moveList r.1 = ["e4"%string].
Proof. vm_compute. repeat split; reflexivity. Qed.

(** A pawn that reaches the last rank with the promotion omitted becomes a
    queen. *)
Example omitted_promotion_makes_a_queen :
  let st := {| App.game := Lib.newChess "8/P7/8/8/8/8/7k/K7 w - - 0 1";
               App.orientation := App.white; App.gameStatus := App.playing;
               App.lastMove := None; App.moveList := [];
               App.botThinking := false; App.clockRunning := false |} in
  let r := App.handleMove st "a7" "a8" None in
  r.2 = App.Returned true
  /\ Lib.fen (App.game r.1) = "Q7/8/8/8/8/8/7k/K7 b - - 0 1"%string
  /\ App.moveList r.1 = ["a8=Q"%string].
Proof. vm_compute. repeat split; reflexivity. Qed.

Example board_selects_then_moves :
  let wd1 := St.exec (ChessBoard.handleSquareClick Samples.boardProps "e2")
               Samples.nothingSelected in
  let wd2 := St.exec (ChessBoard.handleSquareClick Samples.boardProps "e4") wd1 in
  ChessBoard.selectedSquare wd1 = Some "e2"%string
  /\ ChessBoard.possibleMoves wd1 = ["e3"; "e4"]%string
  /\ ChessBoard.submitted wd2 = [("e2", "e4", Some "q")]%string
  /\ ChessBoard.selectedSquare wd2 = None.
Proof. vm_compute. repeat split; reflexivity. Qed.

Example board_ignores_opponent_piece :
  let wd := St.exec (ChessBoard.handleSquareClick Samples.boardProps "e7")
              Samples.nothingSelected in
  ChessBoard.selectedSquare wd = None /\ ChessBoard.submitted wd = [].
Proof. vm_compute. split; reflexivity. Qed.

Example silent_engine_times_out :
  let r := Engine.findBestMove Samples.startFEN None None Samples.loadedEngine in
  Engine.promises
    (Engine.run [Engine.WorkerMessage "bestmove (none)"; Engine.TimerFires 0] r.2) !! r.1
  = Some (Engine.Resolved None).
Proof. vm_compute. reflexivity. Qed.

Example answering_engine_resolves :
  let r := Engine.findBestMove Samples.startFEN None None Samples.loadedEngine in
  Engine.promises
    (Engine.run [Engine.WorkerMessage "bestmove e2e4 ponder e7e5"; Engine.TimerFires 0] r.2) !! r.1
  = Some (Engine.Resolved (Some "e2e4"%string)).
Proof. vm_compute. reflexivity. Qed.

Example shuffled_position :
  Chess960.random960Position Samples.draws
  = "nrbkqbrn/pppppppp/8/8/8/8/PPPPPPPP/NRBKQBRN w KQkq - 0 1"%string.
Proof. vm_compute. reflexivity. Qed.

(** * More properties of the code *)

(** ** Numbers in commands and messages *)

Lemma parseDigits_acc (d : Decimal.uint) (acc : positive) :
  fold_left (fun a c => 10 * a + JS.digitValue c)%Z
    (list_ascii_of_string (NilEmpty.string_of_uint d)) (Z.pos acc)
  = Z.pos (Pos.of_uint_acc d acc).
Proof.
  revert acc. induction d; intros acc; simpl; [reflexivity|..];
    (etransitivity; [|apply IHd]); f_equal; unfold JS.digitValue; simpl; lia.
Qed.

Lemma parseDigits_uint (d : Decimal.uint) :
  JS.parseDigits (NilEmpty.string_of_uint d) = Z.of_uint d.
Proof.
  unfold JS.parseDigits, Z.of_uint.
  induction d; simpl; try reflexivity; try exact IHd;
    apply (parseDigits_acc d).
Qed.

Lemma digits_uint (d : Decimal.uint) :
  forallb JS.isDigit (list_ascii_of_string (NilEmpty.string_of_uint d)) = true.
Proof. induction d; simpl; auto. Qed.

(** For a number that is not negative, [show] writes digits only, at least
    one, and [parseDigits] reads the number back. *)
Lemma show_nonnegative (n : Z) :
  (0 <= n)%Z ->
  exists d : Decimal.uint,
    JS.show n = NilEmpty.string_of_uint d
    /\ JS.parseDigits (JS.show n) = n
    /\ JS.show n <> EmptyString.
Proof.
  intros Hn. unfold JS.show.
  assert (E : exists d, Z.to_int n = Decimal.Pos d).
  { destruct n as [|p|p]; simpl; eauto. lia. }
  destruct E as [d E]. exists d. rewrite E. simpl.
  assert (P : JS.parseDigits (NilEmpty.string_of_uint d) = n).
  { rewrite parseDigits_uint. change (Z.of_uint d) with (Z.of_int (Decimal.Pos d)).
    rewrite <- E. apply DecimalZ.of_to. }
  repeat split; [exact P|].
  intros Hempty. rewrite Hempty in P. unfold JS.parseDigits in P; simpl in P.
  subst n. simpl in E. injection E as <-. discriminate Hempty.
Qed.

Lemma parseInt_digits (s : string) :
  forallb JS.isDigit (list_ascii_of_string s) = true ->
  Engine.parseInt s = JS.toDouble (JS.parseDigits s).
Proof.
  destruct s as [|c s]; [reflexivity|]. simpl. intros H.
  apply andb_prop in H as [H _]. unfold Engine.parseInt.
  destruct c as [[] [] [] [] [] [] [] []]; try reflexivity; discriminate H.
Qed.

(** An integer of at most 53 bits is a double. *)
Lemma toDouble_exact (n : Z) :
  (0 <= n <= 9007199254740992)%Z -> JS.toDouble n = n.
Proof.
  intros Hn. destruct (Z.eq_dec n 9007199254740992%Z) as [-> | Hne]; [reflexivity |].
  unfold JS.toDouble. rewrite Z.abs_eq by lia.
  destruct (Z.leb_spec (Z.log2 n - 52) 0) as [_ | Hlog]; [reflexivity |].
  exfalso. destruct (Z.eq_dec n 0%Z) as [-> | Hpos]; [simpl in Hlog; lia |].
  assert (Hlt : (Z.log2 n < 53)%Z).
  { apply Z.log2_lt_pow2; [lia |]. change (2 ^ 53)%Z with 9007199254740992%Z. lia. }
  lia.
Qed.

Lemma takeWhile_digits (s rest : string) :
  forallb JS.isDigit (list_ascii_of_string s) = true ->
  Obs.endsNumber rest ->
  Engine.takeWhile JS.isDigit (s +:+ rest) = s.
Proof.
  intros Hs Hrest. induction s as [|c s IH]; simpl in *.
  - destruct rest as [|c rest]; [reflexivity|]. simpl in *. by rewrite Hrest.
  - apply andb_prop in Hs as [Hc Hs]. rewrite Hc. f_equal. by apply IH.
Qed.

(** ** Messages of the worker, [handleMessage] *)

Lemma append_cons (c : ascii) (s t : string) :
  (String c s +:+ t = String c (s +:+ t))%string.
Proof. reflexivity. Qed.

Lemma append_empty (t : string) : (EmptyString +:+ t = t)%string.
Proof. reflexivity. Qed.

Lemma search_info_depth (d : Z) (rest : string) :
  (0 <= d)%Z -> Obs.endsNumber rest ->
  Engine.search "depth " Engine.digits ("info depth " +:+ JS.show d +:+ rest)
  = Some (JS.show d).
Proof.
  intros Hd Hrest. destruct (show_nonnegative d Hd) as (u & Hu & _ & Hne).
  assert (T : Engine.takeWhile JS.isDigit (JS.show d +:+ rest) = JS.show d).
  { apply takeWhile_digits; [|done]. rewrite Hu. apply digits_uint. }
  rewrite !append_cons, append_empty.
  cbn. unfold Engine.digits. rewrite T. unfold Engine.nonEmpty.
  destruct (String.eqb_spec (JS.show d) ""); [done|reflexivity].
Qed.

(** X1. An info line that reports the depth [d] of a [go depth d] command
    is read back as depth [d], for every depth from 0 to 2^53, the range in
    which a number holds every integer: the number rendering of the
    commands and the parsing of the messages agree. The result is stored
    in [currentAnalysis] and handed to the analysis callback, if there is
    one, and to no other callback. *)
Theorem info_line_reports_depth_sent (h : Engine.Host) (d : Z) (rest : string) :
  (0 <= d)%Z ->
  (d <= 9007199254740992)%Z ->
  Obs.endsNumber rest ->
  let msg := ("info depth " +:+ JS.show d +:+ rest)%string in
  let h' := St.exec (Engine.handleMessage msg) h in
  Engine.depth (Engine.currentAnalysis (Engine.engine h')) = d
  /\ Spec.callsBy (Engine.handleMessage msg) h
     = match Engine.onAnalysis (Engine.engine h) with
       | Some cb => [Engine.AnalysisCall cb (Engine.currentAnalysis (Engine.engine h'))]
       | None => []
       end.
Proof.
  intros Hd Hmax Hrest msg h'.
  destruct (show_nonnegative d Hd) as (u & Hu & Hparse & _).
  assert (P : Engine.parseInt (JS.show d) = d).
  { rewrite parseInt_digits; [| rewrite Hu; apply digits_uint].
    rewrite Hparse. apply toDouble_exact. lia. }
  pose proof (search_info_depth d rest Hd Hrest) as S. fold msg in S.
  assert (A1 : JS.startsWith msg "info" && Engine.contains msg "depth" = true)
    by reflexivity.
  assert (A2 : JS.startsWith msg "bestmove" = false) by reflexivity.
  unfold h', Spec.callsBy, Engine.handleMessage.
  rewrite A1, A2, S.
  destruct h as [[wk oa ob rd ca] ps ts cs]. destruct oa as [cb|]; cbn.
  - rewrite P. split; [done|]. by rewrite drop_app_length.
  - rewrite P. split; [done|]. by rewrite drop_all.
Qed.

Lemma info_line_witness :
  Engine.depth
    (Engine.currentAnalysis
       (Engine.engine
          (St.exec (Engine.handleMessage "info depth 12 seldepth 3 score cp 31 pv e2e4")
             Samples.loadedEngine)))
  = 12%Z.
Proof.
  refine (proj1 (info_line_reports_depth_sent Samples.loadedEngine 12
                   " seldepth 3 score cp 31 pv e2e4" _ _ _)).
  - lia.
  - lia.
  - reflexivity.
Defined.

(** Beyond 2^53 the depth read back is the nearest double. *)
Example depth_beyond_53_bits_is_rounded :
  Engine.depth
    (Engine.currentAnalysis
       (Engine.engine
          (St.exec (Engine.handleMessage "info depth 9007199254740993")
             Samples.loadedEngine)))
  = 9007199254740992%Z.
Proof. vm_compute. reflexivity. Qed.

#[local] Instance sameOutside_preorder : PreOrder Obs.sameOutside.
Proof.
  split.
  - intros h. repeat split.
  - intros h1 h2 h3 (A1 & A2 & A3 & A4 & A5) (B1 & B2 & B3 & B4 & B5).
    repeat split; congruence.
Qed.

Lemma sameOutside_resolve (p : nat) (v : option string) (h : Engine.Host) :
  Obs.sameOutside h (St.exec (Engine.resolve p v) h).
Proof.
  destruct (resolve_frame p v h) as (E & T & _). unfold Obs.sameOutside.
  rewrite E, T, resolve_length. repeat split.
Qed.

Lemma sameOutside_callOnAnalysis (r : Engine.AnalysisResult) (h : Engine.Host) :
  Obs.sameOutside h (St.exec (Engine.callOnAnalysis r) h).
Proof.
  unfold Engine.callOnAnalysis. apply (preserved_bind _); [apply (preserved_gets _)|].
  intros [cb|] s; [|reflexivity]. repeat split.
Qed.

Lemma sameOutside_callOnBestMove (move : string) (h : Engine.Host) :
  Obs.sameOutside h (St.exec (Engine.callOnBestMove move) h).
Proof.
  unfold Engine.callOnBestMove. apply (preserved_bind _); [apply (preserved_gets _)|].
  intros [|p prev] s; [reflexivity|].
  apply (preserved_bind _); [intros; repeat split|intros _].
  apply (preserved_bind _); [intros; repeat split|intros _].
  apply sameOutside_resolve.
Qed.

Lemma sameOutside_handleMessage (msg : string) (h : Engine.Host) :
  Obs.sameOutside h (St.exec (Engine.handleMessage msg) h).
Proof.
  unfold Engine.handleMessage. apply (preserved_bind _).
  - intros s. destruct (_ && _); [|reflexivity].
    destruct (Engine.search "depth " _ _); [|reflexivity].
    apply (preserved_bind _); [intros; repeat split|intros _].
    apply sameOutside_callOnAnalysis.
  - intros _ s. destruct (JS.startsWith _ _); [|reflexivity].
    destruct (_ !! _); [|reflexivity].
    destruct (_ && _); [apply sameOutside_callOnBestMove|reflexivity].
Qed.



Lemma exec_callOnBestMove (move : string) (h : Engine.Host) :
  St.exec (Engine.callOnBestMove move) h
  = match Engine.onBestMove (Engine.engine h) with
    | Engine.NoCallback => h
    | Engine.Resolver p prev =>
        St.exec (Engine.resolve p (Some move))
          (Engine.set_engine (Engine.set_onBestMove prev)
             (Engine.log (Engine.BestMoveCall move) h))
    end.
Proof.
  unfold Engine.callOnBestMove, St.exec, St.bind, St.gets, St.modify.
  destruct (Engine.onBestMove (Engine.engine h)); reflexivity.
Qed.


(** The two steps of [handleMessage], one after the other. *)
Lemma exec_handleMessage (msg : string) (h : Engine.Host) :
  St.exec (Engine.handleMessage msg) h
  = let h1 :=
      if JS.startsWith msg "info" && Engine.contains msg "depth" then
        match Engine.search "depth " Engine.digits msg with
        | Some d =>
            St.exec (Engine.callOnAnalysis (Obs.reported msg d))
              (Engine.set_engine (Engine.set_currentAnalysis (Obs.reported msg d)) h)
        | None => h
        end
      else h in
    if JS.startsWith msg "bestmove" then
      match JS.split " " msg !! 1%nat with
      | Some move =>
          if JS.truthy move && negb (String.eqb move "(none)")
          then St.exec (Engine.callOnBestMove move) h1
          else h1
      | None => h1
      end
    else h1.
Proof.
  unfold Engine.handleMessage. rewrite exec_bind. cbv zeta.
  destruct (JS.startsWith msg "info" && Engine.contains msg "depth");
    [destruct (Engine.search "depth " Engine.digits msg)|];
    (destruct (JS.startsWith msg "bestmove"); [|reflexivity]);
    (destruct (JS.split " " msg !! 1%nat) as [move|]; [|reflexivity]);
    destruct (JS.truthy move && negb (String.eqb move "(none)")); reflexivity.
Qed.


(** ** Requests and their answers, [findBestMove] *)

Lemma split_nonempty (sep : ascii) (s : string) :
  exists (x : string) (xs : list string), JS.split sep s = x :: xs.
Proof.
  induction s as [|c s (x & xs & IH)]; simpl; [by eexists _, _|].
  destruct (Ascii.eqb c sep); [by eexists _, _|]. rewrite IH. by eexists _, _.
Qed.

Lemma split_bestmove (rest : string) :
  JS.split " " ("bestmove " +:+ rest) !! 1%nat
  = Some (Engine.first (JS.split " " rest)).
Proof.
  rewrite !append_cons, append_empty.
  destruct (split_nonempty " " rest) as (x & xs & E).
  cbn. rewrite E. reflexivity.
Qed.

Lemma guard_intro (move : string) :
  move <> EmptyString -> move <> "(none)"%string ->
  JS.truthy move && negb (String.eqb move "(none)") = true.
Proof.
  intros H1 H2. unfold JS.truthy.
  destruct (String.eqb_spec move ""); [done|].
  destruct (String.eqb_spec move "(none)"); done.
Qed.

Lemma findBestMove_installs (h : Engine.Host) (fen : string) (depth skillLevel : option Z) :
  is_Some (Engine.worker (Engine.engine h)) ->
  let r := Engine.findBestMove fen depth skillLevel h in
  Engine.onBestMove (Engine.engine r.2) = Engine.Resolver r.1 (Engine.onBestMove (Engine.engine h))
  /\ Engine.calls r.2 = Engine.calls h
  /\ is_Some (Engine.worker (Engine.engine r.2)).
Proof.
  intros [posted Hw]. destruct h as [[wk oa ob rd ca] ps ts cs]; simpl in Hw; subst wk.
  repeat split. by eexists.
Qed.

(** What a [bestmove] message with a real move does to a host whose
    callback is the resolver of a pending promise. *)
Lemma answer_delivered (h : Engine.Host) (p : nat) (prev : Engine.BestMoveCb)
  (rest : string) :
  let move := Engine.first (JS.split " " rest) in
  move <> EmptyString -> move <> "(none)"%string ->
  Engine.onBestMove (Engine.engine h) = Engine.Resolver p prev ->
  Engine.promises h !! p = Some Engine.Pending ->
  let h' := St.exec (Engine.handleMessage ("bestmove " +:+ rest)) h in
  Engine.promises h' !! p = Some (Engine.Resolved (Some move))
  /\ (forall q, q <> p -> Engine.promises h' !! q = Engine.promises h !! q)
  /\ Engine.onBestMove (Engine.engine h') = prev
  /\ Engine.calls h' = Engine.calls h ++ [Engine.BestMoveCall move].
Proof.
  intros move H1 H2 Hcb Hp h'. unfold h'. rewrite exec_handleMessage.
  assert (I : JS.startsWith ("bestmove " +:+ rest) "info" = false) by reflexivity.
  assert (B : JS.startsWith ("bestmove " +:+ rest) "bestmove" = true) by reflexivity.
  rewrite I, B, split_bestmove. fold move. simpl andb. cbv zeta.
  rewrite (guard_intro move H1 H2), exec_callOnBestMove, Hcb.
  match goal with
  | |- context [St.exec (Engine.resolve p ?v) ?s] =>
      destruct (resolve_frame p v s) as (E & _ & C); rewrite E, C;
      pose proof (resolve_lookup p v s) as L
  end.
  simpl in L. repeat split.
  - rewrite L. by rewrite bool_decide_eq_true_2.
  - intros q Hq. rewrite L. rewrite bool_decide_eq_false_2; [done|]. by intros [? _].
Qed.

(** X3. When the worker answers a [findBestMove] request with
    [bestmove <move> ...] before anything else happens, the promise of the
    request is resolved with that move, the callback that was installed
    before the request is restored, and the best-move callback has been
    called exactly once. *)
Theorem answer_resolves_request
  (h : Engine.Host) (fen : string) (depth skillLevel : option Z) (rest : string) :
  is_Some (Engine.worker (Engine.engine h)) ->
  let move := Engine.first (JS.split " " rest) in
  move <> EmptyString ->
  move <> "(none)"%string ->
  let (p, h1) := Engine.findBestMove fen depth skillLevel h in
  let h2 := St.exec (Engine.handleMessage ("bestmove " +:+ rest)) h1 in
  Engine.promises h2 !! p = Some (Engine.Resolved (Some move))
  /\ Engine.onBestMove (Engine.engine h2) = Engine.onBestMove (Engine.engine h)
  /\ Engine.calls h2 = Engine.calls h ++ [Engine.BestMoveCall move].
Proof.
  intros Hw move H1 H2.
  pose proof (findBestMove_available h fen depth skillLevel Hw) as (E1 & E2 & _).
  pose proof (findBestMove_installs h fen depth skillLevel Hw) as (Hcb & Hcalls & _).
  destruct (Engine.findBestMove fen depth skillLevel h) as [p h1]. simpl in *.
  assert (Hp : Engine.promises h1 !! p = Some Engine.Pending).
  { subst p. rewrite E2. by rewrite lookup_app_r, Nat.sub_diag. }
  destruct (answer_delivered h1 p _ rest H1 H2 Hcb Hp) as (A & _ & B & C).
  rewrite <- Hcalls. done.
Qed.

Lemma answer_resolves_request_witness :
  Engine.promises
    (St.exec (Engine.handleMessage "bestmove e2e4 ponder e7e5")
       (Engine.findBestMove Samples.startFEN None None Samples.loadedEngine).2) !! 0%nat
  = Some (Engine.Resolved (Some "e2e4"%string)).
Proof.
  refine (proj1 (answer_resolves_request Samples.loadedEngine Samples.startFEN
                   None None "e2e4 ponder e7e5" _ _ _)).
  - exists []. reflexivity.
  - discriminate.
  - discriminate.
Defined.

#[local] Instance keepsSettled_preorder : PreOrder Obs.keepsSettled.
Proof.
  split.
  - intros h p v H. exact H.
  - intros h1 h2 h3 H12 H23 p v H. by apply H23, H12.
Qed.

Lemma keepsSettled_same (f : Engine.Host -> Engine.Host) (h : Engine.Host) :
  Engine.promises (f h) = Engine.promises h ->
  Obs.keepsSettled h (St.exec (St.modify f) h).
Proof.
  intros P p v H. unfold St.exec, St.modify. cbn [snd]. by rewrite P.
Qed.

Lemma keepsSettled_resolve (p : nat) (v : option string) (h : Engine.Host) :
  Obs.keepsSettled h (St.exec (Engine.resolve p v) h).
Proof.
  intros q w H. rewrite resolve_lookup. case_bool_decide as D; [|done].
  destruct D as [-> D]. rewrite D in H. discriminate H.
Qed.

Lemma keepsSettled_newPromise (h : Engine.Host) :
  Obs.keepsSettled h (St.exec Engine.newPromise h).
Proof.
  intros p v H. unfold Engine.newPromise, St.exec; simpl.
  rewrite lookup_app_l; [done|]. by eapply lookup_lt_Some.
Qed.

Lemma keepsSettled_handleMessage (msg : string) (h : Engine.Host) :
  Obs.keepsSettled h (St.exec (Engine.handleMessage msg) h).
Proof.
  rewrite exec_handleMessage. cbv zeta.
  assert (A : Obs.keepsSettled h
    (if JS.startsWith msg "info" && Engine.contains msg "depth" then
       match Engine.search "depth " Engine.digits msg with
       | Some d =>
           St.exec (Engine.callOnAnalysis (Obs.reported msg d))
             (Engine.set_engine (Engine.set_currentAnalysis (Obs.reported msg d)) h)
       | None => h
       end
     else h)).
  { destruct (_ && _); [|reflexivity].
    destruct (Engine.search "depth " Engine.digits msg) as [d|]; [|reflexivity].
    intros p v H. unfold Engine.callOnAnalysis, St.exec, St.bind, St.gets, St.modify.
    cbn. destruct (Engine.onAnalysis (Engine.engine h)); exact H. }
  destruct (JS.startsWith msg "bestmove"); [|exact A].
  destruct (JS.split " " msg !! 1%nat) as [move|]; [|exact A].
  destruct (_ && negb _); [|exact A].
  etransitivity; [exact A|]. rewrite exec_callOnBestMove.
  destruct (Engine.onBestMove _) as [|p prev]; [reflexivity|].
  etransitivity; [|apply keepsSettled_resolve]. intros q w H. exact H.
Qed.

Lemma keepsSettled_perform (r : Engine.Request) (h : Engine.Host) :
  Obs.keepsSettled h (St.exec (Engine.perform r) h).
Proof.
  destruct r; simpl.
  - revert h. unfold Engine.analyze.
    apply (preserved_bind _); [apply (preserved_gets _)|].
    intros [posted|] s.
    + revert s.
      repeat (apply (preserved_bind _); [intros; by apply keepsSettled_same|intros _]).
      intros; by apply keepsSettled_same.
    + unfold Engine.callOnAnalysis. revert s.
      apply (preserved_bind _); [apply (preserved_gets _)|].
      intros [cb|] s; [by apply keepsSettled_same|reflexivity].
  - revert h. apply (preserved_bind _); [|intros _; apply (preserved_ret _)].
    unfold Engine.findBestMove.
    apply (preserved_bind _); [apply keepsSettled_newPromise|intros p].
    apply (preserved_bind _); [apply (preserved_gets _)|].
    intros [posted|].
    + repeat (apply (preserved_bind _);
                [first [apply (preserved_gets _)|intros; by apply keepsSettled_same]
                |intros ?]).
      apply (preserved_ret _).
    + apply (preserved_bind _); [apply keepsSettled_resolve|intros _].
      apply (preserved_ret _).
  - by apply keepsSettled_same.
  - by apply keepsSettled_same.
  - by apply keepsSettled_same.
  - revert h. apply (preserved_bind _); [intros; by apply keepsSettled_same|].
    intros _ s. by apply keepsSettled_same.
Qed.

Lemma keepsSettled_dispatch (ev : Engine.Event) (h : Engine.Host) :
  Obs.keepsSettled h (St.exec (Engine.dispatch ev) h).
Proof.
  destruct ev as [msg|k|r].
  - apply keepsSettled_handleMessage.
  - destruct (Engine.timers h !! k) as [[d [p]]|] eqn:Hk;
      [|rewrite exec_fire_none; [reflexivity|done]].
    rewrite (exec_fire k h d p Hk).
    etransitivity; [|apply keepsSettled_resolve]. intros q w H. exact H.
  - apply keepsSettled_perform.
Qed.

(** X4. A promise that has been resolved keeps its value whatever happens
    afterwards: a timeout that fires late does not turn a delivered move
    into [null], and a second [bestmove] message does not replace it. *)
Theorem settled_promise_keeps_its_value
  (evs : list Engine.Event) (h : Engine.Host) (p : nat) (v : option string) :
  Engine.promises h !! p = Some (Engine.Resolved v) ->
  Engine.promises (Engine.run evs h) !! p = Some (Engine.Resolved v).
Proof.
  revert h. induction evs as [|ev evs IH]; intros h H; simpl; [exact H|].
  apply IH. by apply keepsSettled_dispatch.
Qed.

Lemma settled_promise_witness :
  Engine.promises
    (Engine.run [Engine.TimerFires 0; Engine.WorkerMessage "bestmove d2d4"]
       (St.exec (Engine.handleMessage "bestmove e2e4 ponder e7e5")
          (Engine.findBestMove Samples.startFEN None None Samples.loadedEngine).2)) !! 0%nat
  = Some (Engine.Resolved (Some "e2e4"%string)).
Proof.
  apply (settled_promise_keeps_its_value
           [Engine.TimerFires 0; Engine.WorkerMessage "bestmove d2d4"]).
  reflexivity.
Defined.

(** X5. Answers are matched to requests newest first: after two
    [findBestMove] requests, the first [bestmove] message resolves the
    promise of the second request and leaves the promise of the first
    request pending, with the first request's resolver as the callback
    again. *)
Theorem first_answer_goes_to_latest_request
  (h : Engine.Host) (fen1 fen2 : string) (depth1 skill1 depth2 skill2 : option Z)
  (rest : string) :
  is_Some (Engine.worker (Engine.engine h)) ->
  let move := Engine.first (JS.split " " rest) in
  move <> EmptyString ->
  move <> "(none)"%string ->
  let (p1, h1) := Engine.findBestMove fen1 depth1 skill1 h in
  let (p2, h2) := Engine.findBestMove fen2 depth2 skill2 h1 in
  let h3 := St.exec (Engine.handleMessage ("bestmove " +:+ rest)) h2 in
  Engine.promises h3 !! p2 = Some (Engine.Resolved (Some move))
  /\ Engine.promises h3 !! p1 = Some Engine.Pending
  /\ Engine.onBestMove (Engine.engine h3)
     = Engine.Resolver p1 (Engine.onBestMove (Engine.engine h)).
Proof.
  intros Hw move H1 H2.
  pose proof (findBestMove_available h fen1 depth1 skill1 Hw) as (E1 & E2 & _).
  pose proof (findBestMove_installs h fen1 depth1 skill1 Hw) as (Hcb1 & _ & Hw1).
  destruct (Engine.findBestMove fen1 depth1 skill1 h) as [p1 h1]. simpl in *.
  pose proof (findBestMove_available h1 fen2 depth2 skill2 Hw1) as (F1 & F2 & _).
  pose proof (findBestMove_installs h1 fen2 depth2 skill2 Hw1) as (Hcb2 & _ & _).
  destruct (Engine.findBestMove fen2 depth2 skill2 h1) as [p2 h2]. simpl in *.
  assert (Hp2 : Engine.promises h2 !! p2 = Some Engine.Pending).
  { subst p2. rewrite F2. by rewrite lookup_app_r, Nat.sub_diag. }
  assert (Hp1 : Engine.promises h2 !! p1 = Some Engine.Pending).
  { rewrite F2, E2, E1. rewrite lookup_app_l by (rewrite length_app; simpl; lia).
    by rewrite lookup_app_r, Nat.sub_diag. }
  assert (Hne : p1 <> p2).
  { subst p1 p2. rewrite E2, length_app. simpl. lia. }
  destruct (answer_delivered h2 p2 _ rest H1 H2 Hcb2 Hp2) as (A & B & C & _).
  repeat split; [exact A|by rewrite B|by rewrite C].
Qed.

Lemma first_answer_witness :
  let h1 := (Engine.findBestMove Samples.startFEN None None Samples.loadedEngine).2 in
  let h2 := (Engine.findBestMove Samples.startFEN None None h1).2 in
  Engine.promises (St.exec (Engine.handleMessage "bestmove e2e4") h2) !! 0%nat
  = Some Engine.Pending.
Proof.
  refine (proj1 (proj2 (first_answer_goes_to_latest_request Samples.loadedEngine
            Samples.startFEN Samples.startFEN None None None None "e2e4" _ _ _))).
  - exists []. reflexivity.
  - discriminate.
  - discriminate.
Defined.

(** ** The worker reference and the commands posted *)

Lemma worker_perform_destroyed (r : Engine.Request) (h : Engine.Host) :
  Obs.destroyed h -> Obs.destroyed (St.exec (Engine.perform r) h).
Proof.
  unfold Obs.destroyed. intros Hw.
  destruct h as [[wk oa ob rd ca] ps ts cs]; simpl in Hw; subst wk.
  destruct r; try reflexivity.
  - destruct oa; reflexivity.
  - simpl. unfold Engine.findBestMove, Engine.newPromise, St.exec, St.bind, St.gets, St.ret.
    cbn [fst snd Engine.engine Engine.worker Engine.promises].
    match goal with
    | |- context [Engine.resolve ?p ?v ?s] =>
        change (Engine.resolve p v s) with ((tt, St.exec (Engine.resolve p v) s));
        destruct (resolve_frame p v s) as (E & _ & _)
    end.
    cbn [fst snd]. by rewrite E.
Qed.

Lemma destroyed_dispatch (ev : Engine.Event) (h : Engine.Host) :
  Obs.destroyed h -> Obs.destroyed (St.exec (Engine.dispatch ev) h).
Proof.
  unfold Obs.destroyed. intros Hw. destruct ev as [msg|k|r].
  - destruct (sameOutside_handleMessage msg h) as (E & _). simpl. by rewrite E.
  - destruct (Engine.timers h !! k) as [[d [p]]|] eqn:Hk;
      [|by rewrite exec_fire_none].
    rewrite (exec_fire k h d p Hk).
    match goal with
    | |- context [St.exec (Engine.resolve p ?v) ?s] =>
        destruct (resolve_frame p v s) as (E & _ & _); by rewrite E
    end.
  - by apply worker_perform_destroyed.
Qed.

Lemma destroyed_run (evs : list Engine.Event) (h : Engine.Host) :
  Obs.destroyed h -> Obs.destroyed (Engine.run evs h).
Proof.
  revert h. induction evs as [|ev evs IH]; intros h H; simpl; [exact H|].
  by apply IH, destroyed_dispatch.
Qed.

(** X6. After [destroy] the engine is without a worker until [init] is
    called again: whatever messages, timers and calls of [analyze],
    [findBestMove], [stop], [setSkillLevel], [setOnAnalysis] and [destroy]
    follow, the worker reference stays [null], so every later
    [findBestMove] resolves to [null] at once and every later [analyze]
    posts nothing. Only a new call of [init] that gets a worker sets the
    reference again. *)
Theorem destroy_lasts_until_init
  (evs : list Engine.Event) (h : Engine.Host) (fen : string)
  (depth skillLevel : option Z) :
  let h' := Engine.run evs (St.exec Engine.destroy h) in
  Obs.destroyed h'
  /\ (let (p, h'') := Engine.findBestMove fen depth skillLevel h' in
      Engine.promises h'' !! p = Some (Engine.Resolved None))
  /\ Obs.destroyed (St.exec (Engine.analyze fen depth) h')
  /\ Engine.worker (Engine.engine (Init.host (Init.init Init.WorkerStarts h')))
     = Some ["uci"%string]
  /\ Obs.destroyed (Init.host (Init.init Init.WorkerFails h'))
  /\ Obs.destroyed (Init.host (Init.init Init.NoWindow h')).
Proof.
  intros h'.
  assert (D : Obs.destroyed h').
  { apply destroyed_run. destruct h as [[wk oa ob rd ca] ps ts cs]. reflexivity. }
  split; [exact D|]. split; [| split; [| split; [| split]]].
  - pose proof (findBestMove_unavailable h' fen depth skillLevel D) as [E1 E2].
    destruct (Engine.findBestMove fen depth skillLevel h') as [p h'']; simpl in E1, E2.
    subst p. rewrite E2. by rewrite lookup_app_r, Nat.sub_diag.
  - exact (worker_perform_destroyed (Engine.Analyze fen depth) h' D).
  - destruct h' as [[wk oa ob rd ca] ps ts cs]. reflexivity.
  - reflexivity.
  - exact D.
Qed.

(** ** The page's engine: [start] and its one-time handler *)

Lemma page_onmessage_cases (msg : string) (h : PageEngine.Host) :
  let h' := St.exec (PageEngine.onmessage msg) h in
  PageEngine.worker (PageEngine.engine h') = PageEngine.worker (PageEngine.engine h)
  /\ PageEngine.ready (PageEngine.engine h')
     = (PageEngine.ready (PageEngine.engine h) || Engine.contains msg "uciok")
  /\ match PageEngine.messageHandler (PageEngine.engine h) with
     | PageEngine.NoHandler =>
         PageEngine.messageHandler (PageEngine.engine h') = PageEngine.NoHandler
         /\ PageEngine.onMoveCalls h' = PageEngine.onMoveCalls h
     | PageEngine.BestMoveHandler cb =>
         if JS.startsWith msg "bestmove" then
           PageEngine.messageHandler (PageEngine.engine h') = PageEngine.NoHandler
           /\ PageEngine.onMoveCalls h'
              = PageEngine.onMoveCalls h
                ++ match JS.split " " msg !! 1%nat with
                   | Some move =>
                       if JS.truthy move && negb (String.eqb move "(none)")
                       then [(cb, move)] else []
                   | None => []
                   end
         else
           PageEngine.messageHandler (PageEngine.engine h') = PageEngine.BestMoveHandler cb
           /\ PageEngine.onMoveCalls h' = PageEngine.onMoveCalls h
     end.
Proof.
  destruct h as [[wk rd mh] cs].
  unfold PageEngine.onmessage, PageEngine.handler, St.exec, St.bind, St.gets,
    St.modify, St.ret, PageEngine.callOnMove.
  cbn [PageEngine.engine PageEngine.ready PageEngine.onMoveCalls PageEngine.worker
       PageEngine.messageHandler PageEngine.set_engine PageEngine.set_ready
       PageEngine.set_messageHandler fst snd].
  destruct rd, (Engine.contains msg "uciok"); cbn;
    (destruct mh as [|cb]; [done|]);
    (destruct (JS.startsWith msg "bestmove"); [|done]);
    (destruct (JS.split " " msg !! 1%nat) as [move|]; [|by rewrite app_nil_r]);
    (destruct (JS.truthy move && negb (String.eqb move "(none)"));
       [done|by rewrite app_nil_r]).
Qed.

Lemma page_start_usable (fen : string) (depth skillLevel : Z) (cb : nat)
  (h : PageEngine.Host) :
  PageLoop.usable h ->
  let h' := St.exec (PageEngine.start fen depth skillLevel cb) h in
  PageLoop.usable h'
  /\ PageEngine.messageHandler (PageEngine.engine h') = PageEngine.BestMoveHandler cb
  /\ PageEngine.onMoveCalls h' = PageEngine.onMoveCalls h.
Proof.
  intros [[posted Hw] Hr]. destruct h as [[wk rd mh] cs]; simpl in Hw, Hr; subst wk rd.
  repeat split. by eexists.
Qed.

Lemma page_start_unusable (fen : string) (depth skillLevel : Z) (cb : nat)
  (h : PageEngine.Host) :
  PageEngine.ready (PageEngine.engine h) = false ->
  St.exec (PageEngine.start fen depth skillLevel cb) h = h.
Proof.
  intros Hr. destruct h as [[wk rd mh] cs]; simpl in Hr; subst rd.
  destruct wk; reflexivity.
Qed.

Lemma page_run_received (msg : string) (msgs : list string) (h : PageEngine.Host) :
  PageLoop.run (PageLoop.Received <$> (msg :: msgs)) h
  = PageLoop.run (PageLoop.Received <$> msgs) (St.exec (PageEngine.onmessage msg) h).
Proof. reflexivity. Qed.

Lemma page_run_started (fen : string) (d s : Z) (cb : nat) (evs : list PageLoop.Event)
  (h : PageEngine.Host) :
  PageLoop.run (PageLoop.Started fen d s cb :: evs) h
  = PageLoop.run evs (St.exec (PageEngine.start fen d s cb) h).
Proof. reflexivity. Qed.

(** Once the handler is gone, messages lead to no call. *)
Lemma page_messages_without_handler (msgs : list string) (h : PageEngine.Host) :
  PageEngine.messageHandler (PageEngine.engine h) = PageEngine.NoHandler ->
  PageEngine.onMoveCalls (PageLoop.run (PageLoop.Received <$> msgs) h)
  = PageEngine.onMoveCalls h.
Proof.
  revert h. induction msgs as [|msg msgs IH]; intros h Hm; [reflexivity|].
  rewrite page_run_received. pose proof (page_onmessage_cases msg h) as (_ & _ & C).
  rewrite Hm in C. destruct C as [C1 C2]. by rewrite IH, C2.
Qed.

Lemma page_messages_with_handler (msgs : list string) (h : PageEngine.Host) (cb : nat) :
  PageEngine.messageHandler (PageEngine.engine h) = PageEngine.BestMoveHandler cb ->
  PageLoop.callsSince h (PageLoop.run (PageLoop.Received <$> msgs) h) = []
  \/ exists move : string,
       move <> EmptyString /\ move <> "(none)"%string
       /\ PageLoop.callsSince h (PageLoop.run (PageLoop.Received <$> msgs) h)
          = [(cb, move)].
Proof.
  unfold PageLoop.callsSince.
  revert h. induction msgs as [|msg msgs IH]; intros h Hm.
  - left. simpl. apply drop_all.
  - rewrite page_run_received.
    pose proof (page_onmessage_cases msg h) as (_ & _ & C).
    rewrite Hm in C. destruct (JS.startsWith msg "bestmove").
    + destruct C as [C1 C2].
      rewrite (page_messages_without_handler msgs _ C1), C2.
      destruct (JS.split " " msg !! 1%nat) as [move|];
        [|left; by rewrite app_nil_r, drop_all].
      destruct (JS.truthy move && negb (String.eqb move "(none)")) eqn:G;
        [|left; by rewrite app_nil_r, drop_all].
      right. exists move. destruct (guarded_move move G) as [G1 G2].
      repeat split; [done..|]. by rewrite drop_app_length.
    + destruct C as [C1 C2]. destruct (IH _ C1) as [E|(move & G1 & G2 & E)].
      * left. by rewrite <- C2.
      * right. exists move. by rewrite <- C2.
Qed.

(** X8. The handler [start] installs is used once: after [start] with the
    callback [cb] on a usable engine, whatever messages the worker sends,
    [onMove] is called at most once, with a real move, and the callback
    called is [cb]; a callback a previous [start] was still waiting with is
    never called. *)
Theorem start_calls_back_at_most_once
  (fen : string) (depth skillLevel : Z) (cb : nat) (msgs : list string)
  (h : PageEngine.Host) :
  PageLoop.usable h ->
  let calls :=
    PageLoop.callsSince h
      (PageLoop.run (PageLoop.Started fen depth skillLevel cb
                       :: (PageLoop.Received <$> msgs)) h) in
  calls = []
  \/ exists move : string,
       move <> EmptyString /\ move <> "(none)"%string /\ calls = [(cb, move)].
Proof.
  intros Hu calls. unfold calls. rewrite page_run_started.
  destruct (page_start_usable fen depth skillLevel cb h Hu) as (_ & Hm & Hc).
  pose proof (page_messages_with_handler msgs _ cb Hm) as H.
  unfold PageLoop.callsSince in *. rewrite Hc in H. exact H.
Qed.

Lemma start_calls_back_witness :
  PageLoop.callsSince Samples.loadedPageEngine
    (PageLoop.run
       [PageLoop.Started Samples.startFEN 10 20 1;
        PageLoop.Started Samples.startFEN 10 20 2;
        PageLoop.Received "info depth 1";
        PageLoop.Received "bestmove e2e4";
        PageLoop.Received "bestmove d2d4"]
       Samples.loadedPageEngine)
  = [(2%nat, "e2e4"%string)].
Proof.
  assert (Hu : PageLoop.usable
                 (St.exec (PageEngine.start Samples.startFEN 10 20 1)
                    Samples.loadedPageEngine)).
  { split; [by eexists|reflexivity]. }
  destruct (start_calls_back_at_most_once Samples.startFEN 10 20 2
              ["info depth 1"; "bestmove e2e4"; "bestmove d2d4"]%string _ Hu)
    as [E|(move & _ & _ & E)]; [discriminate E|].
  reflexivity.
Defined.

(** X9. Lines that do not start with [bestmove] leave the handler in
    place: after [start], any number of such lines followed by
    [bestmove <move> ...] gives exactly one call of [onMove], with that
    move, and removes the handler. *)
Theorem start_then_answer_calls_back
  (fen : string) (depth skillLevel : Z) (cb : nat) (infos : list string)
  (rest : string) (h : PageEngine.Host) :
  PageLoop.usable h ->
  Forall (fun msg => JS.startsWith msg "bestmove" = false) infos ->
  let move := Engine.first (JS.split " " rest) in
  move <> EmptyString ->
  move <> "(none)"%string ->
  let h' :=
    PageLoop.run (PageLoop.Started fen depth skillLevel cb
                    :: (PageLoop.Received <$> (infos ++ ["bestmove " +:+ rest]))) h in
  PageLoop.callsSince h h' = [(cb, move)]
  /\ PageEngine.messageHandler (PageEngine.engine h') = PageEngine.NoHandler.
Proof.
  intros Hu Hinfos move H1 H2. cbv zeta. rewrite page_run_started.
  destruct (page_start_usable fen depth skillLevel cb h Hu) as (_ & Hm & Hc).
  unfold PageLoop.callsSince. rewrite <- Hc. clear Hc.
  generalize dependent (St.exec (PageEngine.start fen depth skillLevel cb) h).
  clear h Hu. intros h Hm.
  induction Hinfos as [|msg infos Hmsg _ IH] in h, Hm |- *;
    [change ([] ++ ["bestmove " +:+ rest]) with ["bestmove " +:+ rest]
    |rewrite <- app_comm_cons]; rewrite page_run_received.
  - change (PageLoop.run (PageLoop.Received <$> []) ?x) with x.
    pose proof (page_onmessage_cases ("bestmove " +:+ rest) h) as (_ & _ & C).
    rewrite Hm in C.
    assert (B : JS.startsWith ("bestmove " +:+ rest) "bestmove" = true) by reflexivity.
    rewrite B, split_bestmove in C. fold move in C.
    rewrite (guard_intro move H1 H2) in C. destruct C as [C1 C2].
    rewrite C2. split; [by rewrite drop_app_length|done].
  - pose proof (page_onmessage_cases msg h) as (_ & _ & C).
    rewrite Hm, Hmsg in C. destruct C as [C1 C2].
    destruct (IH _ C1) as [E1 E2]. rewrite C2 in E1. done.
Qed.

Lemma start_then_answer_witness :
  PageLoop.callsSince Samples.loadedPageEngine
    (PageLoop.run
       [PageLoop.Started Samples.startFEN 10 20 1;
        PageLoop.Received "info depth 1 score cp 20 pv e2e4";
        PageLoop.Received "bestmove e2e4 ponder e7e5"]
       Samples.loadedPageEngine)
  = [(1%nat, "e2e4"%string)].
Proof.
  refine (proj1 (start_then_answer_calls_back Samples.startFEN 10 20 1
                   ["info depth 1 score cp 20 pv e2e4"%string] "e2e4 ponder e7e5"
                   Samples.loadedPageEngine _ _ _ _)).
  - split; [by eexists|reflexivity].
  - repeat constructor.
  - discriminate.
  - discriminate.
Defined.

Lemma page_inert_dispatch (ev : PageLoop.Event) (h : PageEngine.Host) :
  PageEngine.ready (PageEngine.engine h) = false ->
  PageEngine.messageHandler (PageEngine.engine h) = PageEngine.NoHandler ->
  match ev with
  | PageLoop.Received msg => Engine.contains msg "uciok" = false
  | PageLoop.Started _ _ _ _ => True
  end ->
  St.exec (PageLoop.dispatch ev) h = h.
Proof.
  intros Hr Hm Hev. destruct ev as [msg|fen d s cb]; simpl.
  - destruct h as [[wk rd mh] cs]; simpl in Hr, Hm; subst rd mh.
    unfold PageEngine.onmessage, St.exec, St.bind, St.gets. cbn. by rewrite Hev.
  - by apply page_start_unusable.
Qed.

(** X10. Until the worker has sent a message containing [uciok], the
    page's engine is inert: [start] posts nothing and installs no handler,
    messages lead to no call, and the state stays exactly as it was. *)
Theorem engine_inert_before_uciok (evs : list PageLoop.Event) (h : PageEngine.Host) :
  PageEngine.ready (PageEngine.engine h) = false ->
  PageEngine.messageHandler (PageEngine.engine h) = PageEngine.NoHandler ->
  Forall (fun ev => match ev with
                    | PageLoop.Received msg => Engine.contains msg "uciok" = false
                    | PageLoop.Started _ _ _ _ => True
                    end) evs ->
  PageLoop.run evs h = h.
Proof.
  intros Hr Hm Hevs. induction Hevs as [|ev evs Hev _ IH]; [reflexivity|].
  simpl. rewrite (page_inert_dispatch ev h Hr Hm Hev). exact IH.
Qed.

Lemma engine_inert_witness :
  PageLoop.run
    [PageLoop.Started Samples.startFEN 10 20 1; PageLoop.Received "bestmove e2e4"]
    {| PageEngine.engine :=
         {| PageEngine.worker := Some []; PageEngine.ready := false;
            PageEngine.messageHandler := PageEngine.NoHandler |};
       PageEngine.onMoveCalls := [] |}
  = {| PageEngine.engine :=
         {| PageEngine.worker := Some []; PageEngine.ready := false;
            PageEngine.messageHandler := PageEngine.NoHandler |};
       PageEngine.onMoveCalls := [] |}.
Proof.
  apply engine_inert_before_uciok; [reflexivity|reflexivity|].
  repeat constructor.
Defined.

(** ** The page: clocks, end of the game, bot *)

Section PageFacts.

Context {L : Lib.ChessJS}.

Lemma view_eta (v : Page.View) : Page.set_app (fun a => a) v = v.
Proof. destruct v; reflexivity. Qed.

Lemma tick_counts (turn : Lib.PieceColor) (v : Page.View) :
  Page.ticking v = true -> (0 < Page.timeOf turn v)%Z ->
  Page.timeOf turn (Page.tick turn v) = (Page.timeOf turn v - 1)%Z
  /\ Page.timeOf (Page.other turn) (Page.tick turn v) = Page.timeOf (Page.other turn) v
  /\ Page.app (Page.tick turn v) = Page.app v.
Proof.
  intros Ht Hpos. unfold Page.tick. rewrite Ht.
  destruct turn; simpl in *.
  - destruct (Z.leb_spec (Page.whiteTime v) 0) as [Hle | _];
      [lia | repeat split; reflexivity].
  - destruct (Z.leb_spec (Page.blackTime v) 0) as [Hle | _];
      [lia | repeat split; reflexivity].
Qed.

Lemma tick_flags (turn : Lib.PieceColor) (v : Page.View) :
  Page.ticking v = true -> (Page.timeOf turn v <= 0)%Z ->
  Page.timeOf turn (Page.tick turn v) = 0%Z
  /\ Page.timeOf (Page.other turn) (Page.tick turn v) = Page.timeOf (Page.other turn) v
  /\ Page.app (Page.tick turn v) = Page.set_status App.timeout false (Page.app v).
Proof.
  intros Ht Hle. unfold Page.tick. rewrite Ht.
  destruct turn; simpl in *.
  - destruct (Z.leb_spec (Page.whiteTime v) 0) as [_ | Hlt];
      [repeat split; reflexivity | lia].
  - destruct (Z.leb_spec (Page.blackTime v) 0) as [_ | Hlt];
      [repeat split; reflexivity | lia].
Qed.

Lemma ticking_app (v v' : Page.View) :
  Page.app v' = Page.app v -> Page.ticking v' = Page.ticking v.
Proof. unfold Page.ticking. intros ->. reflexivity. Qed.

Lemma countdown (turn : Lib.PieceColor) (v : Page.View) (n : nat) :
  Page.ticking v = true -> (Z.of_nat n <= Page.timeOf turn v)%Z ->
  let v' := Nat.iter n (Page.tick turn) v in
  Page.timeOf turn v' = (Page.timeOf turn v - Z.of_nat n)%Z
  /\ Page.timeOf (Page.other turn) v' = Page.timeOf (Page.other turn) v
  /\ Page.app v' = Page.app v.
Proof.
  intros Ht. induction n as [| n IH]; intros Hn.
  - simpl. repeat split; lia.
  - destruct IH as (IH1 & IH2 & IH3); [lia |].
    change (Nat.iter (S n) (Page.tick turn) v)
      with (Page.tick turn (Nat.iter n (Page.tick turn) v)).
    set (u := Nat.iter n (Page.tick turn) v) in *.
    destruct (tick_counts turn u) as (T1 & T2 & T3).
    + rewrite (ticking_app v u IH3). exact Ht.
    + lia.
    + cbv zeta. rewrite T1, T2, T3, IH1, IH2, IH3. repeat split; lia.
Qed.

(** X11. While the clock ticks for the side to move, [n] ticks take [n]
    seconds off that side's clock and change nothing else, as long as [n]
    is at most the time on the clock; the tick after the clock has reached
    zero ends the game on time: a clock of [t] seconds lasts [t + 1]
    ticks. *)
Theorem clock_counts_down_then_flags (turn : Lib.PieceColor) (v : Page.View) (n : nat) :
  Page.ticking v = true ->
  (0 <= Page.timeOf turn v)%Z ->
  let t := Page.timeOf turn v in
  let v' := Nat.iter n (Page.tick turn) v in
  ((Z.of_nat n <= t)%Z ->
     Page.timeOf turn v' = (t - Z.of_nat n)%Z
     /\ Page.timeOf (Page.other turn) v' = Page.timeOf (Page.other turn) v
     /\ Page.app v' = Page.app v)
  /\ ((Z.of_nat n = t + 1)%Z ->
     Page.timeOf turn v' = 0%Z
     /\ Page.timeOf (Page.other turn) v' = Page.timeOf (Page.other turn) v
     /\ App.gameStatus (Page.app v') = App.timeout
     /\ App.clockRunning (Page.app v') = false
     /\ App.game (Page.app v') = App.game (Page.app v)
     /\ App.moveList (Page.app v') = App.moveList (Page.app v)).
Proof.
  intros Ht H0 t v'. split.
  - intros Hn. exact (countdown turn v n Ht Hn).
  - intros Hn. destruct n as [| n]; [lia |].
    subst v'.
    change (Nat.iter (S n) (Page.tick turn) v)
      with (Page.tick turn (Nat.iter n (Page.tick turn) v)).
    destruct (countdown turn v n Ht) as (C1 & C2 & C3); [subst t; lia |].
    set (u := Nat.iter n (Page.tick turn) v) in *.
    destruct (tick_flags turn u) as (T1 & T2 & T3).
    + rewrite (ticking_app v u C3). exact Ht.
    + subst t; lia.
    + rewrite T1, T2, T3, C2, C3. repeat split; reflexivity.
Qed.

End PageFacts.

Lemma clock_counts_down_witness :
  Page.timeOf Lib.w (Nat.iter 3 (Page.tick Lib.w) (PageSamples.botToMove true)) = 597%Z.
Proof.
  refine (proj1 (proj1 (clock_counts_down_then_flags Lib.w (PageSamples.botToMove true)
                          3 _ _) _)).
  - reflexivity.
  - simpl. lia.
  - simpl. lia.
Defined.

Section PageRuns.

Context {L : Lib.ChessJS}.

Lemma run_cons (ev : Page.Event) (evs : list Page.Event) (v : Page.View) :
  Page.run (ev :: evs) v = Page.run evs (Page.step ev v).
Proof. reflexivity. Qed.

Lemma run_app (evs1 evs2 : list Page.Event) (v : Page.View) :
  Page.run (evs1 ++ evs2) v = Page.run evs2 (Page.run evs1 v).
Proof. unfold Page.run. apply fold_left_app. Qed.

Ltac step_cases :=
  unfold Page.step, Page.move, Page.tick, Page.botEffect, Page.botMove,
    Page.togglePause, Page.flipBoard, Page.resign, Page.offerDraw, Page.newGame,
    Page.chooseVariant, Page.checkGameOver, Page.analysisEffect, Page.set_botThinking,
    Page.handleBotMoveFrom, App.handleMove, Page.set_whiteTime, Page.set_blackTime,
    Page.set_app, Page.set_status, App.set_botThinking;
  repeat case_match; simpl in *.

Lemma step_times (ev : Page.Event) (v : Page.View) :
  (0 <= Page.timeControl v)%Z -> (0 <= Page.whiteTime v)%Z -> (0 <= Page.blackTime v)%Z ->
  Page.timeControl (Page.step ev v) = Page.timeControl v
  /\ (0 <= Page.whiteTime (Page.step ev v)
      <= Z.max (Page.whiteTime v) (Page.timeControl v))%Z
  /\ (0 <= Page.blackTime (Page.step ev v)
      <= Z.max (Page.blackTime v) (Page.timeControl v))%Z.
Proof.
  intros Hc Hw Hb. destruct ev; step_cases; lia.
Qed.

(** X12. Whatever happens on the page (moves, ticks, the bot, the buttons,
    new games), the time control stays what it was, and neither clock goes
    below zero or above the larger of its starting value and the time
    control. *)
Theorem clocks_stay_within_bounds (evs : list Page.Event) (v : Page.View) :
  (0 <= Page.timeControl v)%Z -> (0 <= Page.whiteTime v)%Z -> (0 <= Page.blackTime v)%Z ->
  Page.timeControl (Page.run evs v) = Page.timeControl v
  /\ (0 <= Page.whiteTime (Page.run evs v)
      <= Z.max (Page.whiteTime v) (Page.timeControl v))%Z
  /\ (0 <= Page.blackTime (Page.run evs v)
      <= Z.max (Page.blackTime v) (Page.timeControl v))%Z.
Proof.
  revert v. induction evs as [| ev evs IH]; intros v Hc Hw Hb.
  - simpl. lia.
  - rewrite run_cons.
    destruct (step_times ev v Hc Hw Hb) as (S1 & S2 & S3).
    destruct (IH (Page.step ev v)) as (I1 & I2 & I3); [lia | lia | lia |].
    rewrite I1, S1 in *. lia.
Qed.

Lemma step_finished (ev : Page.Event) (v : Page.View) :
  Page.ofPlay ev = true -> App.gameStatus (Page.app v) <> App.playing ->
  Page.step ev v = v.
Proof.
  intros Hev Hs. destruct v as [a ? ? ? ? ? ? ? ? ? ?]. destruct a. simpl in Hs.
  destruct ev; try discriminate Hev; unfold Page.step.
  - unfold Page.move, App.handleMove, Page.set_app. simpl.
    rewrite bool_decide_eq_false_2 by exact Hs. reflexivity.
  - unfold Page.tick, Page.ticking. simpl.
    rewrite bool_decide_eq_false_2 by exact Hs. rewrite andb_false_r. reflexivity.
  - unfold Page.botEffect, Page.botIsDue. simpl.
    rewrite bool_decide_eq_false_2 by exact Hs. rewrite andb_false_r. reflexivity.
  - simpl. rewrite bool_decide_eq_false_2 by exact Hs. reflexivity.
  - simpl. rewrite bool_decide_eq_false_2 by exact Hs. reflexivity.
  - unfold Page.analysisEffect. simpl.
    rewrite bool_decide_eq_false_2 by exact Hs. reflexivity.
Qed.

(** X13. Once the status is no longer [playing] (after a resignation, an
    agreed draw, a flag fall or the end of the game on the board), moves
    from the board, ticks of the clock, the bot effect, the pause and draw
    buttons and the analysis effect leave the whole state of the page as
    it is. *)
Theorem finished_game_stays_as_it_is (evs : list Page.Event) (v : Page.View) :
  forallb Page.ofPlay evs = true ->
  App.gameStatus (Page.app v) <> App.playing ->
  Page.run evs v = v.
Proof.
  induction evs as [| ev evs IH]; intros Hevs Hs; [reflexivity |].
  simpl in Hevs. apply andb_true_iff in Hevs as [Hev Hevs].
  rewrite run_cons, (step_finished ev v Hev Hs). exact (IH Hevs Hs).
Qed.

Lemma step_thinking (ev : Page.Event) (v : Page.View) :
  Page.isBotMoved ev = false -> App.botThinking (Page.app v) = true ->
  App.botThinking (Page.app (Page.step ev v)) = true.
Proof.
  intros Hev Ht. destruct ev; try discriminate Hev; step_cases; congruence.
Qed.

(** X14. The bot is asked once: from the moment the bot effect has set
    [botThinking], nothing that happens on the page except the call of
    [handleBotMove] clears the flag, so that the bot effect asks neither
    the engine nor the fallback again: not after further moves, not after
    the end of the game, and not in a new game. *)
Theorem bot_is_asked_once (evs : list Page.Event) (v : Page.View)
  (turn : Lib.PieceColor) (engineReady : bool) :
  forallb (fun ev => negb (Page.isBotMoved ev)) evs = true ->
  App.botThinking (Page.app v) = true ->
  App.botThinking (Page.app (Page.run evs v)) = true
  /\ Page.botEffect turn engineReady (Page.run evs v) = (Page.run evs v, None).
Proof.
  intros Hevs Ht.
  assert (Hrun : App.botThinking (Page.app (Page.run evs v)) = true).
  { revert v Ht. induction evs as [| ev evs IH]; intros v Ht; [exact Ht |].
    simpl in Hevs. apply andb_true_iff in Hevs as [Hev Hevs].
    rewrite run_cons. apply (IH Hevs). apply step_thinking; [| exact Ht].
    destruct (Page.isBotMoved ev); [discriminate Hev | reflexivity]. }
  split; [exact Hrun |].
  unfold Page.botEffect, Page.botIsDue. rewrite Hrun.
  rewrite andb_false_r. reflexivity.
Qed.

Lemma step_stalemate (ev : Page.Event) (v : Page.View) :
  Page.drawCoversStalemate ev = true ->
  App.gameStatus (Page.app v) <> App.stalemate ->
  App.gameStatus (Page.app (Page.step ev v)) <> App.stalemate.
Proof.
  intros Hev Hs. destruct ev; step_cases; try congruence; try discriminate.
Qed.

(** X15. The effect that checks for the end of the game asks [isDraw()]
    before [isStalemate()]: with a library whose [isDraw()] holds in every
    stalemate, the status never becomes [stalemate], a stalemate is shown
    as a draw. *)
Theorem stalemate_is_reported_as_draw (evs : list Page.Event) (v : Page.View) :
  forallb Page.drawCoversStalemate evs = true ->
  App.gameStatus (Page.app v) <> App.stalemate ->
  App.gameStatus (Page.app (Page.run evs v)) <> App.stalemate.
Proof.
  intros Hevs. revert v. induction evs as [| ev evs IH]; intros v Hs; [exact Hs |].
  simpl in Hevs. apply andb_true_iff in Hevs as [Hev Hevs].
  rewrite run_cons. apply (IH Hevs). apply step_stalemate; assumption.
Qed.

(** X16. [handleBotMove] plays the bot's move in the position of the
    moment the bot effect ran. Whatever happens between the effect and the
    answer (a new game, a move made after the board was flipped), the
    answer puts that earlier position with the bot's move on the board,
    and adds the move to the move list of the moment. *)
Theorem late_answer_replaces_position (v : Page.View) (turn : Lib.PieceColor)
  (engineReady : bool) (evs : list Page.Event) (m : string) :
  Page.botIsDue turn v = true ->
  JS.truthy m = true ->
  is_Some (Lib.move (Lib.newChess (Lib.fen (App.game (Page.app v)))) (Lib.MoveString m)) ->
  let v1 := (Page.botEffect turn engineReady v).1 in
  let v2 := Page.run evs v1 in
  let v3 := Page.botMove (App.game (Page.app v)) m v2 in
  exists botMove,
    Lib.move (Lib.newChess (Lib.fen (App.game (Page.app v)))) (Lib.MoveString m)
    = Some botMove
    /\ App.game (Page.app v3) = botMove.1
    /\ App.moveList (Page.app v3) = App.moveList (Page.app v2) ++ [Lib.san botMove.2]
    /\ App.gameStatus (Page.app v3) = App.gameStatus (Page.app v2)
    /\ App.botThinking (Page.app v1) = true
    /\ App.botThinking (Page.app v3) = false.
Proof.
  intros Hdue Hm [[g' r] Hbot] v1 v2 v3. exists (g', r).
  split; [exact Hbot |]. subst v3.
  unfold Page.botMove, Page.handleBotMoveFrom, Page.set_app. simpl.
  rewrite Hm, Hbot. simpl. repeat split; try reflexivity.
  subst v1. unfold Page.botEffect. rewrite Hdue. reflexivity.
Qed.

(** X17. Choosing a variant starts a game of the variant that was chosen
    before: the click records the new variant, but the position of the game
    it starts follows the old one; the next new game follows the new
    one. *)
Theorem variant_applies_from_next_game (random random' : nat -> Q) (id : string)
  (v : Page.View) :
  let v1 := Page.chooseVariant random id v in
  Page.variant v1 = id
  /\ App.game (Page.app v1)
     = (if String.eqb (Page.variant v) "960"
        then Lib.newChess (Chess960.random960Position random)
        else Lib.newChess Page.DEFAULT_POSITION)
  /\ App.game (Page.app (Page.newGame random' None None v1))
     = (if String.eqb id "960"
        then Lib.newChess (Chess960.random960Position random')
        else Lib.newChess Page.DEFAULT_POSITION)
  /\ App.moveList (Page.app v1) = []
  /\ App.gameStatus (Page.app v1) = App.playing.
Proof. repeat split; reflexivity. Qed.

(** X18. The banner has a text whenever the status is not [playing], and
    none while it is. After a resignation the text names the side that is
    not to move as the winner, whoever resigned. *)
Theorem winner_is_side_not_to_move (turn : Lib.PieceColor) (v : Page.View) :
  (Page.getWinnerText turn v = None <-> App.gameStatus (Page.app v) = App.playing)
  /\ Page.getWinnerText turn (Page.resign v)
     = Some match Page.other turn with
            | Lib.w => "White wins - opponent resigned!"
            | Lib.b => "Black wins - opponent resigned!"
            end%string
  /\ Page.getWinnerText turn (Page.resign v)
     = Page.getWinnerText turn (Page.resign (Page.flipBoard v)).
Proof.
  split; [| split].
  - unfold Page.getWinnerText.
    destruct (App.gameStatus (Page.app v)); split; intros H;
      try discriminate H; reflexivity.
  - destruct turn; reflexivity.
  - reflexivity.
Qed.

End PageRuns.

Lemma clocks_stay_within_bounds_witness :
  (0 <= Page.blackTime
          (Page.run [Page.Ticked Lib.w; Page.Restarted Samples.draws None None]
             (PageSamples.botToMove true)))%Z.
Proof.
  refine (proj1 (proj2 (proj2 (clocks_stay_within_bounds
            [Page.Ticked Lib.w; Page.Restarted Samples.draws None None]
            (PageSamples.botToMove true) _ _ _)))); simpl; lia.
Defined.

Lemma finished_game_witness :
  Page.run [Page.Moved "e2" "e4" None; Page.Ticked Lib.w; Page.BotDue Lib.w true]
    (Page.resign (PageSamples.botToMove true))
  = Page.resign (PageSamples.botToMove true).
Proof.
  refine (finished_game_stays_as_it_is
            [Page.Moved "e2" "e4" None; Page.Ticked Lib.w; Page.BotDue Lib.w true]
            (Page.resign (PageSamples.botToMove true)) _ _).
  - reflexivity.
  - simpl. discriminate.
Defined.

Lemma bot_is_asked_once_witness :
  App.botThinking
    (Page.app
       (Page.run [Page.Resigned; Page.Restarted Samples.draws (Some PageSamples.rookie) None]
          (Page.botEffect Lib.w true (PageSamples.botToMove false)).1)) = true.
Proof.
  refine (proj1 (bot_is_asked_once
            [Page.Resigned; Page.Restarted Samples.draws (Some PageSamples.rookie) None]
            (Page.botEffect Lib.w true (PageSamples.botToMove false)).1 Lib.b true _ _)).
  - reflexivity.
  - reflexivity.
Defined.

Lemma stalemate_is_reported_as_draw_witness :
  App.gameStatus
    (Page.app (Page.run [Page.GameChecked false true true] (PageSamples.botToMove true)))
  <> App.stalemate.
Proof.
  refine (stalemate_is_reported_as_draw [Page.GameChecked false true true]
            (PageSamples.botToMove true) _ _).
  - reflexivity.
  - simpl. discriminate.
Defined.

Lemma late_answer_witness :
  exists botMove,
    Lib.move (Lib.newChess (Lib.fen (App.game (Page.app (PageSamples.botToMove false)))))
      (Lib.MoveString "d2d4") = Some botMove
    /\ App.game
         (Page.app
            (Page.botMove (App.game (Page.app (PageSamples.botToMove false))) "d2d4"
               (Page.run [Page.Flipped; Page.Moved "e2" "e4" None]
                  (Page.botEffect Lib.w true (PageSamples.botToMove false)).1)))
       = botMove.1
    /\ App.moveList
         (Page.app
            (Page.botMove (App.game (Page.app (PageSamples.botToMove false))) "d2d4"
               (Page.run [Page.Flipped; Page.Moved "e2" "e4" None]
                  (Page.botEffect Lib.w true (PageSamples.botToMove false)).1)))
       = App.moveList
           (Page.app
              (Page.run [Page.Flipped; Page.Moved "e2" "e4" None]
                 (Page.botEffect Lib.w true (PageSamples.botToMove false)).1))
         ++ [Lib.san botMove.2]
    /\ App.gameStatus
         (Page.app
            (Page.botMove (App.game (Page.app (PageSamples.botToMove false))) "d2d4"
               (Page.run [Page.Flipped; Page.Moved "e2" "e4" None]
                  (Page.botEffect Lib.w true (PageSamples.botToMove false)).1)))
       = App.gameStatus
           (Page.app
              (Page.run [Page.Flipped; Page.Moved "e2" "e4" None]
                 (Page.botEffect Lib.w true (PageSamples.botToMove false)).1))
    /\ App.botThinking
         (Page.app (Page.botEffect Lib.w true (PageSamples.botToMove false)).1) = true
    /\ App.botThinking
         (Page.app
            (Page.botMove (App.game (Page.app (PageSamples.botToMove false))) "d2d4"
               (Page.run [Page.Flipped; Page.Moved "e2" "e4" None]
                  (Page.botEffect Lib.w true (PageSamples.botToMove false)).1)))
       = false.
Proof.
  refine (late_answer_replaces_position (PageSamples.botToMove false) Lib.w true
            [Page.Flipped; Page.Moved "e2" "e4" None] "d2d4" _ _ _).
  - reflexivity.
  - reflexivity.
  - vm_compute. eexists. reflexivity.
Defined.

(** ** The positions of the shuffle *)

Lemma choose_hits (xs : list Z) (x : Z) :
  x ∈ xs -> exists r : Q, (0 <= r)%Q /\ (r < 1)%Q /\ Chess960.choose xs r = Some x.
Proof.
  intros Hx. apply list_elem_of_lookup in Hx as [i Hi].
  pose proof (lookup_lt_Some _ _ _ Hi) as Hlt.
  destruct xs as [| y ys]; [simpl in Hlt; lia |].
  set (n := length ys). assert (Hn : length (y :: ys) = S n) by reflexivity.
  exists (Z.of_nat i # Pos.of_succ_nat n).
  assert (Hden : Z.pos (Pos.of_succ_nat n) = Z.of_nat (S n)).
  { rewrite Zpos_P_of_succ_nat. lia. }
  repeat split.
  - unfold Qle; simpl. lia.
  - unfold Qlt; simpl. rewrite Hden. rewrite Hn in Hlt. lia.
  - unfold Chess960.choose, Chess960.randomIndex. rewrite Hn.
    assert (E : ((Z.of_nat i # Pos.of_succ_nat n) * inject_Z (Z.of_nat (S n))
                 == inject_Z (Z.of_nat i))%Q).
    { unfold Qeq, Qmult, inject_Z. cbn [Qnum Qden]. rewrite <- Hden.
      rewrite Pos.mul_1_r. lia. }
    rewrite E, Qfloor_Z. unfold Chess960.at_.
    destruct (Z.ltb_spec (Z.of_nat i) 0) as [? | _]; [lia |].
    rewrite Nat2Z.id. exact Hi.
Qed.

Lemma pickAll_elim (k : nat) (xs : list Z) (cont : option Z -> list string)
  (fen : string) :
  fen ∈ Shuffle.pickAll k xs cont -> exists x, x ∈ xs /\ fen ∈ cont (Some x).
Proof.
  unfold Shuffle.pickAll. intros H. apply list_elem_of_In in H.
  apply in_flat_map in H as (x & Hx & Hf).
  exists x. split; by apply list_elem_of_In.
Qed.

(** Every entry of [everyLayout] is the result of [random960Position] for
    some draws. *)
Lemma layout_some_choice (fen : string) :
  fen ∈ Shuffle.everyLayout ->
  exists r0 r1 r2 r3 r4 : Q,
    (forall k, 0 <= Shuffle.drawsOf r0 r1 r2 r3 r4 k
               /\ Shuffle.drawsOf r0 r1 r2 r3 r4 k < 1)%Q
    /\ Chess960.random960Position (Shuffle.drawsOf r0 r1 r2 r3 r4) = fen.
Proof.
  unfold Shuffle.everyLayout, Chess960.layoutWith. cbv zeta. intros H.
  apply pickAll_elim in H as (x0 & Hx0 & H).
  apply pickAll_elim in H as (x1 & Hx1 & H).
  apply pickAll_elim in H as (x2 & Hx2 & H).
  apply pickAll_elim in H as (x3 & Hx3 & H).
  apply pickAll_elim in H as (x4 & Hx4 & H).
  apply list_elem_of_singleton in H.
  destruct (choose_hits _ _ Hx0) as (r0 & L0 & U0 & E0).
  destruct (choose_hits _ _ Hx1) as (r1 & L1 & U1 & E1).
  destruct (choose_hits _ _ Hx2) as (r2 & L2 & U2 & E2).
  destruct (choose_hits _ _ Hx3) as (r3 & L3 & U3 & E3).
  destruct (choose_hits _ _ Hx4) as (r4 & L4 & U4 & E4).
  exists r0, r1, r2, r3, r4. split.
  - intros [| [| [| [| k]]]]; simpl; split; assumption.
  - unfold Chess960.random960Position. cbv zeta.
    cbn [Shuffle.drawsOf].
    rewrite E0, E1, E2, E3, E4. symmetry. exact H.
Qed.

Lemma every_layout_listed :
  Chess960.layoutWith Chess960.pickEvery (JS.includes Shuffle.everyLayout) = true.
Proof. vm_compute. reflexivity. Qed.

Lemma layout_listed (random : nat -> Q) :
  (forall k, 0 <= random k /\ random k < 1)%Q ->
  Chess960.random960Position random ∈ Shuffle.everyLayout.
Proof.
  intros Hr. apply includes_elem.
  exact (layout_every_choice random (JS.includes Shuffle.everyLayout) Hr
           every_layout_listed).
Qed.

(** X19. The results of [random960Position], over all values that
    [Math.random] can return, are exactly 960 different FEN strings. *)
Theorem shuffle_yields_exactly_960_positions :
  exists fens : list string,
    NoDup fens
    /\ length fens = 960%nat
    /\ forall fen : string,
         fen ∈ fens
         <-> exists random : nat -> Q,
               (forall k, 0 <= random k /\ random k < 1)%Q
               /\ Chess960.random960Position random = fen.
Proof.
  exists (remove_dups Shuffle.everyLayout). split; [apply NoDup_remove_dups |].
  split; [vm_compute; reflexivity |].
  intros fen. rewrite elem_of_remove_dups. split.
  - intros H. destruct (layout_some_choice fen H) as (r0 & r1 & r2 & r3 & r4 & Hr & E).
    by exists (Shuffle.drawsOf r0 r1 r2 r3 r4).
  - intros (random & Hr & <-). by apply layout_listed.
Qed.

(** X20. The function makes one of 1920 sequences of choices, and each of
    its results comes from exactly two of them. *)
Theorem shuffle_reaches_each_position_twice :
  length Shuffle.everyLayout = 1920%nat
  /\ (forall random : nat -> Q,
        (forall k, 0 <= random k /\ random k < 1)%Q ->
        Shuffle.timesIn (Chess960.random960Position random) Shuffle.everyLayout = 2%nat).
Proof.
  split; [vm_compute; reflexivity |].
  intros random Hr.
  assert (H : forallb (fun fen => Nat.eqb (Shuffle.timesIn fen Shuffle.everyLayout) 2)
                Shuffle.everyLayout = true) by (vm_compute; reflexivity).
  rewrite forallb_forall in H. apply Nat.eqb_eq, H, list_elem_of_In.
  by apply layout_listed.
Qed.

Lemma every_layout_balanced :
  Chess960.layoutWith Chess960.pickEvery Shuffle.balanced = true.
Proof. vm_compute. reflexivity. Qed.

(** X21. Both evaluators give 0 for every position that
    [random960Position] returns. *)
Theorem shuffled_positions_are_level (random : nat -> Q) :
  (forall k, 0 <= random k /\ random k < 1)%Q ->
  (Eval.simpleEval (Chess960.random960Position random) == 0)%Q
  /\ (Eval.fallbackEval (Chess960.random960Position random) == 0)%Q.
Proof.
  intros Hr.
  pose proof (layout_every_choice random Shuffle.balanced Hr every_layout_balanced) as H.
  unfold Shuffle.balanced in H. apply andb_prop in H as [H1 H2].
  split; by apply Qeq_bool_iff.
Qed.

Lemma shuffled_positions_witness :
  (Eval.simpleEval (Chess960.random960Position Samples.draws) == 0)%Q.
Proof.
  refine (proj1 (shuffled_positions_are_level Samples.draws _)).
  intros [| [| [| [| k]]]]; simpl; split; lra.
Defined.

(** ** The evaluators and the colours *)

Lemma table_swap (c : ascii) :
  match Eval.pieces c, Eval.pieces (Shuffle.swapColor c) with
  | Some v, Some v' => (v' == - v)%Q
  | None, None => True
  | _, _ => False
  end
  /\ match Eval.values c, Eval.values (Shuffle.swapColor c) with
     | Some v, Some v' => (v' == - v)%Q
     | None, None => True
     | _, _ => False
     end.
Proof.
  destruct c as [[] [] [] [] [] [] [] []]; vm_compute; split; first [exact I | reflexivity].
Qed.

Lemma accumulate_swap (table : ascii -> option Q) (field : string) (acc acc' : Q) :
  (forall c, match table c, table (Shuffle.swapColor c) with
             | Some v, Some v' => (v' == - v)%Q
             | None, None => True
             | _, _ => False
             end) ->
  (acc' == - acc)%Q ->
  (Eval.accumulate table acc' (Shuffle.swapColors field)
   == - Eval.accumulate table acc field)%Q.
Proof.
  intros Ht. revert acc acc'. induction field as [| c field IH]; intros acc acc' Hacc.
  - exact Hacc.
  - simpl Shuffle.swapColors. rewrite !accumulate_cons. apply IH.
    specialize (Ht c).
    destruct (table c) as [v |], (table (Shuffle.swapColor c)) as [v' |];
      try contradiction; [| exact Hacc].
    rewrite Ht, Hacc. ring.
Qed.

(** X22. Changing the colour of every piece of a position changes the
    sign of both evaluations. *)
Theorem evaluations_change_sign_with_colours (fen fen' : string) :
  Eval.placement fen' = Shuffle.swapColors (Eval.placement fen) ->
  (Eval.simpleEval fen' == - Eval.simpleEval fen)%Q
  /\ (Eval.fallbackEval fen' == - Eval.fallbackEval fen)%Q.
Proof.
  intros H. unfold Eval.simpleEval, Eval.fallbackEval. rewrite H.
  split; apply accumulate_swap; try reflexivity; intros c; apply table_swap.
Qed.

Lemma evaluations_change_sign_witness :
  (Eval.simpleEval "4K3/8/8/8/8/8/8/4kb2 w - - 0 1"
   == - Eval.simpleEval "4k3/8/8/8/8/8/8/4KB2 w - - 0 1")%Q.
Proof.
  refine (proj1 (evaluations_change_sign_with_colours
                   "4k3/8/8/8/8/8/8/4KB2 w - - 0 1" "4K3/8/8/8/8/8/8/4kb2 w - - 0 1" _)).
  reflexivity.
Defined.

(** ** The clock display, the depth of the bot, the fallback move *)

Lemma forall_below (p : Z -> bool) (n : nat) :
  forallb p (map Z.of_nat (seq 0 n)) = true ->
  forall z : Z, (0 <= z < Z.of_nat n)%Z -> p z = true.
Proof.
  intros H z Hz. rewrite forallb_forall in H. apply H.
  apply in_map_iff. exists (Z.to_nat z). split; [lia |]. apply in_seq. lia.
Qed.

Lemma digit_is_not_colon (c : ascii) : JS.isDigit c = true -> Ascii.eqb c ":" = false.
Proof. destruct c as [[] [] [] [] [] [] [] []]; try reflexivity; discriminate. Qed.

Lemma split_after_digits (a b : string) :
  forallb JS.isDigit (list_ascii_of_string a) = true ->
  JS.split ":" (a +:+ String ":" b) = a :: JS.split ":" b.
Proof.
  induction a as [| c a IH]; intros Ha.
  - reflexivity.
  - simpl in Ha. apply andb_prop in Ha as [Hc Ha].
    rewrite append_cons. simpl. rewrite (digit_is_not_colon c Hc), (IH Ha). reflexivity.
Qed.

Lemma seconds_field (r : Z) :
  (0 <= r < 60)%Z ->
  String.length (Page.padStart2 (JS.show r)) = 2%nat
  /\ JS.parseDigits (Page.padStart2 (JS.show r)) = r
  /\ JS.split ":" (Page.padStart2 (JS.show r)) = [Page.padStart2 (JS.show r)].
Proof.
  intros Hr.
  pose proof (forall_below
    (fun r => Nat.eqb (String.length (Page.padStart2 (JS.show r))) 2
              && Z.eqb (JS.parseDigits (Page.padStart2 (JS.show r))) r
              && match JS.split ":" (Page.padStart2 (JS.show r)) with
                 | [x] => String.eqb x (Page.padStart2 (JS.show r))
                 | _ => false
                 end) 60 ltac:(vm_compute; reflexivity) r Hr) as H.
  cbv beta in H. apply andb_prop in H as [H H3]. apply andb_prop in H as [H1 H2].
  apply Nat.eqb_eq in H1. apply Z.eqb_eq in H2.
  destruct (JS.split ":" (Page.padStart2 (JS.show r))) as [| x [| ? ?]];
    try discriminate H3.
  apply String.eqb_eq in H3. subst x. done.
Qed.

(** X23. For a time that is not negative, [fmt] writes the minutes, a
    colon and the seconds in two digits: the text splits at the colon into
    two numbers that give the time back, so that different times are shown
    differently. *)
Theorem fmt_shows_minutes_and_seconds (s : Z) :
  (0 <= s)%Z ->
  exists minutes seconds : string,
    JS.split ":" (Page.fmt s) = [minutes; seconds]
    /\ String.length seconds = 2%nat
    /\ (0 <= JS.parseDigits seconds < 60)%Z
    /\ (60 * JS.parseDigits minutes + JS.parseDigits seconds)%Z = s.
Proof.
  intros Hs. unfold Page.fmt.
  rewrite (Z.rem_mod_nonneg s 60) by lia.
  assert (Hr : (0 <= s mod 60 < 60)%Z) by (apply Z.mod_pos_bound; lia).
  destruct (seconds_field _ Hr) as (F1 & F2 & F3).
  destruct (show_nonnegative (s / 60)) as (d & Ed & Pm & _);
    [apply Z.div_pos; lia |].
  exists (JS.show (s / 60)), (Page.padStart2 (JS.show (s mod 60))).
  repeat split.
  - change (":" +:+ Page.padStart2 (JS.show (s mod 60)))%string
      with (String ":" (Page.padStart2 (JS.show (s mod 60)))).
    rewrite split_after_digits, F3; [reflexivity |].
    rewrite Ed. apply digits_uint.
  - exact F1.
  - rewrite F2. lia.
  - rewrite F2. lia.
  - rewrite F2, Pm. pose proof (Z.div_mod s 60). lia.
Qed.

Lemma fmt_witness :
  exists minutes seconds : string,
    JS.split ":" (Page.fmt 605) = [minutes; seconds]
    /\ String.length seconds = 2%nat
    /\ (0 <= JS.parseDigits seconds < 60)%Z
    /\ (60 * JS.parseDigits minutes + JS.parseDigits seconds)%Z = 605%Z.
Proof. refine (fmt_shows_minutes_and_seconds 605 _). lia. Defined.

Lemma botDepth_closed (s : Z) :
  (0 <= s <= 20)%Z -> Page.botDepth s = ((200 - 3 * s) / 10)%Z.
Proof.
  intros Hs.
  pose proof (forall_below
    (fun s => Z.eqb (Page.botDepth s) ((200 - 3 * s) / 10)) 21
    ltac:(vm_compute; reflexivity) s ltac:(lia)) as H.
  by apply Z.eqb_eq in H.
Qed.

(** X24. For skill levels from 0 to 20 the depth the bot effect asks for
    does not grow with the skill: it lies between 14 and 20, a bot of higher
    skill never searches deeper, and one whose skill is higher by 4 or more
    searches less deep. The five bots of the table, from the weakest to the
    strongest, search to the depths 20, 18, 17, 15 and 14. *)
Theorem depth_falls_as_skill_rises (s1 s2 : Z) :
  (0 <= s1)%Z -> (s1 <= s2)%Z -> (s2 <= 20)%Z ->
  (14 <= Page.botDepth s2 <= Page.botDepth s1)%Z
  /\ (Page.botDepth s1 <= 20)%Z
  /\ ((s1 + 4 <= s2)%Z -> (Page.botDepth s2 < Page.botDepth s1)%Z)
  /\ (fun b => Page.botDepth (Page.skill b)) <$> Page.BOTS = [20; 18; 17; 15; 14]%Z.
Proof.
  intros H0 H12 H20.
  rewrite !botDepth_closed by lia.
  pose proof (Z.div_mod (200 - 3 * s1) 10 ltac:(lia)) as D1.
  pose proof (Z.div_mod (200 - 3 * s2) 10 ltac:(lia)) as D2.
  pose proof (Z.mod_pos_bound (200 - 3 * s1) 10 ltac:(lia)) as M1.
  pose proof (Z.mod_pos_bound (200 - 3 * s2) 10 ltac:(lia)) as M2.
  split; [lia |]. split; [lia |]. split; [lia |]. vm_compute. reflexivity.
Qed.

Lemma depth_falls_witness :
  (Page.botDepth 20 < Page.botDepth 0)%Z.
Proof.
  refine (proj1 (proj2 (proj2 (depth_falls_as_skill_rises 0 20 _ _ _))) _); lia.
Defined.

Lemma pickMove_elem (moves : list string) (r : Q) :
  (0 <= r)%Q -> (r < 1)%Q -> moves <> [] ->
  exists m : string, Page.pickMove moves r = Some m /\ m ∈ moves.
Proof.
  intros H0 H1 Hne.
  assert (Hlen : (0 < length moves)%nat) by (destruct moves; [done | simpl; lia]).
  pose proof (randomIndex_range r (length moves) H0 H1 Hlen) as [Hlo Hhi].
  unfold Page.pickMove, Chess960.at_.
  destruct (Z.ltb_spec (Chess960.randomIndex r (length moves)) 0) as [? | _]; [lia |].
  destruct (lookup_lt_is_Some_2 moves (Z.to_nat (Chess960.randomIndex r (length moves))))
    as [m Hm]; [lia |].
  exists m. split; [exact Hm |]. by eapply list_elem_of_lookup_2.
Qed.

(** X25. Whatever [Math.random] returns, [findFallbackMove] returns the
    empty string when there is no legal move, and otherwise one of the
    legal moves: a capture (a move written with an x) whenever there is
    one. *)
Theorem fallback_prefers_captures (moves : list string) (r : Q) :
  (0 <= r)%Q -> (r < 1)%Q ->
  exists m : string,
    Page.findFallbackMove moves r = Some m
    /\ (moves = [] -> m = EmptyString)
    /\ (moves <> [] -> m ∈ moves)
    /\ ((exists c, c ∈ moves /\ Engine.contains c "x" = true) ->
        Engine.contains m "x" = true).
Proof.
  intros H0 H1. unfold Page.findFallbackMove.
  destruct moves as [| m0 moves']; [| set (moves := m0 :: moves')].
  - exists EmptyString. split; [reflexivity |]. split; [done |]. split; [done |].
    intros (c & Hc & _). by apply elem_of_nil in Hc.
  - destruct (List.filter (fun m => Engine.contains m "x") moves) as [| c0 caps] eqn:Hcaps.
    + destruct (pickMove_elem moves r H0 H1 ltac:(done)) as (m & Em & Hm).
      exists m. split; [exact Em |]. split; [done |]. split; [done |].
      intros (c & Hc & Hx). exfalso.
      assert (Hin : In c (List.filter (fun m => Engine.contains m "x") moves)).
      { apply filter_In. split; [by apply list_elem_of_In | exact Hx]. }
      rewrite Hcaps in Hin. destruct Hin.
    + destruct (pickMove_elem (c0 :: caps) r H0 H1 ltac:(done)) as (m & Em & Hm).
      rewrite <- Hcaps in Hm. apply list_elem_of_In, filter_In in Hm as [Hm Hx].
      apply list_elem_of_In in Hm.
      exists m. split; [exact Em |]. split; [done |]. split; [done |].
      intros _. exact Hx.
Qed.

Lemma fallback_witness :
  exists m : string,
    Page.findFallbackMove ["e4"; "exd5"; "Nf3"] 0.5 = Some m
    /\ (["e4"; "exd5"; "Nf3"] = [] -> m = EmptyString)
    /\ (["e4"; "exd5"; "Nf3"] <> [] -> m ∈ ["e4"; "exd5"; "Nf3"])
    /\ ((exists c, c ∈ ["e4"; "exd5"; "Nf3"] /\ Engine.contains c "x" = true) ->
        Engine.contains m "x" = true).
Proof. refine (fallback_prefers_captures ["e4"; "exd5"; "Nf3"]%string 0.5 _ _); lra. Defined.

Example late_answer_after_a_move :
  let v1 := (Page.botEffect Lib.w true (PageSamples.botToMove false)).1 in
  let v2 := Page.run [Page.Flipped; Page.Moved "e2" "e4" None] v1 in
  let v3 := Page.botMove (App.game (Page.app (PageSamples.botToMove false))) "d2d4" v2 in
  Lib.fen (App.game (Page.app v2))
  = "rnbqkbnr/pppppppp/8/8/4P3/8/PPPP1PPP/RNBQKBNR b KQkq e3 0 1"%string
  /\ Lib.fen (App.game (Page.app v3))
     = "rnbqkbnr/pppppppp/8/8/3P4/8/PPP1PPPP/RNBQKBNR b KQkq d3 0 1"%string
  /\ App.moveList (Page.app v3) = ["e4"; "d4"]%string.
Proof. vm_compute. repeat split; reflexivity. Qed.

(** ** The board component: highlights and squares *)

Section BoardSelection.

Context {L : Lib.ChessJS} {P : Type}.

Lemma selectOrDeselect_state (props : @ChessBoard.Props P) (square : string)
  (wd : @ChessBoard.World P) :
  let wd' := (ChessBoard.selectOrDeselect props square wd).2 in
  ChessBoard.possibleMoves wd'
  = match ChessBoard.selectedSquare wd' with
    | Some s => ChessBoard.getLegalMoves props s
    | None => []
    end
  /\ ChessBoard.parent wd' = ChessBoard.parent wd.
Proof.
  unfold ChessBoard.selectOrDeselect.
  destruct (ChessBoard.getPiece props square) as [piece |];
    [destruct (ChessBoard.isMyPiece _ piece) |]; split; reflexivity.
Qed.

(** X26. After a click the highlighted squares are exactly the legal
    targets of the square that is then selected, and there are none when
    no square is selected; a click that submits no move leaves the state of
    the page as it is. *)
Theorem highlights_belong_to_selection (props : @ChessBoard.Props P) (square : string)
  (wd : @ChessBoard.World P) :
  let wd' := St.exec (ChessBoard.handleSquareClick props square) wd in
  ChessBoard.possibleMoves wd'
  = match ChessBoard.selectedSquare wd' with
    | Some s => ChessBoard.getLegalMoves props s
    | None => []
    end
  /\ (ChessBoard.submittedBy (ChessBoard.handleSquareClick props square) wd = [] ->
      ChessBoard.parent wd' = ChessBoard.parent wd).
Proof.
  unfold ChessBoard.submittedBy, St.exec. rewrite handleSquareClick_unfold.
  destruct (ChessBoard.selectedSquare wd) as [selected |];
    [| split; [| intros _]; apply selectOrDeselect_state].
  destruct (JS.truthy selected && JS.includes _ square);
    [| split; [| intros _]; apply selectOrDeselect_state].
  destruct (ChessBoard.onMove props selected square (Some "q"%string) (ChessBoard.parent wd))
    as [[] parent']; cbv zeta.
  - split; [reflexivity |]. simpl. rewrite drop_app_length. discriminate.
  - split; [apply selectOrDeselect_state |].
    rewrite submitted_selectOrDeselect. simpl. rewrite drop_app_length. discriminate.
Qed.

End BoardSelection.

(** X27. In both orientations the board has the 64 squares of the chess
    board, each once, the black view in the reverse order of the white
    one; and each square has the colour it has on a chess board (a1 dark),
    whichever way the board is turned. *)
Theorem squares_keep_their_colour (orientation : App.Orientation) :
  length (BoardView.board orientation) = 64%nat
  /\ NoDup (BoardView.square <$> BoardView.board orientation)
  /\ BoardView.square <$> BoardView.board App.black
     = reverse (BoardView.square <$> BoardView.board App.white)
  /\ forall c : BoardView.Cell,
       c ∈ BoardView.board orientation ->
       BoardView.isDark c = BoardView.darkByName (BoardView.square c).
Proof.
  split; [by destruct orientation |].
  split.
  { assert (H : bool_decide
                  (NoDup (BoardView.square <$> BoardView.board orientation)) = true)
      by (destruct orientation; vm_compute; reflexivity).
    exact (bool_decide_eq_true_1 _ H). }
  split; [reflexivity |].
  intros c Hc. apply list_elem_of_In in Hc.
  assert (H : forallb (fun c => Bool.eqb (BoardView.isDark c)
                                  (BoardView.darkByName (BoardView.square c)))
                (BoardView.board orientation) = true)
    by (destruct orientation; vm_compute; reflexivity).
  rewrite forallb_forall in H. apply Bool.eqb_prop. by apply H.
Qed.

(** ** [init] of the engine wrapper *)

Lemma init_run_cons (ev : Init.Event) (evs : list Init.Event) (st : Init.State) :
  Init.run (ev :: evs) st = Init.run evs (Init.step ev st).
Proof. reflexivity. Qed.

Lemma init_run_app (evs1 evs2 : list Init.Event) (st : Init.State) :
  Init.run (evs1 ++ evs2) st = Init.run evs2 (Init.run evs1 st).
Proof. unfold Init.run. apply fold_left_app. Qed.

Lemma awaiting_drops (msg : string) (st : Init.State) :
  Init.onmessage st = Some Init.AwaitingUciok -> msg <> "uciok"%string ->
  Init.step (Init.Message msg) st = st.
Proof.
  intros Hw Hmsg. simpl. rewrite Hw. unfold Init.awaitUciok.
  destruct (String.eqb_spec msg "uciok"); [contradiction | reflexivity].
Qed.

Lemma awaiting_drops_all (msgs : list string) (st : Init.State) :
  Init.onmessage st = Some Init.AwaitingUciok ->
  Forall (fun msg => msg <> "uciok"%string) msgs ->
  Init.run (Init.Message <$> msgs) st = st.
Proof.
  intros Hw Hmsgs. induction Hmsgs as [| msg msgs Hmsg _ IH]; [reflexivity |].
  rewrite fmap_cons, init_run_cons, (awaiting_drops msg st Hw Hmsg). exact IH.
Qed.

(** X28. After [init] has created the worker, the messages that arrive
    before [uciok] are dropped: they reach neither [handleMessage] nor a
    callback. The message [uciok] (this text exactly) completes the
    handshake: the engine is ready, the promise of [init] is fulfilled
    with [true], later messages go to [handleMessage], and the worker has
    been sent [uci], the two options and [isready], in this order. *)
Theorem uciok_completes_the_handshake (h : Engine.Host) (msgs : list string) :
  Forall (fun msg => msg <> "uciok"%string) msgs ->
  let waiting := Init.run (Init.Message <$> msgs) (Init.init Init.WorkerStarts h) in
  let st := Init.step (Init.Message "uciok") waiting in
  waiting = Init.init Init.WorkerStarts h
  /\ Init.answer waiting = None
  /\ Engine.calls (Init.host waiting) = Engine.calls h
  /\ Engine.currentAnalysis (Engine.engine (Init.host waiting))
     = Engine.currentAnalysis (Engine.engine h)
  /\ Init.answer st = Some true
  /\ Engine.ready (Engine.engine (Init.host st)) = true
  /\ Init.onmessage st = Some Init.Forwarding
  /\ Engine.worker (Engine.engine (Init.host st))
     = Some ["uci"; "setoption name Threads value 1"; "setoption name Hash value 32";
             "isready"]%string.
Proof.
  intros Hmsgs waiting st.
  assert (E : waiting = Init.init Init.WorkerStarts h)
    by (apply awaiting_drops_all; [reflexivity | exact Hmsgs]).
  subst st. rewrite E. destruct h as [[wk oa ob rd ca] ps ts cs].
  repeat split; reflexivity.
Qed.

Lemma uciok_handshake_witness :
  Init.answer
    (Init.step (Init.Message "uciok")
       (Init.run (Init.Message <$> ["Stockfish 10"; "id name Stockfish"]%string)
          (Init.init Init.WorkerStarts Samples.unavailableEngine))) = Some true.
Proof.
  refine (proj1 (proj2 (proj2 (proj2 (proj2
            (uciok_completes_the_handshake Samples.unavailableEngine
               ["Stockfish 10"; "id name Stockfish"]%string _)))))).
  repeat constructor; discriminate.
Defined.

Lemma init_step_destroyed (ev : Init.Event) (st : Init.State) :
  Obs.destroyed (Init.host st) -> Obs.destroyed (Init.host (Init.step ev st)).
Proof.
  intros Hd. destruct ev as [msg | | | r | k]; simpl.
  - destruct (Init.onmessage st) as [[] |]; [| | exact Hd].
    + exact (destroyed_dispatch (Engine.WorkerMessage msg) _ Hd).
    + unfold Init.awaitUciok. destruct (String.eqb msg "uciok"); [| exact Hd].
      unfold Obs.destroyed in Hd. simpl. rewrite Hd. simpl. exact Hd.
  - destruct (Init.onmessage st); [reflexivity | exact Hd].
  - destruct (Init.timerSet st); [| exact Hd]. simpl.
    destruct (negb _); [reflexivity | exact Hd].
  - exact (worker_perform_destroyed r _ Hd).
  - exact (destroyed_dispatch (Engine.TimerFires k) _ Hd).
Qed.

Lemma init_step_settled (ev : Init.Event) (st : Init.State) (b : bool) :
  Init.answer st = Some b -> Init.answer (Init.step ev st) = Some b.
Proof.
  intros Ha. destruct ev as [msg | | | r | k]; simpl.
  - destruct (Init.onmessage st) as [[] |]; [exact Ha | | exact Ha].
    unfold Init.awaitUciok. destruct (String.eqb msg "uciok"); [| exact Ha].
    simpl. destruct (Engine.worker (Engine.engine (Init.host st))); simpl;
      rewrite ?Ha; reflexivity.
  - destruct (Init.onmessage st); [| exact Ha]. simpl. by rewrite Ha.
  - destruct (Init.timerSet st); [| exact Ha]. simpl.
    destruct (negb _); simpl; rewrite ?Ha; reflexivity.
  - exact Ha.
  - exact Ha.
Qed.

Lemma init_run_given_up (evs : list Init.Event) (st : Init.State) (b : bool) :
  Init.answer st = Some b -> Obs.destroyed (Init.host st) ->
  Init.answer (Init.run evs st) = Some b /\ Obs.destroyed (Init.host (Init.run evs st)).
Proof.
  revert st. induction evs as [| ev evs IH]; intros st Ha Hd; [done |].
  rewrite init_run_cons. apply IH; [by apply init_step_settled | by apply init_step_destroyed].
Qed.

(** X29. A worker that has not sent [uciok] when the timer of [init]
    fires, or that reports an error, is given up until [init] is called
    again: the promise of [init] is fulfilled with [false] and the worker
    reference is [null], and both stay so whatever messages (also a late
    [uciok]), errors, timers and calls of the other methods follow; so
    [findBestMove] resolves to [null] until then. Only a new call of [init]
    that gets a worker sets the reference again. *)
Theorem silent_worker_is_given_up (h : Engine.Host) (msgs : list string)
  (end_ : Init.Event) (later : list Init.Event) (fen : string)
  (depth skillLevel : option Z) :
  Forall (fun msg => msg <> "uciok"%string) msgs ->
  end_ = Init.TimeoutFires \/ end_ = Init.WorkerError ->
  Engine.ready (Engine.engine h) = false ->
  let st := Init.run ((Init.Message <$> msgs) ++ end_ :: later)
              (Init.init Init.WorkerStarts h) in
  Init.answer st = Some false
  /\ Engine.worker (Engine.engine (Init.host st)) = None
  /\ (let (p, h') := Engine.findBestMove fen depth skillLevel (Init.host st) in
      Engine.promises h' !! p = Some (Engine.Resolved None))
  /\ Engine.worker (Engine.engine (Init.host (Init.init Init.WorkerStarts (Init.host st))))
     = Some ["uci"%string].
Proof.
  intros Hmsgs Hend Hready st.
  assert (G : Init.answer st = Some false /\ Obs.destroyed (Init.host st)).
  { subst st. rewrite init_run_app, awaiting_drops_all; [| reflexivity | exact Hmsgs].
    rewrite init_run_cons. apply init_run_given_up.
    - destruct h as [[wk oa ob rd ca] ps ts cs]. simpl in Hready. subst rd.
      destruct Hend as [-> | ->]; reflexivity.
    - destruct h as [[wk oa ob rd ca] ps ts cs]. simpl in Hready. subst rd.
      destruct Hend as [-> | ->]; reflexivity. }
  destruct G as [Ga Gd]. split; [exact Ga |]. split; [exact Gd |].
  split; [| by destruct (Init.host st) as [[wk oa ob rd ca] ps ts cs]].
  pose proof (findBestMove_unavailable (Init.host st) fen depth skillLevel Gd) as F.
  cbv zeta in F. destruct (Engine.findBestMove fen depth skillLevel (Init.host st))
    as [p h'].
  simpl in F. destruct F as [-> ->].
  by rewrite lookup_app_r, Nat.sub_diag.
Qed.

Lemma silent_worker_witness :
  Init.answer
    (Init.run ((Init.Message <$> ["Stockfish 10"]%string)
               ++ Init.TimeoutFires :: [Init.Message "uciok"])
       (Init.init Init.WorkerStarts Samples.unavailableEngine)) = Some false.
Proof.
  refine (proj1 (silent_worker_is_given_up Samples.unavailableEngine
                   ["Stockfish 10"]%string Init.TimeoutFires [Init.Message "uciok"]
                   Samples.startFEN None None _ _ _)).
  - repeat constructor; discriminate.
  - left; reflexivity.
  - reflexivity.
Defined.

Lemma init_pending_step (h : Engine.Host) (ev : Init.Event) :
  Engine.ready (Engine.engine h) = false -> Init.fromOutside ev = true ->
  let st := Init.step ev (Init.init Init.WorkerStarts h) in
  match Init.answer st with
  | None => st = Init.init Init.WorkerStarts h /\ ev <> Init.TimeoutFires
  | Some true => Init.isUciok ev = true
  | Some false => True
  end.
Proof.
  intros Hready Hev. destruct h as [[wk oa ob rd ca] ps ts cs].
  simpl in Hready. subst rd.
  destruct ev as [msg | | | r | k]; try discriminate Hev; simpl; [| exact I | exact I].
  unfold Init.awaitUciok. destruct (String.eqb msg "uciok") eqn:E; simpl.
  - reflexivity.
  - split; [reflexivity | discriminate].
Qed.

Lemma init_outside_run (h : Engine.Host) (seen evs : list Init.Event) (st : Init.State) :
  Engine.ready (Engine.engine h) = false ->
  forallb Init.fromOutside evs = true ->
  match Init.answer st with
  | None => st = Init.init Init.WorkerStarts h /\ Init.TimeoutFires ∉ seen
  | Some true => existsb Init.isUciok seen = true
  | Some false => True
  end ->
  match Init.answer (Init.run evs st) with
  | None => Init.run evs st = Init.init Init.WorkerStarts h
            /\ Init.TimeoutFires ∉ seen ++ evs
  | Some true => existsb Init.isUciok (seen ++ evs) = true
  | Some false => True
  end.
Proof.
  intros Hready. revert seen st. induction evs as [| ev evs IH]; intros seen st Hevs Inv.
  - rewrite app_nil_r. exact Inv.
  - simpl in Hevs. apply andb_true_iff in Hevs as [Hev Hevs].
    rewrite init_run_cons.
    replace (seen ++ ev :: evs) with ((seen ++ [ev]) ++ evs) by (by rewrite <- app_assoc).
    apply (IH (seen ++ [ev]) (Init.step ev st) Hevs).
    destruct (Init.answer st) as [[] |] eqn:Ha.
    + rewrite (init_step_settled ev st true Ha), existsb_app, Inv. reflexivity.
    + by rewrite (init_step_settled ev st false Ha).
    + destruct Inv as [-> Hseen].
      pose proof (init_pending_step h ev Hready Hev) as Hstep. cbv zeta in Hstep.
      destruct (Init.answer (Init.step ev (Init.init Init.WorkerStarts h))) as [[] |].
      * rewrite existsb_app. simpl. rewrite Hstep. by rewrite orb_true_r.
      * exact I.
      * destruct Hstep as [E Hne]. split; [exact E |].
        intros Hin. apply elem_of_app in Hin as [Hin | Hin]; [by apply Hseen |].
        apply list_elem_of_singleton in Hin. by apply Hne.
Qed.

(** X30. As long as the application calls no method of the engine, the
    promise of [init] is settled once the timer of [init] has fired; it is
    fulfilled with [true] only if the message [uciok] has arrived; and
    while it is pending the engine is as [init] left it: nothing has been
    posted but [uci], and no message has reached [handleMessage]. *)
Theorem init_settles_by_its_timeout (h : Engine.Host) (evs : list Init.Event) :
  Engine.ready (Engine.engine h) = false ->
  forallb Init.fromOutside evs = true ->
  let st := Init.run evs (Init.init Init.WorkerStarts h) in
  (Init.TimeoutFires ∈ evs -> Init.answer st <> None)
  /\ (Init.answer st = Some true -> existsb Init.isUciok evs = true)
  /\ (Init.answer st = None -> st = Init.init Init.WorkerStarts h).
Proof.
  intros Hready Hevs st.
  pose proof (init_outside_run h [] evs (Init.init Init.WorkerStarts h) Hready Hevs) as H.
  specialize (H (conj eq_refl (not_elem_of_nil _))).
  change ([] ++ evs) with evs in H. fold st in H. destruct (Init.answer st) as [[] |].
  - split; [discriminate |]. split; [intros _; exact H | discriminate].
  - split; [discriminate |]. split; discriminate.
  - destruct H as [E Hno]. split; [intros Hin; by apply Hno in Hin |].
    split; [discriminate | intros _; exact E].
Qed.

Lemma init_settles_witness :
  Init.answer
    (Init.run [Init.Message "Stockfish 10"; Init.TimeoutFires]
       (Init.init Init.WorkerStarts Samples.unavailableEngine)) <> None.
Proof.
  refine (proj1 (init_settles_by_its_timeout Samples.unavailableEngine
                   [Init.Message "Stockfish 10"; Init.TimeoutFires] _ _) _).
  - reflexivity.
  - reflexivity.
  - apply list_elem_of_In. right. left. reflexivity.
Defined.
